(** * ALAN: the Planner / Worker / Memory execution loop

    A shallow embedding of the two generations of the loop found in the
    repository, and the properties of its specification:

    - [Engine] embeds [alan_app/alan_core_engine.py]
      (Memory with scored retrieval, Planner, Worker, [AlanCore.process]);
    - [Core] embeds [alan_core/memory.py], [alan_core/planner.py],
      [alan_core/worker.py] and [alan_core/hrm.py]
      (Memory with JSON persistence, Planner, Worker with an optional
      model hook and a shell capability, [HRM.run]);
    - [Runtime] and [Backend] embed their callers, the loop of
      [alan_core/runtime.py] and the endpoint of [alan_app/backend/app.py].

    Modelling conventions.
    - Python [str] is a [string] of 8-bit characters, the UTF-8 encoding
      of the text; [a in b] is substring search.  [lower], [strip] and
      [split] treat the ASCII letters and blanks: they are Python's on
      the strings [is_ascii] accepts, and the laws that depend on them
      are stated for such strings.
    - A finite Python float ([time.time()], a score) is the rational [Q]
      it stands for; a float operation rounds its exact result, with the
      oracle [fround] of the environment.  Infinities and NaN are left
      out.
    - A Python value is a [pyval]: a JSON-native value, a tuple, or a
      value of another type that can be copied.  Values that cannot be
      deep-copied and dictionaries with keys that are not strings are
      left out.
    - [uuid.uuid4()], [time.time()], the model hook and the operating
      system are oracles of an environment [Env]; the [n]-th call of an
      oracle returns its value at [n], and the [World] counts the calls.
    - A Python [dict] is an association list in insertion order.
    - An exception is a value: fallible code returns an [outcome]. *)

From Stdlib Require Import String Ascii Bool Arith ZArith QArith Lia List.
From Stdlib Require Import Permutation Sorted Qminmax DecimalString Lqa.
Import ListNotations.

Local Close Scope Q_scope.
Local Open Scope string_scope.
Local Open Scope list_scope.

(* ================================================================== *)
(** * Python primitives *)
(* ================================================================== *)

Module Py.

(** ** Strings *)

(** The strings of ASCII characters. *)
Fixpoint is_ascii (s : string) : bool :=
  match s with
  | EmptyString => true
  | String c s' => (nat_of_ascii c <? 128)%nat && is_ascii s'
  end.

(** [c.lower()] on one character: 'A'..'Z' are moved to 'a'..'z', the
    other ASCII characters stay. *)
Definition lower_ascii (c : ascii) : ascii :=
  let n := nat_of_ascii c in
  if (65 <=? n)%nat && (n <=? 90)%nat then ascii_of_nat (n + 32) else c.

(** [s.lower()], for [s] an ASCII string. *)
Fixpoint lower (s : string) : string :=
  match s with
  | EmptyString => EmptyString
  | String c s' => String (lower_ascii c) (lower s')
  end.

(** [hay.startswith(pre)]. *)
Fixpoint startswith (pre hay : string) : bool :=
  match pre, hay with
  | EmptyString, _ => true
  | String _ _, EmptyString => false
  | String a pre', String b hay' => Ascii.eqb a b && startswith pre' hay'
  end.

(** [needle in hay]: [needle] occurs in [hay] as a substring. *)
Fixpoint contains (needle hay : string) : bool :=
  startswith needle hay ||
  match hay with
  | EmptyString => false
  | String _ hay' => contains needle hay'
  end.

(** The ASCII characters [str.strip] and [str.split] treat as blanks:
    tab, line feed, vertical tab, form feed, carriage return,
    the separators 28..31 and the space.  On an ASCII string they are
    all the blanks there are. *)
Definition is_space (c : ascii) : bool :=
  let n := nat_of_ascii c in
  ((9 <=? n)%nat && (n <=? 13)%nat) || ((28 <=? n)%nat && (n <=? 32)%nat).

Fixpoint lstrip (s : string) : string :=
  match s with
  | EmptyString => EmptyString
  | String c s' => if is_space c then lstrip s' else s
  end.

(** [rstrip s]: drop the trailing blanks. *)
Fixpoint rstrip (s : string) : string :=
  match s with
  | EmptyString => EmptyString
  | String c s' =>
      match rstrip s' with
      | EmptyString => if is_space c then EmptyString else String c EmptyString
      | r => String c r
      end
  end.

(** [s.strip()]. *)
Definition strip (s : string) : string := rstrip (lstrip s).

(** [s.split()]: the maximal runs of non-blank characters.
    [cur] is the word being read, in reverse. *)
Fixpoint split_aux (cur : list ascii) (s : string) : list string :=
  let flush := match cur with
               | [] => []
               | _ => [string_of_list_ascii (rev cur)]
               end in
  match s with
  | EmptyString => flush
  | String c s' =>
      if is_space c then flush ++ split_aux [] s'
      else split_aux (c :: cur) s'
  end.

Definition split (s : string) : list string := split_aux [] s.

(** [hay.endswith(suf)]. *)
Definition endswith (suf hay : string) : bool :=
  startswith (string_of_list_ascii (rev (list_ascii_of_string suf)))
             (string_of_list_ascii (rev (list_ascii_of_string hay))).

(** ** Lists *)

(** [l[:limit]]: a negative [limit] counts from the end. *)
Definition slice_to {A : Type} (limit : Z) (l : list A) : list A :=
  if (0 <=? limit)%Z then firstn (Z.to_nat limit) l
  else firstn (length l - Z.to_nat (- limit)) l.

(** [l.pop(0)] on a non-empty list leaves its tail. *)
Definition pop0 {A : Type} (l : list A) : list A := tl l.

(** The last [n] elements of [l], in order. *)
Definition lastn {A : Type} (n : nat) (l : list A) : list A :=
  skipn (length l - n) l.

(** ** Values *)

(** The Python values that flow through the program: the JSON-native
    ones ([PNum] is a [float], [PInt] an [int]), tuples, and values of
    other types (a [set], [bytes], an object of a class) of which the
    program uses the type name and the truth value only.  Every value
    here can be deep-copied. *)
#[local] Set Warnings "-register-all".
Inductive pyval : Type :=
| PNone
| PBool (b : bool)
| PNum (q : Q)
| PStr (s : string)
| PList (l : list pyval)
| PDict (d : list (string * pyval))
| PTuple (l : list pyval)
| POther (type_name : string) (truth : bool)
| PInt (z : Z).

Definition pydict : Type := list (string * pyval).

(** [bool(v)]. *)
Definition truthy (v : pyval) : bool :=
  match v with
  | PNone => false
  | PBool b => b
  | PNum q => negb (Qeq_bool q 0%Q)
  | PStr s => negb (String.eqb s "")
  | PList l => match l with [] => false | _ => true end
  | PDict d => match d with [] => false | _ => true end
  | PTuple l => match l with [] => false | _ => true end
  | POther _ truth => truth
  | PInt z => negb (Z.eqb z 0)
  end.

(** ** Dictionaries, in insertion order *)

Section Dict.
Context {V : Type}.

(** [d.get(k)]. *)
Fixpoint dict_get (k : string) (d : list (string * V)) : option V :=
  match d with
  | [] => None
  | (k', v) :: d' => if String.eqb k k' then Some v else dict_get k d'
  end.

(** [d.get(k, dflt)]. *)
Definition dict_get_default (k : string) (dflt : V)
           (d : list (string * V)) : V :=
  match dict_get k d with Some v => v | None => dflt end.

(** [d[k] = v]: an existing key keeps its place, a new one goes last. *)
Fixpoint dict_set (k : string) (v : V) (d : list (string * V))
  : list (string * V) :=
  match d with
  | [] => [(k, v)]
  | (k', v') :: d' =>
      if String.eqb k k' then (k, v) :: d' else (k', v') :: dict_set k v d'
  end.

(** [list(d.values())]. *)
Definition dict_values (d : list (string * V)) : list V := map snd d.

(** [list(d.keys())]. *)
Definition dict_keys (d : list (string * V)) : list string := map fst d.
End Dict.

(** ** Exceptions *)

Record exn : Type := { exn_class : string; exn_msg : string }.

(** [str(e)]. *)
Definition str_exn (e : exn) : string := exn_msg e.

Inductive outcome (A : Type) : Type :=
| Ok (a : A)
| Raise (e : exn).
Arguments Ok {A} a.
Arguments Raise {A} e.

Definition is_ok {A : Type} (o : outcome A) : bool :=
  match o with Ok _ => true | Raise _ => false end.

(** ** JSON *)

(** A JSON text. *)
Inductive json : Type :=
| JNull
| JBool (b : bool)
| JNumber (q : Q)
| JInteger (z : Z)
| JString (s : string)
| JArray (l : list json)
| JObject (d : list (string * json)).

(** The [TypeError] of the encoder on a value of a type it does not
    know. *)
Definition not_serializable (type_name : string) : exn :=
  {| exn_class := "TypeError";
     exn_msg := ("Object of type " ++ type_name
                 ++ " is not JSON serializable")%string |}.

(** [f] on every element in turn, up to the first exception. *)
Definition all_ok {A B : Type} (f : A -> outcome B)
  : list A -> outcome (list B) :=
  fix go (l : list A) : outcome (list B) :=
    match l with
    | [] => Ok []
    | x :: l' =>
        match f x with
        | Raise e => Raise e
        | Ok y =>
            match go l' with
            | Raise e => Raise e
            | Ok ys => Ok (y :: ys)
            end
        end
    end.

(** What [json.dump] writes for [v]: a list and a tuple both become an
    array, and a value of another type raises. *)
Fixpoint json_of (v : pyval) : outcome json :=
  match v with
  | PNone => Ok JNull
  | PBool b => Ok (JBool b)
  | PNum q => Ok (JNumber q)
  | PInt z => Ok (JInteger z)
  | PStr s => Ok (JString s)
  | PList l | PTuple l =>
      match all_ok json_of l with
      | Raise e => Raise e
      | Ok js => Ok (JArray js)
      end
  | PDict d =>
      match all_ok (fun kv : string * pyval =>
                      let (k, x) := kv in
                      match json_of x with
                      | Raise e => Raise e
                      | Ok j => Ok (k, j)
                      end) d with
      | Raise e => Raise e
      | Ok members => Ok (JObject members)
      end
  | POther type_name _ => Raise (not_serializable type_name)
  end.

(** What [json.load] builds from a JSON text: a number written with a
    fraction or an exponent becomes a [float] and another an [int], an
    array becomes a list, and in an object a repeated name keeps its
    first place and its last value. *)
Fixpoint py_of (j : json) : pyval :=
  match j with
  | JNull => PNone
  | JBool b => PBool b
  | JNumber q => PNum q
  | JInteger z => PInt z
  | JString s => PStr s
  | JArray l => PList (map py_of l)
  | JObject d =>
      PDict (fold_left (fun acc (kv : string * json) =>
                          let (k, x) := kv in dict_set k (py_of x) acc)
                       d [])
  end.

End Py.
Import Py.

(* ================================================================== *)
(** * The environment of a run *)
(* ================================================================== *)

(** What the program obtains from outside.  Each oracle is indexed by
    the number of earlier calls, so successive calls may differ. *)
Record Env : Type := {
  (** [str(uuid.uuid4())] *)
  uuid4 : nat -> string;
  (** [time.time()] *)
  clock : nat -> Q;
  (** the float nearest to an exact result: what a float operation
      returns for it *)
  fround : Q -> Q;
  (** [repr(v)], which [str(v)] uses for every value but a string *)
  repr : pyval -> string;
  (** [pprint.PrettyPrinter(indent=2).pformat(v)] *)
  pformat : pyval -> string;
  (** the caller's [llm_call], when one was given to [Worker]: the
      value it returns, one that can be copied, or the exception it
      raises *)
  llm_call : option (nat -> string -> outcome pyval);
  (** [subprocess.check_output(cmd, shell=True, stderr=STDOUT, timeout=10)]:
      the captured bytes, or the exception of a non-zero exit, a timeout
      or an operating-system error *)
  check_output : nat -> string -> outcome string;
  (** [bytes.decode("utf-8")] *)
  decode_utf8 : string -> outcome string
}.

(** The calls made so far. *)
Record World : Type := {
  uuid_calls : nat;
  clock_calls : nat;
  llm_calls : nat;
  shell_calls : nat
}.

Definition world0 : World :=
  {| uuid_calls := 0; clock_calls := 0; llm_calls := 0; shell_calls := 0 |}.

Section Oracles.
Variable E : Env.

(** [str(v)]. *)
Definition str (v : pyval) : string :=
  match v with
  | PStr s => s
  | _ => repr E v
  end.

Definition fresh_uuid (w : World) : string * World :=
  (uuid4 E (uuid_calls w),
   {| uuid_calls := S (uuid_calls w); clock_calls := clock_calls w;
      llm_calls := llm_calls w; shell_calls := shell_calls w |}).

Definition now_ts (w : World) : Q * World :=
  (clock E (clock_calls w),
   {| uuid_calls := uuid_calls w; clock_calls := S (clock_calls w);
      llm_calls := llm_calls w; shell_calls := shell_calls w |}).
End Oracles.

(* ================================================================== *)
(** * Run results, shared by both generations *)
(* ================================================================== *)

(** One element of the result list: the dictionary [Worker.execute]
    returns, or the marker of a task that was not executed. *)
Inductive entry : Type :=
| ExecutionResult (task_id : string) (description : string)
                  (result : pydict) (time : Q)
| SkippedMarker (task : string).

(** The dictionary an [entry] stands for. *)
Definition entry_dict (e : entry) : pydict :=
  match e with
  | ExecutionResult i d r t =>
      [("task_id", PStr i); ("description", PStr d);
       ("result", PDict r); ("time", PNum t)]
  | SkippedMarker d => [("task", PStr d); ("skipped", PBool true)]
  end.

(** The description an [entry] records. *)
Definition entry_description (e : entry) : string :=
  match e with
  | ExecutionResult _ d _ _ => d
  | SkippedMarker d => d
  end.

(** The identifier of the task an [entry] records, when it has one. *)
Definition entry_task_id (e : entry) : option string :=
  match e with
  | ExecutionResult i _ _ _ => Some i
  | SkippedMarker _ => None
  end.

Definition is_skipped (e : entry) : bool :=
  match e with SkippedMarker _ => true | ExecutionResult _ _ _ _ => false end.

(* ================================================================== *)
(** * Generation 1: [alan_app/alan_core_engine.py] *)
(* ================================================================== *)

Module Engine.

Module MemoryItem.
Record t : Type := {
  id : string;
  timestamp : Q;
  kind : string;
  content : pyval;
  score : Q
}.
End MemoryItem.

Module Task.
Record t : Type := {
  id : string;
  description : string;
  depth : nat;
  metadata : pydict
}.
End Task.

(** [class Memory]. *)
Record Memory : Type := {
  short_term : list MemoryItem.t;
  long_term : list (string * MemoryItem.t)
}.

(** [Memory.__init__]. *)
Definition Memory_init : Memory := {| short_term := []; long_term := [] |}.

Record State : Type := { world : World; memory : Memory }.

(** The observation log of a run: which branch each iteration of the
    loop took.  It is not program state; [CallExecute] is logged exactly
    where the source calls [self.worker.execute(task)]. *)
Inductive event : Type :=
| CallExecute (task : Task.t) (depth : nat)
| Skip (task : Task.t) (depth : nat).

(** The variables of the [while] loop of [AlanCore.process]. *)
Record Loop : Type := {
  frontier : list (Task.t * nat);
  results : list entry;
  log : list event;
  state : State
}.

Section WithEnv.
Variable E : Env.

(** ** Memory *)

(** [Memory.write]. *)
Definition write (kind : string) (content : pyval) (is_long_term : bool)
           (s : State) : MemoryItem.t * State :=
  let (u, w1) := fresh_uuid E (world s) in
  let (ts, w2) := now_ts E w1 in
  let item := {| MemoryItem.id := u; MemoryItem.timestamp := ts;
                 MemoryItem.kind := kind; MemoryItem.content := content;
                 MemoryItem.score := 1%Q |} in
  let m := memory s in
  if is_long_term then
    (item, {| world := w2;
              memory := {| short_term := short_term m;
                           long_term := dict_set u item (long_term m) |} |})
  else
    let appended := short_term m ++ [item] in
    let bounded := if (100 <? length appended)%nat
                   then pop0 appended else appended in
    (item, {| world := w2;
              memory := {| short_term := bounded;
                           long_term := long_term m |} |}).

(** The inner function [score] of [Memory.retrieve]; [now] is what its
    call of [now_ts()] returns.  Each of its six float operations
    rounds; [max] does not. *)
Definition score (query : string) (now : Q) (item : MemoryItem.t) : Q :=
  let s := 0%Q in
  let text := lower (str E (MemoryItem.content item)) in
  let s := if contains (lower query) text then fround E (s + 10)%Q else s in
  let s :=
    fround E
      (s + Qmax 0
             (fround E
                (1 - fround E
                       (fround E (now - MemoryItem.timestamp item) / 3600))))%Q in
  let s := fround E (s + MemoryItem.score item)%Q in
  s.

(** [list.sort] computes the key of every element once, in list order:
    the [i]-th call of [score] reads the clock for the [n + i]-th time. *)
Fixpoint keyed (query : string) (n : nat) (l : list MemoryItem.t)
  : list (Q * MemoryItem.t) :=
  match l with
  | [] => []
  | item :: l' => (score query (clock E n) item, item) :: keyed query (S n) l'
  end.

(** [sort(key=..., reverse=True)]: descending and stable.  An element
    is placed before the first one whose key is not greater than its
    own. *)
Fixpoint insert_desc {A : Type} (x : Q * A) (l : list (Q * A))
  : list (Q * A) :=
  match l with
  | [] => [x]
  | y :: l' =>
      if Qle_bool (fst y) (fst x) then x :: y :: l'
      else y :: insert_desc x l'
  end.

Fixpoint sort_desc {A : Type} (l : list (Q * A)) : list (Q * A) :=
  match l with
  | [] => []
  | x :: l' => insert_desc x (sort_desc l')
  end.

(** [Memory.retrieve]. *)
Definition retrieve (query : string) (limit : Z) (s : State)
  : list MemoryItem.t * State :=
  let m := memory s in
  let w := world s in
  let candidates := short_term m ++ dict_values (long_term m) in
  let sorted := sort_desc (keyed query (clock_calls w) candidates) in
  (slice_to limit (map snd sorted),
   {| world := {| uuid_calls := uuid_calls w;
                  clock_calls := clock_calls w + length candidates;
                  llm_calls := llm_calls w;
                  shell_calls := shell_calls w |};
      memory := m |}).

(** ** Input *)

(** [InputProcessor._detect_intent]. *)
Definition _detect_intent (text : string) : string :=
  let t := lower text in
  if startswith "create" t || startswith "build" t then "create"
  else if startswith "fix" t || startswith "debug" t then "debug"
  else if endswith "?" t then "query"
  else "general".

(** [InputProcessor.preprocess]. *)
Definition preprocess (raw : string) : pydict :=
  let text := strip raw in
  let intent := _detect_intent text in
  let tokens := split text in
  [("raw", PStr raw); ("text", PStr text); ("intent", PStr intent);
   ("tokens", PList (map PStr tokens))].

(** ** Planner *)

(** [Task(id=str(uuid.uuid4()), description=..., depth=...)]. *)
Definition new_task (description : string) (depth : nat) (w : World)
  : Task.t * World :=
  let (u, w') := fresh_uuid E w in
  ({| Task.id := u; Task.description := description;
      Task.depth := depth; Task.metadata := [] |}, w').

(** [Planner.decompose]. *)
Definition decompose (task : Task.t) (w : World) : list Task.t * World :=
  let desc := lower (Task.description task) in
  if contains "create" desc || contains "build" desc then
    let (t1, w) := new_task "scaffold project structure" 1 w in
    let (t2, w) := new_task "create core modules" 1 w in
    let (t3, w) := new_task "write basic tests" 1 w in
    ([t1; t2; t3], w)
  else if contains "debug" desc || contains "fix" desc then
    let (t1, w) := new_task "reproduce issue" 1 w in
    let (t2, w) := new_task "apply fix" 1 w in
    let (t3, w) := new_task "write regression test" 1 w in
    ([t1; t2; t3], w)
  else
    let (t1, w) := new_task "analyze" 1 w in
    let (t2, w) := new_task "respond" 1 w in
    ([t1; t2], w).

(** [Planner.plan]. *)
Definition plan (processed_input : pydict) (w : World)
  : list Task.t * World :=
  let intent := dict_get_default "intent" (PStr "general") processed_input in
  let text := dict_get_default "text" (PStr "") processed_input in
  let (root, w) :=
    new_task ("Handle intent=" ++ str E intent ++ ": " ++ str E text)%string
             0 w in
  decompose root w.

(** ** Worker *)

(** The dispatch table of [Worker.execute]. *)
Definition dispatch (description : string) : pydict :=
  if contains "scaffold" description then
    [("files", PList [PStr "README.md"; PStr "src/"; PStr "alan_core/"])]
  else if contains "core modules" description then
    [("modules",
      PList [PStr "planner"; PStr "worker"; PStr "memory"; PStr "io"])]
  else if contains "tests" description then
    [("tests", PList [PStr "test_basic_flow.py"])]
  else if contains "reproduce" description then
    [("status", PStr "reproduced sample input")]
  else if contains "apply fix" description then
    [("status", PStr "fix applied")]
  else if contains "analyze" description then
    [("analysis", PStr "short analysis summary")]
  else if contains "respond" description then
    [("response", PStr "Here's a helpful answer.")]
  else
    [("echo", PStr description)].

(** [Worker.execute]. *)
Definition execute (task : Task.t) (s : State) : entry * State :=
  let (t0, w1) := now_ts E (world s) in
  let result := dispatch (Task.description task) in
  let (_, s2) :=
    write "task_result"
          (PDict [("task", PStr (Task.description task));
                  ("result", PDict result)])
          false {| world := w1; memory := memory s |} in
  let (t1, w3) := now_ts E (world s2) in
  (ExecutionResult (Task.id task) (Task.description task) result
                   (fround E (t1 - t0)%Q),
   {| world := w3; memory := memory s2 |}).

(** ** The planner-worker loop of [AlanCore.process] *)

(** [for s in sub: frontier.insert(0, (s, depth))]. *)
Definition insert_front (sub : list Task.t) (depth : nat)
           (frontier : list (Task.t * nat)) : list (Task.t * nat) :=
  fold_left (fun f s => (s, depth) :: f) sub frontier.

(** The condition under which an executed task spawns. *)
Definition spawns (max_depth : nat) (task : Task.t) (depth : nat) : bool :=
  contains "scaffold" (Task.description task) && (depth <? max_depth)%nat.

(** One iteration of the [while frontier:] loop; [None] when the
    frontier is empty and the loop is left. *)
Definition iteration (max_depth : nat) (l : Loop) : option Loop :=
  match frontier l with
  | [] => None
  | (task, depth) :: rest =>
      if (max_depth <? depth)%nat then
        Some {| frontier := rest;
                results := results l
                           ++ [SkippedMarker (Task.description task)];
                log := log l ++ [Skip task depth];
                state := state l |}
      else
        let (exec_result, s1) := execute task (state l) in
        let results1 := results l ++ [exec_result] in
        let log1 := log l ++ [CallExecute task depth] in
        if spawns max_depth task depth then
          let (c1, w) := new_task "create README" (depth + 1) (world s1) in
          let (c2, w) := new_task "create src folder" (depth + 1) w in
          let sub := [c1; c2] in
          Some {| frontier := insert_front sub (depth + 1) rest;
                  results := results1;
                  log := log1;
                  state := {| world := w; memory := memory s1 |} |}
        else
          Some {| frontier := rest; results := results1; log := log1;
                  state := s1 |}
  end.

(** The loop, run for at most [fuel] iterations; [None] when the
    frontier is not empty after them. *)
Fixpoint drain (max_depth : nat) (fuel : nat) (l : Loop) : option Loop :=
  match iteration max_depth l with
  | None => Some l
  | Some l' =>
      match fuel with
      | O => None
      | S fuel' => drain max_depth fuel' l'
      end
  end.

(** [AlanCore.process] up to the rendering: the loop variables when
    the loop is left, after the write of ["last_results"]. *)
Definition process_loop (max_depth : nat) (fuel : nat) (raw_input : string)
           (s : State) : option (pydict * Loop) :=
  let processed := preprocess raw_input in
  let (_, s) := write "user_input" (PDict processed) false s in
  let (tasks, w) := plan processed (world s) in
  let s := {| world := w; memory := memory s |} in
  let start := {| frontier := map (fun t => (t, 1)) tasks;
                  results := []; log := []; state := s |} in
  match drain max_depth fuel start with
  | None => None
  | Some l =>
      let (_, s') :=
        write "last_results"
              (PList (map (fun e => PDict (entry_dict e)) (results l)))
              false (state l) in
      Some (processed,
            {| frontier := frontier l; results := results l;
               log := log l; state := s' |})
  end.

(** [OutputRenderer.render] on the dictionary [process] builds. *)
Definition render (processed : pydict) (results : list entry) : string :=
  pformat E
    (PDict [("summary",
             PStr ("Processed input '"
                   ++ str E (dict_get_default "text" PNone processed)
                   ++ "'")%string);
            ("results", PList (map (fun e => PDict (entry_dict e)) results))]).

(** [AlanCore.process]. *)
Definition process (max_depth : nat) (fuel : nat) (raw_input : string)
           (s : State) : option (string * State) :=
  match process_loop max_depth fuel raw_input s with
  | None => None
  | Some (processed, l) => Some (render processed (results l), state l)
  end.
End WithEnv.

(** [AlanCore.__init__]: [self.max_depth = 2]. *)
Definition max_depth : nat := 2.

Definition init : State := {| world := world0; memory := Memory_init |}.

End Engine.

(* ================================================================== *)
(** * Generation 2: the [alan_core] package *)
(* ================================================================== *)

Module Core.

Module MemoryItem.
Record t : Type := {
  id : string;
  ts : Q;
  kind : string;
  content : pyval
}.
End MemoryItem.

Module Task.
Record t : Type := {
  id : string;
  description : string;
  depth : nat;
  priority : Z;
  metadata : pydict
}.
End Task.

(** What the memory holds for one item: the dictionary [asdict(item)]
    that [write] stores, or the [MemoryItem] object that [__init__]
    builds from the persistence file. *)
Inductive stored : Type :=
| AsDict (item : MemoryItem.t)
| AsObject (item : MemoryItem.t).

Definition stored_item (x : stored) : MemoryItem.t :=
  match x with AsDict i => i | AsObject i => i end.

(** One value of the JSON object in a persistence file: an object with
    exactly the four members of a [MemoryItem] (a string [id], a number
    [ts], a string [kind] and a [content]), or anything else. *)
Inductive json_entry : Type :=
| JItem (id : string) (ts : Q) (kind : string) (content : json)
| JOther.

(** The content of a file: a JSON object, or bytes that [json.load]
    rejects or that hold no JSON object. *)
Inductive file : Type :=
| Document (entries : list (string * json_entry))
| Malformed.

(** The files, by path. *)
Definition Disk : Type := list (string * file).

(** [class Memory]. *)
Record Memory : Type := {
  short : list stored;
  long : list (string * stored);
  long_term_path : string
}.

Record State : Type := { world : World; memory : Memory; disk : Disk }.

Inductive event : Type :=
| CallExecute (task : Task.t) (depth : nat)
| Skip (task : Task.t) (depth : nat).

(** The variables of the [while] loop of [HRM.run]. *)
Record Loop : Type := {
  frontier : list (Task.t * nat);
  results : list entry;
  log : list event;
  state : State
}.

(** How an iteration ends: with the loop variables [l] for the next
    one, or with an exception [e] that nothing in [run] catches; [l] is
    then what the variables held when [e] was raised. *)
Inductive progress : Type :=
| Next (l : Loop)
| Raised (e : exn) (l : Loop).

(** ** Persistence *)

(** The dictionary [json.load] builds from the members of an object:
    a repeated name keeps its first place and its last value. *)
Definition json_object (entries : list (string * json_entry))
  : list (string * json_entry) :=
  fold_left (fun d kv => dict_set (fst kv) (snd kv) d) entries [].

(** The loop [for k,v in data.items()] that stores under [k] the
    [MemoryItem] built from the members of [v], as [json.load] read
    them; the constructor raises on a value that is not the four
    members, the exception is swallowed and the items loaded before it
    stay. *)
Fixpoint load_items (data : list (string * json_entry))
         (long : list (string * stored)) : list (string * stored) :=
  match data with
  | [] => long
  | (k, JItem id ts kind content) :: data' =>
      let item := {| MemoryItem.id := id; MemoryItem.ts := ts;
                     MemoryItem.kind := kind;
                     MemoryItem.content := py_of content |} in
      load_items data' (dict_set k (AsObject item) long)
  | (_, JOther) :: _ => long
  end.

(** [Memory.__init__]. *)
Definition Memory_init (path : string) (d : Disk) : Memory :=
  let loaded :=
    match dict_get path d with
    | None => []
    | Some Malformed => []
    | Some (Document entries) => load_items (json_object entries) []
    end in
  {| short := []; long := loaded; long_term_path := path |}.

(** [json.dump(self.long, fp, indent=2)]: the document, or the
    [TypeError] of the first value the encoder does not know, a
    [MemoryItem] object or something in the content of a dictionary. *)
Fixpoint json_dump (long : list (string * stored))
  : outcome (list (string * json_entry)) :=
  match long with
  | [] => Ok []
  | (k, AsDict item) :: long' =>
      match json_of (MemoryItem.content item) with
      | Raise e => Raise e
      | Ok content =>
          match json_dump long' with
          | Ok doc =>
              Ok ((k, JItem (MemoryItem.id item) (MemoryItem.ts item)
                            (MemoryItem.kind item) content) :: doc)
          | Raise e => Raise e
          end
      end
  | (_, AsObject _) :: _ => Raise (not_serializable "MemoryItem")
  end.

(** [Memory._flush]: [open(path, "w")] empties the file before
    [json.dump] writes; when [json.dump] raises, the exception is
    swallowed and the file keeps the incomplete text. *)
Definition _flush (m : Memory) (d : Disk) : Disk :=
  match json_dump (long m) with
  | Ok doc => dict_set (long_term_path m) (Document doc) d
  | Raise _ => dict_set (long_term_path m) Malformed d
  end.

Definition AttributeError_get : exn :=
  {| exn_class := "AttributeError";
     exn_msg := "'MemoryItem' object has no attribute 'get'" |}.

Section WithEnv.
Variable E : Env.

(** ** Memory *)

(** [Memory.write]; [asdict(item)] holds a deep copy of the content,
    which is the content again. *)
Definition write (kind : string) (content : pyval) (is_long_term : bool)
           (s : State) : MemoryItem.t * State :=
  let (u, w1) := fresh_uuid E (world s) in
  let (now, w2) := now_ts E w1 in
  let item := {| MemoryItem.id := u; MemoryItem.ts := now;
                 MemoryItem.kind := kind; MemoryItem.content := content |} in
  let m := memory s in
  if is_long_term then
    let m' := {| short := short m;
                 long := dict_set (MemoryItem.id item) (AsDict item) (long m);
                 long_term_path := long_term_path m |} in
    (item, {| world := w2; memory := m'; disk := _flush m' (disk s) |})
  else
    let appended := short m ++ [AsDict item] in
    let bounded := if (200 <? length appended)%nat
                   then pop0 appended else appended in
    (item, {| world := w2;
              memory := {| short := bounded; long := long m;
                           long_term_path := long_term_path m |};
              disk := disk s |}).

(** The [for i in pool] loop of [Memory.retrieve]: [i.get] exists on
    a dictionary and raises [AttributeError] on a [MemoryItem]. *)
Fixpoint scan (q : string) (pool : list stored) (results : list stored)
  : outcome (list stored) :=
  match pool with
  | [] => Ok results
  | AsDict i :: pool' =>
      if contains q (lower (str E (MemoryItem.content i)))
         || contains q (MemoryItem.kind i)
      then scan q pool' (results ++ [AsDict i])
      else scan q pool' results
  | AsObject _ :: _ => Raise AttributeError_get
  end.

(** [Memory.retrieve]; [q = None] is the default argument. *)
Definition retrieve (q : option string) (limit : Z) (m : Memory)
  : outcome (list stored) :=
  let pool := short m ++ dict_values (long m) in
  let found :=
    match q with
    | None => Ok pool
    | Some q' =>
        if String.eqb q' "" then Ok pool
        else scan (lower q') pool []
    end in
  match found with
  | Ok results => Ok (slice_to limit results)
  | Raise e => Raise e
  end.

(** ** Planner *)

(** [Task(id=str(uuid.uuid4()), description=..., depth=..., priority=...)]. *)
Definition new_task (description : string) (depth : nat) (priority : Z)
           (w : World) : Task.t * World :=
  let (u, w') := fresh_uuid E w in
  ({| Task.id := u; Task.description := description; Task.depth := depth;
      Task.priority := priority; Task.metadata := [] |}, w').

(** [Planner.decompose]. *)
Definition decompose (task : Task.t) (w : World) : list Task.t * World :=
  let desc := lower (Task.description task) in
  if contains "create" desc || contains "build" desc then
    let (t1, w) := new_task "scaffold project" 1 2 w in
    let (t2, w) := new_task "create core modules" 1 3 w in
    let (t3, w) := new_task "write tests" 1 4 w in
    ([t1; t2; t3], w)
  else if contains "debug" desc || contains "fix" desc then
    let (t1, w) := new_task "collect logs" 1 2 w in
    let (t2, w) := new_task "reproduce" 1 3 w in
    let (t3, w) := new_task "apply fix" 1 4 w in
    ([t1; t2; t3], w)
  else
    let (t1, w) := new_task "analyze" 1 5 w in
    ([t1], w).

(** [Planner.plan]. *)
Definition plan (processed_input : pydict) (w : World)
  : list Task.t * World :=
  let intent := dict_get_default "intent" (PStr "general") processed_input in
  let text := dict_get_default "text" (PStr "") processed_input in
  let (root, w) :=
    new_task (str E intent ++ ": " ++ str E text)%string 0 1 w in
  decompose root w.

(** ** Worker *)

(** [Worker.run_shell]. *)
Definition run_shell (cmd : string) (w : World) : pydict * World :=
  let w' := {| uuid_calls := uuid_calls w; clock_calls := clock_calls w;
               llm_calls := llm_calls w; shell_calls := S (shell_calls w) |} in
  match check_output E (shell_calls w) cmd with
  | Raise e => ([("error", PStr (str_exn e))], w')
  | Ok out =>
      match decode_utf8 E out with
      | Raise e => ([("error", PStr (str_exn e))], w')
      | Ok text => ([("stdout", PStr text)], w')
      end
  end.

(** The [if]/[elif] chain of [Worker.execute], and its [else] branch:
    the hook when there is one, the echo otherwise. *)
Definition dispatch (description : string) (w : World)
  : outcome pydict * World :=
  let desc := lower description in
  if contains "scaffold" desc || contains "scaffold project" desc then
    (Ok [("files", PList [PStr "README.md"; PStr "src/"; PStr "alan_core/"])],
     w)
  else if contains "create core modules" desc || contains "core modules" desc
  then
    (Ok [("modules",
          PList [PStr "planner"; PStr "worker"; PStr "memory"; PStr "io"])],
     w)
  else if contains "write tests" desc then
    (Ok [("tests", PList [PStr "test_basic_flow.py"])], w)
  else if contains "collect logs" desc then
    (Ok [("logs", PStr "no logs (simulated)")], w)
  else if contains "reproduce" desc then
    (Ok [("reproduce", PBool true)], w)
  else if contains "apply fix" desc then
    (Ok [("fixed", PBool true)], w)
  else
    match llm_call E with
    | Some hook =>
        let w' := {| uuid_calls := uuid_calls w;
                     clock_calls := clock_calls w;
                     llm_calls := S (llm_calls w);
                     shell_calls := shell_calls w |} in
        match hook (llm_calls w) description with
        | Ok answer => (Ok [("llm", answer)], w')
        | Raise e => (Raise e, w')
        end
    | None => (Ok [("echo", PStr description)], w)
    end.

(** [Worker.execute]: nothing catches what the hook raises. *)
Definition execute (task : Task.t) (s : State) : outcome entry * State :=
  let (t0, w1) := now_ts E (world s) in
  match dispatch (Task.description task) w1 with
  | (Raise e, w2) =>
      (Raise e, {| world := w2; memory := memory s; disk := disk s |})
  | (Ok result, w2) =>
      let (_, s3) :=
        write "task_result"
              (PDict [("task", PStr (Task.description task));
                      ("result", PDict result)])
              false {| world := w2; memory := memory s; disk := disk s |} in
      let (t1, w4) := now_ts E (world s3) in
      (Ok (ExecutionResult (Task.id task) (Task.description task) result
                           (fround E (t1 - t0)%Q)),
       {| world := w4; memory := memory s3; disk := disk s3 |})
  end.

(** ** The loop of [HRM.run] *)

(** [res.get("result",{}).get("fixed")], as a condition. *)
Definition signals_fixed (res : entry) : bool :=
  match dict_get_default "result" (PDict []) (entry_dict res) with
  | PDict result =>
      match dict_get "fixed" result with
      | Some v => truthy v
      | None => false
      end
  | _ => false
  end.

(** [type(task)(id="verify-"+task.id, description="verify fix", depth=depth+1)]:
    the other fields take the defaults of the dataclass. *)
Definition verify_task (task : Task.t) (depth : nat) : Task.t :=
  {| Task.id := ("verify-" ++ Task.id task)%string;
     Task.description := "verify fix";
     Task.depth := depth + 1;
     Task.priority := 5;
     Task.metadata := [] |}.

(** One iteration of the [while frontier:] loop; [None] when the
    frontier is empty and the loop is left. *)
Definition iteration (max_depth : nat) (l : Loop) : option progress :=
  match frontier l with
  | [] => None
  | (task, depth) :: rest =>
      if (max_depth <? depth)%nat then
        Some (Next {| frontier := rest;
                      results := results l
                                 ++ [SkippedMarker (Task.description task)];
                      log := log l ++ [Skip task depth];
                      state := state l |})
      else
        let log1 := log l ++ [CallExecute task depth] in
        match execute task (state l) with
        | (Raise e, s1) =>
            Some (Raised e {| frontier := rest; results := results l;
                              log := log1; state := s1 |})
        | (Ok res, s1) =>
            let results1 := results l ++ [res] in
            if signals_fixed res then
              let v := verify_task task depth in
              Some (Next {| frontier := (v, depth + 1) :: rest;
                            results := results1; log := log1; state := s1 |})
            else
              Some (Next {| frontier := rest; results := results1;
                            log := log1; state := s1 |})
        end
  end.

(** The loop, run for at most [fuel] iterations: [Some (Next l)] when
    it is left with an empty frontier, [Some (Raised e l)] when [e]
    leaves it, [None] when the frontier is not empty after [fuel]
    iterations. *)
Fixpoint drain (max_depth : nat) (fuel : nat) (l : Loop)
  : option progress :=
  match iteration max_depth l with
  | None => Some (Next l)
  | Some (Raised e l') => Some (Raised e l')
  | Some (Next l') =>
      match fuel with
      | O => None
      | S fuel' => drain max_depth fuel' l'
      end
  end.

(** [HRM.run]: the result list and the state it leaves, or the
    exception that leaves it. *)
Definition run (max_depth : nat) (fuel : nat) (processed_input : pydict)
           (s : State) : option (outcome (list entry * State)) :=
  let (tasks, w) := plan processed_input (world s) in
  let s := {| world := w; memory := memory s; disk := disk s |} in
  let start := {| frontier := map (fun t => (t, 1)) tasks;
                  results := []; log := []; state := s |} in
  match drain max_depth fuel start with
  | None => None
  | Some (Raised e _) => Some (Raise e)
  | Some (Next l) =>
      let (_, s') :=
        write "last_results"
              (PList (map (fun e => PDict (entry_dict e)) (results l)))
              false (state l) in
      Some (Ok (results l, s'))
  end.
End WithEnv.

(** [HRM.__init__]: [self.max_depth = 3]. *)
Definition max_depth : nat := 3.

(** [HRM.__init__]: the memory is [Memory()], over ["alan_memory.json"]. *)
Definition init (d : Disk) : State :=
  {| world := world0; memory := Memory_init "alan_memory.json" d; disk := d |}.

End Core.

(* ================================================================== *)
(** * Call sequences and a sample environment *)
(* ================================================================== *)

Module Calls.

(** [memory.write(kind, content, long_term)] for every [(kind, content)]
    of [calls], in order; the items returned and the final state. *)
Fixpoint engine_writes (E : Env) (is_long_term : bool)
         (calls : list (string * pyval)) (s : Engine.State)
  : list Engine.MemoryItem.t * Engine.State :=
  match calls with
  | [] => ([], s)
  | (kind, content) :: calls' =>
      let (item, s1) := Engine.write E kind content is_long_term s in
      let (items, s2) := engine_writes E is_long_term calls' s1 in
      (item :: items, s2)
  end.

Fixpoint core_writes (E : Env) (is_long_term : bool)
         (calls : list (string * pyval)) (s : Core.State)
  : list Core.MemoryItem.t * Core.State :=
  match calls with
  | [] => ([], s)
  | (kind, content) :: calls' =>
      let (item, s1) := Core.write E kind content is_long_term s in
      let (items, s2) := core_writes E is_long_term calls' s1 in
      (item :: items, s2)
  end.

End Calls.

Module Sample.

(** ["id-0"], ["id-1"], ...: identifiers that never repeat. *)
Definition sample_uuid (n : nat) : string :=
  ("id-" ++ NilEmpty.string_of_uint (Nat.to_uint n))%string.

(** The clock advances by one second per reading. *)
Definition sample_clock (n : nat) : Q := inject_Z (Z.of_nat n).

Definition boom : exn :=
  {| exn_class := "RuntimeError"; exn_msg := "model unavailable" |}.

(** No hook, a shell whose commands succeed without output. *)
Definition env : Env :=
  {| uuid4 := sample_uuid;
     clock := sample_clock;
     fround := fun x => x;
     repr := fun _ => "";
     pformat := fun _ => "";
     llm_call := None;
     check_output := fun _ _ => Ok "";
     decode_utf8 := fun s => Ok s |}.

(** The same with a hook that raises on every call. *)
Definition env_raising_hook : Env :=
  {| uuid4 := sample_uuid;
     clock := sample_clock;
     fround := fun x => x;
     repr := fun _ => "";
     pformat := fun _ => "";
     llm_call := Some (fun _ _ => Raise boom);
     check_output := fun _ _ => Ok "";
     decode_utf8 := fun s => Ok s |}.

(** The same with a hook that answers, and a shell that times out. *)
Definition env_answering_hook : Env :=
  {| uuid4 := sample_uuid;
     clock := sample_clock;
     fround := fun x => x;
     repr := fun _ => "";
     pformat := fun _ => "";
     llm_call := Some (fun _ d => Ok (PStr d));
     check_output :=
       fun _ _ => Raise {| exn_class := "TimeoutExpired";
                           exn_msg := "timed out after 10 seconds" |};
     decode_utf8 := fun s => Ok s |}.

(** A request to repair something, as the HTTP wrapper would pass it. *)
Definition repair_request : pydict :=
  [("text", PStr "please fix the parser"); ("intent", PStr "general");
   ("tokens", PList [PStr "please"; PStr "fix"; PStr "the"; PStr "parser"])].

(** A question. *)
Definition status_request : pydict :=
  [("text", PStr "What's the status?"); ("intent", PStr "query");
   ("tokens", PList [PStr "What's"; PStr "the"; PStr "status?"])].

(** The loop variables of [HRM.run] when its loop is entered. *)
Definition core_start (E : Env) (processed_input : pydict) : Core.Loop :=
  let (tasks, w) := Core.plan E processed_input world0 in
  {| Core.frontier := map (fun t => (t, 1)) tasks;
     Core.results := [];
     Core.log := [];
     Core.state := {| Core.world := w;
                      Core.memory := Core.memory (Core.init []);
                      Core.disk := [] |} |}.

(** Tasks of the engine: one that spawns, one that does not. *)
Definition scaffold_task : Engine.Task.t :=
  {| Engine.Task.id := "a"; Engine.Task.description := "scaffold it";
     Engine.Task.depth := 1; Engine.Task.metadata := [] |}.

Definition respond_task : Engine.Task.t :=
  {| Engine.Task.id := "b"; Engine.Task.description := "respond";
     Engine.Task.depth := 1; Engine.Task.metadata := [] |}.

(** A frontier of the engine: a task that spawns, and one behind it. *)
Definition engine_queue : Engine.Loop :=
  {| Engine.frontier := [(scaffold_task, 1); (respond_task, 1)];
     Engine.results := [];
     Engine.log := [];
     Engine.state := Engine.init |}.

(** Tasks of [alan_core]: one that gets fixed, one that does not. *)
Definition fix_task : Core.Task.t :=
  {| Core.Task.id := "a"; Core.Task.description := "apply fix";
     Core.Task.depth := 1; Core.Task.priority := 4;
     Core.Task.metadata := [] |}.

Definition logs_task : Core.Task.t :=
  {| Core.Task.id := "b"; Core.Task.description := "collect logs";
     Core.Task.depth := 1; Core.Task.priority := 2;
     Core.Task.metadata := [] |}.

(** A frontier of [HRM.run]: a task that gets fixed, and one behind it. *)
Definition core_queue : Core.Loop :=
  {| Core.frontier := [(fix_task, 1); (logs_task, 1)];
     Core.results := [];
     Core.log := [];
     Core.state := Core.init [] |}.

(** An item a former process saved, and the disk that holds its file. *)
Definition saved_item : Core.MemoryItem.t :=
  {| Core.MemoryItem.id := "k1"; Core.MemoryItem.ts := 0%Q;
     Core.MemoryItem.kind := "note";
     Core.MemoryItem.content := PStr "remember the milk" |}.

Definition saved_disk : Core.Disk :=
  [("alan_memory.json",
    Core.Document [("k1", Core.JItem "k1" 0%Q "note"
                                     (JString "remember the milk"))])].

(** Two notes written to the short-term memory of each generation. *)
Definition notes : list (string * pyval) :=
  [("note", PStr "alpha particles"); ("note", PStr "Beta blockers")].

Definition engine_notes : Engine.State :=
  snd (Calls.engine_writes env false notes Engine.init).

Definition core_notes : Core.State :=
  snd (Calls.core_writes env false notes (Core.init [])).

End Sample.


(* ================================================================== *)
(** * The callers: [alan_core/runtime.py] and [alan_app/backend/app.py] *)
(* ================================================================== *)

Module Runtime.

Definition EOFError : exn :=
  {| exn_class := "EOFError"; exn_msg := "EOF when reading a line" |}.

(** [raw.lower() in ("exit","quit")]. *)
Definition is_exit (raw : string) : bool :=
  let r := lower raw in String.eqb r "exit" || String.eqb r "quit".

Definition banner : string := "Alan REPL — type 'exit' to quit".

(** The [while True] loop of [repl]: [lines] is what is left of the
    standard input, [out] what was written to the standard output so
    far ([input] writes its prompt, [print] its argument).  [input]
    raises [EOFError] when no line is left.  [core.process] is given
    the five iterations its loop can take. *)
Fixpoint repl_loop (E : Env) (max_depth : nat) (lines : list string)
         (s : Engine.State) (out : list string)
  : option (outcome unit * list string * Engine.State) :=
  match lines with
  | [] => Some (Raise EOFError, out ++ [">> "], s)
  | line :: lines' =>
      let raw := strip line in
      if is_exit raw then Some (Ok tt, out ++ [">> "], s)
      else
        match Engine.process E max_depth 5 raw s with
        | None => None
        | Some (text, s') =>
            repl_loop E max_depth lines' s' (out ++ [">> "; text])
        end
  end.

(** [repl]. *)
Definition repl (E : Env) (max_depth : nat) (lines : list string)
           (s : Engine.State)
  : option (outcome unit * list string * Engine.State) :=
  repl_loop E max_depth lines s [banner].

(** [run_once]. *)
Definition run_once (E : Env) (max_depth : nat) (text : string)
           (s : Engine.State) : option (list string * Engine.State) :=
  match Engine.process E max_depth 5 text s with
  | None => None
  | Some (out, s') => Some ([out], s')
  end.

End Runtime.

Module Backend.

Definition AttributeError (type attribute : string) : exn :=
  {| exn_class := "AttributeError";
     exn_msg := ("'" ++ type ++ "' object has no attribute '" ++ attribute
                 ++ "'")%string |}.

(** [type(v).__name__]. *)
Definition type_name (v : pyval) : string :=
  match v with
  | PNone => "NoneType"
  | PBool _ => "bool"
  | PNum _ => "float"
  | PInt _ => "int"
  | PStr _ => "str"
  | PList _ => "list"
  | PDict _ => "dict"
  | PTuple _ => "tuple"
  | POther name _ => name
  end.

(** [hrm = HRM()]: the [HRM] of the module has no hook. *)
Definition without_hook (E : Env) : Env :=
  {| uuid4 := uuid4 E;
     clock := clock E;
     fround := fround E;
     repr := repr E;
     pformat := pformat E;
     llm_call := None;
     check_output := check_output E;
     decode_utf8 := decode_utf8 E |}.

(** The state in which [hrm.run] leaves the module's [HRM] when an
    exception leaves it: what the executed tasks wrote stays written. *)
Definition state_at_raise (E : Env) (max_depth : nat)
           (processed_input : pydict) (s : Core.State) : Core.State :=
  let (tasks, w) := Core.plan E processed_input (Core.world s) in
  let start := {| Core.frontier := map (fun t => (t, 1)) tasks;
                  Core.results := []; Core.log := [];
                  Core.state := {| Core.world := w;
                                   Core.memory := Core.memory s;
                                   Core.disk := Core.disk s |} |} in
  match Core.drain E max_depth 4 start with
  | Some (Core.Raised _ l) => Core.state l
  | _ => s
  end.

(** [alan_endpoint] on a request that carries JSON: [body] is what
    [request.json] parsed ([PNone] for the text [null]), and [hrm] is
    the [HRM] of the module, with its state [s].  A request without
    JSON is left out: what [request.json] does with it (an error
    response, or [None]) depends on the version of Flask.
    [hrm.run] is given the four iterations its loop can take.  What is
    returned is the dictionary given to [jsonify]; without a hook the
    values in it are JSON-native. *)
Definition alan_endpoint (E : Env) (max_depth : nat) (body : pyval)
           (s : Core.State) : option (outcome pydict * Core.State) :=
  let data := if truthy body then body else PDict [] in
  match data with
  | PDict d =>
      let text := dict_get_default "text" (PStr "") d in
      match text with
      | PStr t =>
          let processed := [("text", text); ("intent", PStr "general");
                            ("tokens", PList (map PStr (split t)))] in
          match Core.run (without_hook E) max_depth 4 processed s with
          | None => None
          | Some (Raise e) =>
              Some (Raise e,
                    state_at_raise (without_hook E) max_depth processed s)
          | Some (Ok (results, s')) =>
              Some (Ok [("input", text);
                        ("results",
                         PList (map (fun e => PDict (entry_dict e)) results))],
                    s')
          end
      | _ => Some (Raise (AttributeError (type_name text) "split"), s)
      end
  | _ => Some (Raise (AttributeError (type_name data) "get"), s)
  end.

End Backend.
(* ================================================================== *)
(** * Vocabulary of the laws *)
(* ================================================================== *)

Module Laws.

(** What the iteration that logged [ev] must have appended to the result
    list, under maximum depth [D]: a call of [execute] happens at a
    depth within [D] and leaves the execution result of that task; a
    skip happens beyond [D] and leaves the marker of that task. *)
Definition engine_recorded (D : nat) (ev : Engine.event) (e : entry) : Prop :=
  match ev, e with
  | Engine.CallExecute task depth, ExecutionResult i d _ _ =>
      depth <= D /\ i = Engine.Task.id task /\ d = Engine.Task.description task
  | Engine.Skip task depth, SkippedMarker d =>
      D < depth /\ d = Engine.Task.description task
  | _, _ => False
  end.

Definition core_recorded (D : nat) (ev : Core.event) (e : entry) : Prop :=
  match ev, e with
  | Core.CallExecute task depth, ExecutionResult i d _ _ =>
      depth <= D /\ i = Core.Task.id task /\ d = Core.Task.description task
  | Core.Skip task depth, SkippedMarker d =>
      D < depth /\ d = Core.Task.description task
  | _, _ => False
  end.

(** How a loop stands with respect to its log: the results match the
    log, up to the call that raised. *)
Definition core_standing (D : nat) (p : Core.progress) : Prop :=
  match p with
  | Core.Next l => Forall2 (core_recorded D) (Core.log l) (Core.results l)
  | Core.Raised _ l =>
      exists before task depth,
        Core.log l = before ++ [Core.CallExecute task depth]
        /\ depth <= D
        /\ Forall2 (core_recorded D) before (Core.results l)
  end.

(** [x] stands at an earlier position of [l] than [y]. *)
Definition precedes {A : Type} (x y : A) (l : list A) : Prop :=
  exists i j, i < j /\ nth_error l i = Some x /\ nth_error l j = Some y.

(** The queued pair an event is about. *)
Definition engine_pair (ev : Engine.event) : Engine.Task.t * nat :=
  match ev with
  | Engine.CallExecute task depth => (task, depth)
  | Engine.Skip task depth => (task, depth)
  end.

Definition core_pair (ev : Core.event) : Core.Task.t * nat :=
  match ev with
  | Core.CallExecute task depth => (task, depth)
  | Core.Skip task depth => (task, depth)
  end.

(** The depth bound alone. *)
Definition engine_within (D : nat) (ev : Engine.event) : Prop :=
  match ev with
  | Engine.CallExecute _ depth => depth <= D
  | Engine.Skip _ depth => D < depth
  end.

Definition core_within (D : nat) (ev : Core.event) : Prop :=
  match ev with
  | Core.CallExecute _ depth => depth <= D
  | Core.Skip _ depth => D < depth
  end.

(** The iterations a queued pair can still cost: itself, and the two
    children of a task that spawns. *)
Definition engine_weight (D : nat) (p : Engine.Task.t * nat) : nat :=
  if (D <? snd p)%nat then 1
  else if Engine.spawns D (fst p) (snd p) then 3 else 1.

Definition engine_budget (D : nat) (f : list (Engine.Task.t * nat)) : nat :=
  list_sum (map (engine_weight D) f).

(** The descriptions on which the dispatch of [alan_core]'s worker
    answers [{"fixed": True}]. *)
Definition core_fixes (task : Core.Task.t) : bool :=
  let desc := lower (Core.Task.description task) in
  negb (contains "scaffold" desc || contains "scaffold project" desc)
  && negb (contains "create core modules" desc || contains "core modules" desc)
  && negb (contains "write tests" desc)
  && negb (contains "collect logs" desc)
  && negb (contains "reproduce" desc)
  && contains "apply fix" desc.

Definition core_weight (D : nat) (p : Core.Task.t * nat) : nat :=
  if (D <? snd p)%nat then 1
  else if core_fixes (fst p) then 2 else 1.

Definition core_budget (D : nat) (f : list (Core.Task.t * nat)) : nat :=
  list_sum (map (core_weight D) f).

(** The descriptions that no rule of [alan_core]'s worker matches. *)
Definition core_unmatched (description : string) : bool :=
  let desc := lower description in
  negb (contains "scaffold" desc || contains "scaffold project" desc)
  && negb (contains "create core modules" desc || contains "core modules" desc)
  && negb (contains "write tests" desc)
  && negb (contains "collect logs" desc)
  && negb (contains "reproduce" desc)
  && negb (contains "apply fix" desc).

(** How the long-term dictionary, the persistence file and a reloaded
    memory hold one written item. *)
Definition as_dict_entry (i : Core.MemoryItem.t) : string * Core.stored :=
  (Core.MemoryItem.id i, Core.AsDict i).

(** The JSON text of a value the encoder accepts. *)
Definition json_image (v : pyval) : json :=
  match json_of v with Ok j => j | Raise _ => JNull end.

Definition as_json_entry (i : Core.MemoryItem.t) : string * Core.json_entry :=
  (Core.MemoryItem.id i,
   Core.JItem (Core.MemoryItem.id i) (Core.MemoryItem.ts i)
              (Core.MemoryItem.kind i)
              (json_image (Core.MemoryItem.content i))).

Definition as_object_entry (i : Core.MemoryItem.t) : string * Core.stored :=
  (Core.MemoryItem.id i, Core.AsObject i).

Definition is_object (x : Core.stored) : Prop :=
  match x with Core.AsObject _ => True | Core.AsDict _ => False end.

Definition is_dict (x : Core.stored) : Prop :=
  match x with Core.AsDict _ => True | Core.AsObject _ => False end.

(** The order [sort(reverse=True)] leaves between neighbours: the key
    of the later element is not greater. *)
Definition key_desc {A : Type} (x y : Q * A) : Prop := (fst y <= fst x)%Q.

(** The elements whose key equals [k]. *)
Definition with_key {A : Type} (k : Q) (l : list (Q * A)) : list (Q * A) :=
  filter (fun x => Qeq_bool (fst x) k) l.

(** What the laws of the score assume of the rounding of floats: it is
    monotone, and 0, 1 and 3600 are floats. *)
Definition float_rounding (E : Env) : Prop :=
  (forall x y : Q, (x <= y)%Q -> (fround E x <= fround E y)%Q)
  /\ (fround E 0 == 0)%Q
  /\ (fround E 1 == 1)%Q
  /\ (fround E 3600 == 3600)%Q.

(** Whether the lower-cased query occurs in the lower-cased content. *)
Definition matches (E : Env) (query : string) (item : Engine.MemoryItem.t)
  : bool :=
  contains (lower query) (lower (str E (Engine.MemoryItem.content item))).

(** The keyword bonus of the score: what [s] holds after the [if]. *)
Definition bonus (E : Env) (query : string) (item : Engine.MemoryItem.t) : Q :=
  if matches E query item then fround E (0 + 10)%Q else 0%Q.

(** The recency term of the score, as the float operations give it. *)
Definition recency (E : Env) (now written : Q) : Q :=
  Qmax 0 (fround E (1 - fround E (fround E (now - written) / 3600)))%Q.

(** The contents of the candidates and the query are ASCII. *)
Definition ascii_query (E : Env) (query : string)
           (candidates : list Engine.MemoryItem.t) : Prop :=
  is_ascii query = true
  /\ Forall (fun item =>
               is_ascii (str E (Engine.MemoryItem.content item)) = true)
            candidates.

Definition core_ascii_query (E : Env) (q : string) (pool : list Core.stored)
  : Prop :=
  is_ascii q = true
  /\ Forall (fun x =>
               is_ascii (str E (Core.MemoryItem.content (Core.stored_item x)))
               = true)
            pool.

(** The strings of [l] are pairwise different. *)
Fixpoint distinct (l : list string) : bool :=
  match l with
  | [] => true
  | x :: l' => negb (existsb (String.eqb x) l') && distinct l'
  end.

(** The values JSON holds as they are: [None], booleans, floats, ints,
    strings, lists of such values and dictionaries of such values (the
    keys of a dictionary are pairwise different). *)
Fixpoint json_native (v : pyval) : bool :=
  match v with
  | PNone | PBool _ | PNum _ | PInt _ | PStr _ => true
  | PList l => forallb json_native l
  | PDict d =>
      distinct (dict_keys d)
      && forallb (fun kv : string * pyval => let (_, x) := kv in json_native x)
                 d
  | PTuple _ | POther _ _ => false
  end.

(** The encoding of one member of a dictionary. *)
Definition json_member (kv : string * pyval) : outcome (string * json) :=
  let (k, x) := kv in
  match json_of x with
  | Raise e => Raise e
  | Ok j => Ok (k, j)
  end.

(** The contents of [l] are JSON-native. *)
Definition native_items (l : list Core.MemoryItem.t) : Prop :=
  Forall (fun i => json_native (Core.MemoryItem.content i) = true) l.

(** Induction on values, through lists, tuples and dictionaries. *)
Section PyvalInduction.
Variable P : pyval -> Prop.
Hypothesis HNone : P PNone.
Hypothesis HBool : forall b, P (PBool b).
Hypothesis HNum : forall q, P (PNum q).
Hypothesis HStr : forall s, P (PStr s).
Hypothesis HList : forall l, Forall P l -> P (PList l).
Hypothesis HDict : forall d, Forall (fun kv => P (snd kv)) d -> P (PDict d).
Hypothesis HTuple : forall l, Forall P l -> P (PTuple l).
Hypothesis HOther : forall name truth, P (POther name truth).
Hypothesis HInt : forall z, P (PInt z).

Fixpoint pyval_induction (v : pyval) : P v :=
  match v with
  | PNone => HNone
  | PBool b => HBool b
  | PNum q => HNum q
  | PStr s => HStr s
  | PList l =>
      HList l
        ((fix go (l : list pyval) : Forall P l :=
            match l with
            | [] => Forall_nil P
            | x :: l' => Forall_cons x (pyval_induction x) (go l')
            end) l)
  | PDict d =>
      HDict d
        ((fix go (d : list (string * pyval))
            : Forall (fun kv => P (snd kv)) d :=
            match d with
            | [] => Forall_nil _
            | (k, x) :: d' =>
                Forall_cons (P := fun kv => P (snd kv)) (k, x)
                            (pyval_induction x) (go d')
            end) d)
  | PTuple l =>
      HTuple l
        ((fix go (l : list pyval) : Forall P l :=
            match l with
            | [] => Forall_nil P
            | x :: l' => Forall_cons x (pyval_induction x) (go l')
            end) l)
  | POther name truth => HOther name truth
  | PInt z => HInt z
  end.
End PyvalInduction.

(** [core.process] on every line of [lines] in turn, stripped: the
    texts it returns and the state the last call leaves; [None] when a
    loop is not left within its iterations. *)
Fixpoint session (E : Env) (max_depth : nat) (lines : list string)
         (s : Engine.State) : option (list string * Engine.State) :=
  match lines with
  | [] => Some ([], s)
  | line :: lines' =>
      match Engine.process E max_depth 5 (strip line) s with
      | None => None
      | Some (text, s1) =>
          match session E max_depth lines' s1 with
          | None => None
          | Some (texts, s2) => Some (text :: texts, s2)
          end
      end
  end.

(** What stands on the standard output when [repl] is left after it
    printed [texts]: the banner, a prompt and a text for every line it
    processed, and the prompt of the read that ended it. *)
Definition transcript (texts : list string) : list string :=
  Runtime.banner :: flat_map (fun text => [">> "; text]) texts ++ [">> "].

(** The hook, when there is one, answers every call. *)
Definition hook_never_raises (E : Env) : Prop :=
  match llm_call E with
  | None => True
  | Some hook => forall n d, exists answer, hook n d = Ok answer
  end.

(** What an entry shows of its task: the description, and whether the
    task was skipped. *)
Definition entry_view (e : entry) : string * bool :=
  (entry_description e, is_skipped e).

Definition engine_queued (p : Engine.Task.t * nat) : string * nat :=
  (Engine.Task.description (fst p), snd p).

Definition core_queued (p : Core.Task.t * nat) : string * nat :=
  (Core.Task.description (fst p), snd p).

(** The loop of [AlanCore.process] on descriptions and depths alone:
    the views of the entries it appends, [None] when the fuel runs out. *)
Fixpoint engine_outline (D fuel : nat) (frontier : list (string * nat))
  : option (list (string * bool)) :=
  match frontier with
  | [] => Some []
  | (description, depth) :: rest =>
      match fuel with
      | O => None
      | S fuel' =>
          if (D <? depth)%nat then
            option_map (cons (description, true)) (engine_outline D fuel' rest)
          else if contains "scaffold" description && (depth <? D)%nat then
            option_map (cons (description, false))
                       (engine_outline D fuel'
                          (("create src folder", depth + 1)
                             :: ("create README", depth + 1) :: rest))
          else
            option_map (cons (description, false)) (engine_outline D fuel' rest)
      end
  end.

(** [core_fixes] on the description alone. *)
Definition core_fixing (description : string) : bool :=
  let desc := lower description in
  negb (contains "scaffold" desc || contains "scaffold project" desc)
  && negb (contains "create core modules" desc || contains "core modules" desc)
  && negb (contains "write tests" desc)
  && negb (contains "collect logs" desc)
  && negb (contains "reproduce" desc)
  && contains "apply fix" desc.

(** The same for [HRM.run], as long as no exception is raised. *)
Fixpoint core_outline (D fuel : nat) (frontier : list (string * nat))
  : option (list (string * bool)) :=
  match frontier with
  | [] => Some []
  | (description, depth) :: rest =>
      match fuel with
      | O => None
      | S fuel' =>
          if (D <? depth)%nat then
            option_map (cons (description, true)) (core_outline D fuel' rest)
          else if core_fixing description then
            option_map (cons (description, false))
                       (core_outline D fuel' (("verify fix", depth + 1) :: rest))
          else
            option_map (cons (description, false)) (core_outline D fuel' rest)
      end
  end.

(** What a run may do to the memory of the engine: the long-term
    partition is as it was, and the short-term one is within its bound
    if it was. *)
Definition engine_kept (s s' : Engine.State) : Prop :=
  Engine.long_term (Engine.memory s') = Engine.long_term (Engine.memory s)
  /\ (length (Engine.short_term (Engine.memory s)) <= 100 ->
      length (Engine.short_term (Engine.memory s')) <= 100).

(** The same for [alan_core], with the persistence file. *)
Definition core_kept (s s' : Core.State) : Prop :=
  Core.long (Core.memory s') = Core.long (Core.memory s)
  /\ Core.long_term_path (Core.memory s') = Core.long_term_path (Core.memory s)
  /\ Core.disk s' = Core.disk s
  /\ (length (Core.short (Core.memory s)) <= 200 ->
      length (Core.short (Core.memory s')) <= 200).

(** The loop variables in which an iteration or a run of [HRM.run]
    ends. *)
Definition core_last (p : Core.progress) : Core.Loop :=
  match p with Core.Next l => l | Core.Raised _ l => l end.

End Laws.

(* ================================================================== *)
(** * Planner: the decomposition *)
(* ================================================================== *)

Section PlannerFacts.
Variable E : Env.

Lemma engine_decompose_cases (task : Engine.Task.t) (w : World) :
  let descs := map Engine.Task.description (fst (Engine.decompose E task w)) in
  descs = ["scaffold project structure"; "create core modules";
           "write basic tests"]
  \/ descs = ["reproduce issue"; "apply fix"; "write regression test"]
  \/ descs = ["analyze"; "respond"].
Proof.
  unfold Engine.decompose.
  destruct (contains "create" _ || contains "build" _); [left; reflexivity|].
  destruct (contains "debug" _ || contains "fix" _); [right; left; reflexivity|].
  right; right; reflexivity.
Qed.

Lemma core_decompose_cases (task : Core.Task.t) (w : World) :
  let descs := map Core.Task.description (fst (Core.decompose E task w)) in
  descs = ["scaffold project"; "create core modules"; "write tests"]
  \/ descs = ["collect logs"; "reproduce"; "apply fix"]
  \/ descs = ["analyze"].
Proof.
  unfold Core.decompose.
  destruct (contains "create" _ || contains "build" _); [left; reflexivity|].
  destruct (contains "debug" _ || contains "fix" _); [right; left; reflexivity|].
  right; right; reflexivity.
Qed.

Lemma engine_decompose_depth (task : Engine.Task.t) (w : World) :
  Forall (fun c => Engine.Task.depth c = 1) (fst (Engine.decompose E task w)).
Proof.
  unfold Engine.decompose.
  destruct (contains "create" _ || contains "build" _);
    [| destruct (contains "debug" _ || contains "fix" _)];
    simpl; repeat constructor.
Qed.

Lemma core_decompose_depth (task : Core.Task.t) (w : World) :
  Forall (fun c => Core.Task.depth c = 1) (fst (Core.decompose E task w)).
Proof.
  unfold Core.decompose.
  destruct (contains "create" _ || contains "build" _);
    [| destruct (contains "debug" _ || contains "fix" _)];
    simpl; repeat constructor.
Qed.
End PlannerFacts.

(** The descriptions a planner can emit are not empty. *)
Ltac nonempty_descriptions H :=
  simpl in H;
  repeat (destruct H as [H | H]; [subst; discriminate |]);
  try contradiction.

(** C3, as amended: for every task, of any depth, [Planner.decompose] of
    either generation returns a non-empty sequence of tasks, each with a
    non-empty description and with depth 1; the depth is the parent's
    depth plus 1 for the depth-0 root that [Planner.plan] builds. *)
Theorem decompose_nonempty_depth_one (E : Env) :
  (forall (task : Engine.Task.t) (w : World),
      let subtasks := fst (Engine.decompose E task w) in
      subtasks <> []
      /\ Forall (fun c => Engine.Task.description c <> ""
                          /\ Engine.Task.depth c = 1) subtasks)
  /\ (forall (task : Core.Task.t) (w : World),
         let subtasks := fst (Core.decompose E task w) in
         subtasks <> []
         /\ Forall (fun c => Core.Task.description c <> ""
                             /\ Core.Task.depth c = 1) subtasks)
  /\ (forall (processed_input : pydict) (w : World),
         Forall (fun c => Engine.Task.depth c = 0 + 1)
                (fst (Engine.plan E processed_input w))
         /\ Forall (fun c => Core.Task.depth c = 0 + 1)
                   (fst (Core.plan E processed_input w))).
Proof.
  split; [| split].
  - intros task w subtasks. subst subtasks. split.
    + destruct (engine_decompose_cases E task w) as [H | [H | H]];
        intros Hnil; rewrite Hnil in H; discriminate.
    + pose proof (engine_decompose_depth E task w) as Hd.
      pose proof (engine_decompose_cases E task w) as Hc.
      rewrite Forall_forall in *. intros c Hin. split; [| auto].
      intros Hempty.
      assert (Hm : In "" (map Engine.Task.description
                              (fst (Engine.decompose E task w)))).
      { rewrite <- Hempty. apply in_map. exact Hin. }
      cbv zeta in Hc.
      destruct Hc as [Hc | [Hc | Hc]]; rewrite Hc in Hm;
        nonempty_descriptions Hm.
  - intros task w subtasks. subst subtasks. split.
    + destruct (core_decompose_cases E task w) as [H | [H | H]];
        intros Hnil; rewrite Hnil in H; discriminate.
    + pose proof (core_decompose_depth E task w) as Hd.
      pose proof (core_decompose_cases E task w) as Hc.
      rewrite Forall_forall in *. intros c Hin. split; [| auto].
      intros Hempty.
      assert (Hm : In "" (map Core.Task.description
                              (fst (Core.decompose E task w)))).
      { rewrite <- Hempty. apply in_map. exact Hin. }
      cbv zeta in Hc.
      destruct Hc as [Hc | [Hc | Hc]]; rewrite Hc in Hm;
        nonempty_descriptions Hm.
  - intros processed_input w. split.
    + unfold Engine.plan. cbv zeta.
      destruct (Engine.new_task _ _ _ _) as [root w'].
      apply engine_decompose_depth.
    + unfold Core.plan. cbv zeta.
      destruct (Core.new_task _ _ _ _ _) as [root w'].
      apply core_decompose_depth.
Qed.

(** C3, as stated, fails: a parent of depth 1 whose description holds
    "build" gets subtasks of depth 1, not 2. *)
Lemma decompose_depth_counterexample :
  let parent := {| Engine.Task.id := "p";
                   Engine.Task.description := "build the parser";
                   Engine.Task.depth := 1;
                   Engine.Task.metadata := [] |} in
  exists c,
    In c (fst (Engine.decompose Sample.env parent world0))
    /\ Engine.Task.depth c <> Engine.Task.depth parent + 1.
Proof.
  cbv zeta.
  eexists. split.
  - vm_compute. left. reflexivity.
  - vm_compute. discriminate.
Qed.

(* ================================================================== *)
(** * Planner: determinism up to the fresh identifiers *)
(* ================================================================== *)

Section PlanDeterminism.
Variable E : Env.

Lemma engine_decompose_fields (t1 t2 : Engine.Task.t) (w1 w2 : World) :
  Engine.Task.description t1 = Engine.Task.description t2 ->
  let a := fst (Engine.decompose E t1 w1) in
  let b := fst (Engine.decompose E t2 w2) in
  map Engine.Task.description a = map Engine.Task.description b
  /\ map Engine.Task.depth a = map Engine.Task.depth b
  /\ map Engine.Task.metadata a = map Engine.Task.metadata b.
Proof.
  intros Hd. unfold Engine.decompose. rewrite Hd.
  destruct (contains "create" _ || contains "build" _);
    [| destruct (contains "debug" _ || contains "fix" _)];
    simpl; auto.
Qed.

Lemma core_decompose_fields (t1 t2 : Core.Task.t) (w1 w2 : World) :
  Core.Task.description t1 = Core.Task.description t2 ->
  let a := fst (Core.decompose E t1 w1) in
  let b := fst (Core.decompose E t2 w2) in
  map Core.Task.description a = map Core.Task.description b
  /\ map Core.Task.depth a = map Core.Task.depth b
  /\ map Core.Task.priority a = map Core.Task.priority b
  /\ map Core.Task.metadata a = map Core.Task.metadata b.
Proof.
  intros Hd. unfold Core.decompose. rewrite Hd.
  destruct (contains "create" _ || contains "build" _);
    [| destruct (contains "debug" _ || contains "fix" _)];
    simpl; auto.
Qed.
End PlanDeterminism.

(** C9, as amended: two invocations of [Planner.plan] on the same input
    record, in any two states of the world, yield sequences of tasks that
    agree, position by position, in description, depth, priority and
    metadata.  (The identifiers are drawn afresh by every invocation.) *)
Theorem plan_deterministic_up_to_ids
        (E : Env) (processed_input : pydict) (w1 w2 : World) :
  (let a := fst (Engine.plan E processed_input w1) in
   let b := fst (Engine.plan E processed_input w2) in
   map Engine.Task.description a = map Engine.Task.description b
   /\ map Engine.Task.depth a = map Engine.Task.depth b
   /\ map Engine.Task.metadata a = map Engine.Task.metadata b)
  /\
  (let a := fst (Core.plan E processed_input w1) in
   let b := fst (Core.plan E processed_input w2) in
   map Core.Task.description a = map Core.Task.description b
   /\ map Core.Task.depth a = map Core.Task.depth b
   /\ map Core.Task.priority a = map Core.Task.priority b
   /\ map Core.Task.metadata a = map Core.Task.metadata b).
Proof.
  split.
  - unfold Engine.plan. cbv zeta.
    destruct (Engine.new_task E _ 0 w1) as [r1 w1'] eqn:H1.
    destruct (Engine.new_task E _ 0 w2) as [r2 w2'] eqn:H2.
    apply engine_decompose_fields.
    unfold Engine.new_task, fresh_uuid in H1, H2.
    inversion H1; inversion H2; reflexivity.
  - unfold Core.plan. cbv zeta.
    destruct (Core.new_task E _ 0 1 w1) as [r1 w1'] eqn:H1.
    destruct (Core.new_task E _ 0 1 w2) as [r2 w2'] eqn:H2.
    apply core_decompose_fields.
    unfold Core.new_task, fresh_uuid in H1, H2.
    inversion H1; inversion H2; reflexivity.
Qed.

(** C9, as stated, fails: a second invocation on the same record returns
    tasks with other identifiers, so the two sequences are not equal in
    all fields. *)
Lemma plan_ids_counterexample :
  let input := [("text", PStr "What's the status?"); ("intent", PStr "query")] in
  (let (first, w) := Core.plan Sample.env input world0 in
   let (second, _) := Core.plan Sample.env input w in
   first <> second)
  /\
  (let (first, w) := Engine.plan Sample.env input world0 in
   let (second, _) := Engine.plan Sample.env input w in
   first <> second).
Proof.
  split; vm_compute; intros H; discriminate H.
Qed.

(* ================================================================== *)
(** * Memory: the bounded short-term window *)
(* ================================================================== *)

Section LastN.
Context {A : Type}.

Lemma lastn_length (n : nat) (l : list A) :
  length (lastn n l) = Nat.min n (length l).
Proof. unfold lastn. rewrite length_skipn. lia. Qed.

Lemma lastn_all (n : nat) (l : list A) : length l <= n -> lastn n l = l.
Proof.
  intros H. unfold lastn.
  replace (length l - n) with 0 by lia. reflexivity.
Qed.

(** Appending and then popping the head when the bound is exceeded
    keeps the last [n] elements. *)
Lemma append_then_evict (n : nat) (l : list A) (x : A) :
  length l <= n ->
  (if (n <? length (l ++ [x]))%nat then pop0 (l ++ [x]) else l ++ [x])
  = lastn n (l ++ [x]).
Proof.
  intros H. unfold lastn. rewrite length_app. simpl length.
  destruct (Nat.ltb_spec n (length l + 1)) as [Hlt | Hge].
  - replace (length l + 1 - n) with 1 by lia.
    destruct l; reflexivity.
  - replace (length l + 1 - n) with 0 by lia. reflexivity.
Qed.

Lemma lastn_app_lastn (n : nat) (l xs : list A) :
  lastn n (lastn n l ++ xs) = lastn n (l ++ xs).
Proof.
  destruct (Nat.le_gt_cases (length l) n) as [Hle | Hgt].
  - rewrite (lastn_all n l Hle). reflexivity.
  - unfold lastn at 1 3. rewrite !length_app.
    pose proof (lastn_length n l) as Hlen.
    rewrite Hlen. replace (Nat.min n (length l)) with n by lia.
    unfold lastn.
    replace (length l + length xs - n)
      with (length xs + (length l - n)) by lia.
    rewrite <- skipn_skipn. rewrite (skipn_app (length l - n) l xs).
    replace (length l - n - length l) with 0 by lia.
    replace (n + length xs - n) with (length xs) by lia.
    reflexivity.
Qed.

Lemma lastn_app_long (n : nat) (l xs : list A) :
  n <= length xs -> lastn n (l ++ xs) = lastn n xs.
Proof.
  intros H. unfold lastn. rewrite length_app.
  rewrite skipn_app.
  replace (length l + length xs - n - length l) with (length xs - n) by lia.
  rewrite skipn_all2 by lia. reflexivity.
Qed.

Lemma lastn_map {B : Type} (f : A -> B) (n : nat) (l : list A) :
  lastn n (map f l) = map f (lastn n l).
Proof. unfold lastn. rewrite length_map. apply skipn_map. Qed.
End LastN.

Section ShortTermWindow.
Variable E : Env.

Lemma engine_write_short (k : string) (c : pyval) (s : Engine.State) :
  length (Engine.short_term (Engine.memory s)) <= 100 ->
  let (item, s') := Engine.write E k c false s in
  Engine.short_term (Engine.memory s')
  = lastn 100 (Engine.short_term (Engine.memory s) ++ [item]).
Proof.
  intros H. unfold Engine.write, fresh_uuid, now_ts. cbv zeta. simpl.
  apply append_then_evict. exact H.
Qed.

Lemma core_write_short (k : string) (c : pyval) (s : Core.State) :
  length (Core.short (Core.memory s)) <= 200 ->
  let (item, s') := Core.write E k c false s in
  Core.short (Core.memory s')
  = lastn 200 (Core.short (Core.memory s) ++ [Core.AsDict item]).
Proof.
  intros H. unfold Core.write, fresh_uuid, now_ts. cbv zeta. simpl.
  apply append_then_evict. exact H.
Qed.

Lemma engine_writes_short (calls : list (string * pyval)) :
  forall s : Engine.State,
    length (Engine.short_term (Engine.memory s)) <= 100 ->
    Engine.short_term (Engine.memory (snd (Calls.engine_writes E false calls s)))
    = lastn 100 (Engine.short_term (Engine.memory s)
                 ++ fst (Calls.engine_writes E false calls s)).
Proof.
  induction calls as [| [k c] calls IH]; intros s H;
    cbn [Calls.engine_writes fst snd].
  - rewrite app_nil_r. symmetry. apply lastn_all. exact H.
  - pose proof (engine_write_short k c s H) as Hw.
    destruct (Engine.write E k c false s) as [item s1].
    assert (H1 : length (Engine.short_term (Engine.memory s1)) <= 100).
    { rewrite Hw, lastn_length. lia. }
    specialize (IH s1 H1).
    destruct (Calls.engine_writes E false calls s1) as [items s2].
    cbn [fst snd map] in *. rewrite IH, Hw, lastn_app_lastn, <- app_assoc. reflexivity.
Qed.

Lemma core_writes_short (calls : list (string * pyval)) :
  forall s : Core.State,
    length (Core.short (Core.memory s)) <= 200 ->
    Core.short (Core.memory (snd (Calls.core_writes E false calls s)))
    = lastn 200 (Core.short (Core.memory s)
                 ++ map Core.AsDict (fst (Calls.core_writes E false calls s))).
Proof.
  induction calls as [| [k c] calls IH]; intros s H;
    cbn [Calls.core_writes fst snd].
  - rewrite app_nil_r. symmetry. apply lastn_all. exact H.
  - pose proof (core_write_short k c s H) as Hw.
    destruct (Core.write E k c false s) as [item s1].
    assert (H1 : length (Core.short (Core.memory s1)) <= 200).
    { rewrite Hw, lastn_length. lia. }
    specialize (IH s1 H1).
    destruct (Calls.core_writes E false calls s1) as [items s2].
    cbn [fst snd map] in *. rewrite IH, Hw, lastn_app_lastn, <- app_assoc. reflexivity.
Qed.

Lemma engine_writes_count (b : bool) (calls : list (string * pyval)) :
  forall s, length (fst (Calls.engine_writes E b calls s)) = length calls.
Proof.
  induction calls as [| [k c] calls IH]; intros s;
    cbn [Calls.engine_writes fst snd]; [reflexivity|].
  destruct (Engine.write E k c b s) as [item s1].
  specialize (IH s1).
  destruct (Calls.engine_writes E b calls s1). simpl in *. lia.
Qed.

Lemma core_writes_count (b : bool) (calls : list (string * pyval)) :
  forall s, length (fst (Calls.core_writes E b calls s)) = length calls.
Proof.
  induction calls as [| [k c] calls IH]; intros s;
    cbn [Calls.core_writes fst snd]; [reflexivity|].
  destruct (Core.write E k c b s) as [item s1].
  specialize (IH s1).
  destruct (Calls.core_writes E b calls s1). simpl in *. lia.
Qed.
End ShortTermWindow.

(** C5: from a memory whose short-term partition is within its bound
    (100 in the engine, 200 in [alan_core]; the empty one of a new
    memory is), after any sequence of short-term writes the partition is
    within the bound, and when the sequence is longer than the bound the
    partition is exactly the last [bound] items written, oldest first. *)
Theorem fifo_eviction (E : Env) (calls : list (string * pyval))
        (se : Engine.State) (sc : Core.State) :
  length (Engine.short_term (Engine.memory se)) <= 100 ->
  length (Core.short (Core.memory sc)) <= 200 ->
  (forall done rest, calls = done ++ rest ->
      length (Engine.short_term
                (Engine.memory (snd (Calls.engine_writes E false done se))))
      <= 100
      /\ length (Core.short
                   (Core.memory (snd (Calls.core_writes E false done sc))))
         <= 200)
  /\ (100 < length calls ->
      Engine.short_term (Engine.memory (snd (Calls.engine_writes E false calls se)))
      = lastn 100 (fst (Calls.engine_writes E false calls se)))
  /\ (200 < length calls ->
      Core.short (Core.memory (snd (Calls.core_writes E false calls sc)))
      = map Core.AsDict (lastn 200 (fst (Calls.core_writes E false calls sc)))).
Proof.
  intros He Hc. split; [| split].
  - intros done rest _. split.
    + rewrite (engine_writes_short E done se He), lastn_length. lia.
    + rewrite (core_writes_short E done sc Hc), lastn_length. lia.
  - intros Hlen. rewrite (engine_writes_short E calls se He).
    apply lastn_app_long. rewrite engine_writes_count. lia.
  - intros Hlen. rewrite (core_writes_short E calls sc Hc).
    rewrite <- lastn_map.
    apply lastn_app_long. rewrite length_map, core_writes_count. lia.
Qed.

(** 201 writes into new memories: the engine keeps the last 100 items,
    [alan_core] the last 200. *)
Lemma fifo_eviction_witness :
  let calls := repeat ("note", PStr "n") 201 in
  Engine.short_term
    (Engine.memory (snd (Calls.engine_writes Sample.env false calls Engine.init)))
  = lastn 100 (fst (Calls.engine_writes Sample.env false calls Engine.init))
  /\ Core.short
       (Core.memory (snd (Calls.core_writes Sample.env false calls (Core.init []))))
     = map Core.AsDict
           (lastn 200 (fst (Calls.core_writes Sample.env false calls (Core.init [])))).
Proof.
  cbv zeta.
  destruct (fifo_eviction Sample.env (repeat ("note", PStr "n") 201)
                          Engine.init (Core.init []))
    as (_ & He & Hc).
  - simpl. lia.
  - simpl. lia.
  - split; [apply He | apply Hc]; rewrite repeat_length; lia.
Defined.

(* ================================================================== *)
(** * The loop: what one iteration does *)
(* ================================================================== *)

Section EngineLoop.
Variable E : Env.
Variable D : nat.

Lemma engine_execute_entry (task : Engine.Task.t) (s : Engine.State) :
  exists t,
    fst (Engine.execute E task s)
    = ExecutionResult (Engine.Task.id task) (Engine.Task.description task)
                      (Engine.dispatch (Engine.Task.description task)) t.
Proof.
  unfold Engine.execute, Engine.write, now_ts, fresh_uuid. cbn.
  eexists. reflexivity.
Qed.

(** An iteration on a pair beyond the bound: the marker, and nothing
    else changes. *)
Lemma engine_iteration_skip (l : Engine.Loop) task depth rest :
  Engine.frontier l = (task, depth) :: rest ->
  D < depth ->
  Engine.iteration E D l
  = Some {| Engine.frontier := rest;
            Engine.results :=
              Engine.results l
              ++ [SkippedMarker (Engine.Task.description task)];
            Engine.log := Engine.log l ++ [Engine.Skip task depth];
            Engine.state := Engine.state l |}.
Proof.
  intros Hf Hd. unfold Engine.iteration. rewrite Hf.
  apply Nat.ltb_lt in Hd. rewrite Hd. reflexivity.
Qed.

(** An iteration on a pair within the bound that does not spawn. *)
Lemma engine_iteration_plain (l : Engine.Loop) task depth rest :
  Engine.frontier l = (task, depth) :: rest ->
  depth <= D ->
  Engine.spawns D task depth = false ->
  Engine.iteration E D l
  = Some {| Engine.frontier := rest;
            Engine.results :=
              Engine.results l
              ++ [fst (Engine.execute E task (Engine.state l))];
            Engine.log := Engine.log l ++ [Engine.CallExecute task depth];
            Engine.state := snd (Engine.execute E task (Engine.state l)) |}.
Proof.
  intros Hf Hd Hs. unfold Engine.iteration. rewrite Hf.
  apply Nat.ltb_ge in Hd. rewrite Hd.
  destruct (Engine.execute E task (Engine.state l)) as [e s1].
  rewrite Hs. reflexivity.
Qed.

(** An iteration on a pair within the bound that spawns: the second
    child of [sub] ends in front of the first. *)
Lemma engine_iteration_spawn (l : Engine.Loop) task depth rest :
  Engine.frontier l = (task, depth) :: rest ->
  Engine.spawns D task depth = true ->
  let s1 := snd (Engine.execute E task (Engine.state l)) in
  let c1 := fst (Engine.new_task E "create README" (depth + 1)
                                 (Engine.world s1)) in
  let w1 := snd (Engine.new_task E "create README" (depth + 1)
                                 (Engine.world s1)) in
  let c2 := fst (Engine.new_task E "create src folder" (depth + 1) w1) in
  let w2 := snd (Engine.new_task E "create src folder" (depth + 1) w1) in
  Engine.iteration E D l
  = Some {| Engine.frontier := (c2, depth + 1) :: (c1, depth + 1) :: rest;
            Engine.results :=
              Engine.results l
              ++ [fst (Engine.execute E task (Engine.state l))];
            Engine.log := Engine.log l ++ [Engine.CallExecute task depth];
            Engine.state := {| Engine.world := w2;
                               Engine.memory := Engine.memory s1 |} |}.
Proof.
  intros Hf Hs. cbv zeta. unfold Engine.iteration. rewrite Hf.
  assert (Hd : (D <? depth)%nat = false).
  { unfold Engine.spawns in Hs. apply andb_prop in Hs as [_ Hlt].
    apply Nat.ltb_lt in Hlt. apply Nat.ltb_ge. lia. }
  rewrite Hd.
  destruct (Engine.execute E task (Engine.state l)) as [e s1].
  rewrite Hs. reflexivity.
Qed.

(** Every iteration is one of the three. *)
Lemma engine_iteration_cases (l l' : Engine.Loop) :
  Engine.iteration E D l = Some l' ->
  exists task depth rest,
    Engine.frontier l = (task, depth) :: rest
    /\ ((D < depth)
        \/ (depth <= D /\ Engine.spawns D task depth = false)
        \/ (depth < D /\ Engine.spawns D task depth = true)).
Proof.
  unfold Engine.iteration.
  destruct (Engine.frontier l) as [| [task depth] rest]; [discriminate|].
  intros _. exists task, depth, rest. split; [reflexivity|].
  destruct (Nat.ltb_spec D depth) as [Hlt | Hge]; [left; exact Hlt|].
  right. destruct (Engine.spawns D task depth) eqn:Hs.
  - right. split; [| reflexivity].
    unfold Engine.spawns in Hs. apply andb_prop in Hs as [_ Hlt].
    apply Nat.ltb_lt in Hlt. exact Hlt.
  - left. split; [exact Hge | reflexivity].
Qed.

Lemma engine_iteration_none (l : Engine.Loop) :
  Engine.iteration E D l = None <-> Engine.frontier l = [].
Proof.
  unfold Engine.iteration.
  destruct (Engine.frontier l) as [| [task depth] rest].
  - split; reflexivity.
  - split; [| discriminate].
    destruct (D <? depth)%nat; [discriminate|].
    destruct (Engine.execute E task (Engine.state l)).
    destruct (Engine.spawns D task depth); discriminate.
Qed.

(** The log and the result list grow together. *)
Lemma engine_iteration_recorded (l l' : Engine.Loop) :
  Engine.iteration E D l = Some l' ->
  Forall2 (Laws.engine_recorded D) (Engine.log l) (Engine.results l) ->
  Forall2 (Laws.engine_recorded D) (Engine.log l') (Engine.results l').
Proof.
  intros Hit Hinv.
  destruct (engine_iteration_cases l l' Hit)
    as (task & depth & rest & Hf & [Hd | [[Hd Hs] | [Hd Hs]]]).
  - rewrite (engine_iteration_skip l task depth rest Hf Hd) in Hit.
    injection Hit as Hl; subst l'; cbn [Engine.log Engine.results].
    apply Forall2_app; [exact Hinv|].
    constructor; [| constructor]. cbn. auto.
  - rewrite (engine_iteration_plain l task depth rest Hf Hd Hs) in Hit.
    injection Hit as Hl; subst l'; cbn [Engine.log Engine.results].
    apply Forall2_app; [exact Hinv|].
    constructor; [| constructor]. cbn. auto.
  - rewrite (engine_iteration_spawn l task depth rest Hf Hs) in Hit.
    injection Hit as Hl; subst l'; cbn [Engine.log Engine.results].
    apply Forall2_app; [exact Hinv|].
    constructor; [| constructor]. cbn. split; [lia | auto].
Qed.

Lemma engine_drain_recorded (fuel : nat) :
  forall l l',
    Engine.drain E D fuel l = Some l' ->
    Forall2 (Laws.engine_recorded D) (Engine.log l) (Engine.results l) ->
    Forall2 (Laws.engine_recorded D) (Engine.log l') (Engine.results l').
Proof.
  induction fuel as [| fuel IH]; intros l l' Hdr Hinv; cbn in Hdr.
  - destruct (Engine.iteration E D l); [discriminate|].
    inversion Hdr; subst. exact Hinv.
  - destruct (Engine.iteration E D l) as [l1 |] eqn:Hit.
    + apply (IH l1 l' Hdr).
      apply (engine_iteration_recorded l l1 Hit Hinv).
    + inversion Hdr; subst. exact Hinv.
Qed.

Lemma engine_drain_frontier (fuel : nat) :
  forall l l', Engine.drain E D fuel l = Some l' -> Engine.frontier l' = [].
Proof.
  induction fuel as [| fuel IH]; intros l l' Hdr; cbn in Hdr.
  - destruct (Engine.iteration E D l) eqn:Hit; [discriminate|].
    inversion Hdr; subst. apply engine_iteration_none. exact Hit.
  - destruct (Engine.iteration E D l) as [l1 |] eqn:Hit.
    + apply (IH l1 l' Hdr).
    + inversion Hdr; subst. apply engine_iteration_none. exact Hit.
Qed.
End EngineLoop.

(* ================================================================== *)
(** * The loop: it is left after finitely many iterations *)
(* ================================================================== *)

Section EngineTermination.
Variable E : Env.
Variable D : nat.

Lemma engine_weight_pos (p : Engine.Task.t * nat) :
  1 <= Laws.engine_weight D p.
Proof.
  unfold Laws.engine_weight.
  destruct (D <? snd p)%nat; [lia|].
  destruct (Engine.spawns D (fst p) (snd p)); lia.
Qed.

(** Every iteration pays one unit of the budget of the frontier. *)
Lemma engine_iteration_budget (l l' : Engine.Loop) :
  Engine.iteration E D l = Some l' ->
  S (Laws.engine_budget D (Engine.frontier l'))
  = Laws.engine_budget D (Engine.frontier l).
Proof.
  intros Hit.
  destruct (engine_iteration_cases E D l l' Hit)
    as (task & depth & rest & Hf & [Hd | [[Hd Hs] | [Hd Hs]]]).
  - rewrite (engine_iteration_skip E D l task depth rest Hf Hd) in Hit.
    injection Hit as Hl; subst l'. rewrite Hf.
    unfold Laws.engine_budget. cbn [Engine.frontier map list_sum].
    unfold Laws.engine_weight at 2. cbn [fst snd].
    apply Nat.ltb_lt in Hd. rewrite Hd. reflexivity.
  - rewrite (engine_iteration_plain E D l task depth rest Hf Hd Hs) in Hit.
    injection Hit as Hl; subst l'. rewrite Hf.
    unfold Laws.engine_budget. cbn [Engine.frontier map list_sum].
    unfold Laws.engine_weight at 2. cbn [fst snd].
    apply Nat.ltb_ge in Hd. rewrite Hd, Hs. reflexivity.
  - rewrite (engine_iteration_spawn E D l task depth rest Hf Hs) in Hit.
    injection Hit as Hl; subst l'. rewrite Hf.
    unfold Laws.engine_budget. cbn [Engine.frontier map list_sum].
    unfold Laws.engine_weight at 1 2 4. cbn [fst snd].
    assert (H1 : (D <? depth + 1)%nat = false) by (apply Nat.ltb_ge; lia).
    assert (H0 : (D <? depth)%nat = false) by (apply Nat.ltb_ge; lia).
    rewrite H1, H0, Hs.
    unfold Engine.spawns, Engine.new_task, fresh_uuid. cbn. reflexivity.
Qed.

Lemma engine_budget_zero (f : list (Engine.Task.t * nat)) :
  Laws.engine_budget D f = 0 -> f = [].
Proof.
  destruct f as [| p f]; [reflexivity|].
  unfold Laws.engine_budget. cbn [map list_sum fold_right].
  pose proof (engine_weight_pos p). intros H0. exfalso. lia.
Qed.

(** With fuel for the budget of the frontier, the loop is left. *)
Lemma engine_drain_terminates (fuel : nat) :
  forall l,
    Laws.engine_budget D (Engine.frontier l) <= fuel ->
    exists l', Engine.drain E D fuel l = Some l'.
Proof.
  induction fuel as [| fuel IH]; intros l Hb; cbn [Engine.drain];
    destruct (Engine.iteration E D l) as [l1 |] eqn:Hit;
    try (eexists; reflexivity).
  - apply engine_iteration_budget in Hit. lia.
  - apply IH. apply engine_iteration_budget in Hit. lia.
Qed.

(** More fuel does not change the outcome. *)
Lemma engine_drain_more_fuel (fuel : nat) :
  forall l l' extra,
    Engine.drain E D fuel l = Some l' ->
    Engine.drain E D (fuel + extra) l = Some l'.
Proof.
  induction fuel as [| fuel IH]; intros l l' extra Hdr.
  - cbn [Engine.drain] in Hdr.
    destruct (Engine.iteration E D l) eqn:Hit; [discriminate|].
    destruct (0 + extra); cbn [Engine.drain]; rewrite Hit; exact Hdr.
  - cbn [Engine.drain Nat.add] in *.
    destruct (Engine.iteration E D l) as [l1 |]; [| exact Hdr].
    apply IH. exact Hdr.
Qed.

(** The loop only appends to the result list. *)
Lemma engine_drain_appends (fuel : nat) :
  forall l l',
    Engine.drain E D fuel l = Some l' ->
    exists later, Engine.results l' = Engine.results l ++ later.
Proof.
  induction fuel as [| fuel IH]; intros l l' Hdr; cbn [Engine.drain] in Hdr.
  - destruct (Engine.iteration E D l); [discriminate|].
    injection Hdr as <-. exists []. rewrite app_nil_r. reflexivity.
  - destruct (Engine.iteration E D l) as [l1 |] eqn:Hit.
    + destruct (IH l1 l' Hdr) as [later Hlater].
      assert (Hone : exists e, Engine.results l1 = Engine.results l ++ [e]).
      { destruct (engine_iteration_cases E D l l1 Hit)
          as (task & depth & rest & Hf & [Hd | [[Hd Hs] | [Hd Hs]]]).
        - rewrite (engine_iteration_skip E D l task depth rest Hf Hd) in Hit.
          injection Hit as Hl; subst l1. eexists; reflexivity.
        - rewrite (engine_iteration_plain E D l task depth rest Hf Hd Hs)
            in Hit.
          injection Hit as Hl; subst l1. eexists; reflexivity.
        - rewrite (engine_iteration_spawn E D l task depth rest Hf Hs) in Hit.
          injection Hit as Hl; subst l1. eexists; reflexivity. }
      destruct Hone as [e He]. exists (e :: later).
      rewrite Hlater, He, <- app_assoc. reflexivity.
    + injection Hdr as <-. exists []. rewrite app_nil_r. reflexivity.
Qed.
End EngineTermination.

Section CoreLoop.
Variable E : Env.
Variable D : nat.

(** The dispatch answers [{"fixed": True}] exactly on the descriptions
    of [Laws.core_fixes]; what the hook returns is filed under "llm". *)
Lemma core_dispatch_fixed (task : Core.Task.t) (w w' : World) result :
  Core.dispatch E (Core.Task.description task) w = (Ok result, w') ->
  match dict_get "fixed" result with
  | Some v => truthy v
  | None => false
  end = Laws.core_fixes task.
Proof.
  unfold Core.dispatch, Laws.core_fixes. cbv zeta.
  destruct (contains "scaffold" _ || contains "scaffold project" _);
    [intros H; injection H as <- _; reflexivity|].
  destruct (contains "create core modules" _ || contains "core modules" _);
    [intros H; injection H as <- _; reflexivity|].
  destruct (contains "write tests" _);
    [intros H; injection H as <- _; reflexivity|].
  destruct (contains "collect logs" _);
    [intros H; injection H as <- _; reflexivity|].
  destruct (contains "reproduce" _);
    [intros H; injection H as <- _; reflexivity|].
  destruct (contains "apply fix" _);
    [intros H; injection H as <- _; reflexivity|].
  destruct (llm_call E) as [hook |].
  - destruct (hook _ _); intros H; [injection H as <- _ | discriminate].
    reflexivity.
  - intros H; injection H as <- _. reflexivity.
Qed.

Lemma core_execute_ok (task : Core.Task.t) (s s1 : Core.State) res :
  Core.execute E task s = (Ok res, s1) ->
  (exists result t,
      res = ExecutionResult (Core.Task.id task) (Core.Task.description task)
                            result t)
  /\ Core.signals_fixed res = Laws.core_fixes task.
Proof.
  unfold Core.execute, now_ts. cbv zeta.
  destruct (Core.dispatch E (Core.Task.description task) _)
    as [[result | e] w2] eqn:Hd; [| discriminate].
  unfold Core.write, fresh_uuid, now_ts. cbn.
  intros H. injection H as <- _. split.
  - eexists _, _. reflexivity.
  - cbn. apply (core_dispatch_fixed task _ _ _ Hd).
Qed.

Lemma core_iteration_skip (l : Core.Loop) task depth rest :
  Core.frontier l = (task, depth) :: rest ->
  D < depth ->
  Core.iteration E D l
  = Some (Core.Next
            {| Core.frontier := rest;
               Core.results :=
                 Core.results l
                 ++ [SkippedMarker (Core.Task.description task)];
               Core.log := Core.log l ++ [Core.Skip task depth];
               Core.state := Core.state l |}).
Proof.
  intros Hf Hd. unfold Core.iteration. rewrite Hf.
  apply Nat.ltb_lt in Hd. rewrite Hd. reflexivity.
Qed.

(** Every iteration skips, or calls [execute], which raises or
    returns; a child is put in front when the result says "fixed". *)
Lemma core_iteration_cases (l : Core.Loop) (p : Core.progress) :
  Core.iteration E D l = Some p ->
  exists task depth rest,
    Core.frontier l = (task, depth) :: rest
    /\ ((D < depth
         /\ p = Core.Next
                  {| Core.frontier := rest;
                     Core.results :=
                       Core.results l
                       ++ [SkippedMarker (Core.Task.description task)];
                     Core.log := Core.log l ++ [Core.Skip task depth];
                     Core.state := Core.state l |})
        \/ (depth <= D
            /\ exists e s1,
                Core.execute E task (Core.state l) = (Raise e, s1)
                /\ p = Core.Raised e
                         {| Core.frontier := rest;
                            Core.results := Core.results l;
                            Core.log :=
                              Core.log l ++ [Core.CallExecute task depth];
                            Core.state := s1 |})
        \/ (depth <= D
            /\ exists res s1,
                Core.execute E task (Core.state l) = (Ok res, s1)
                /\ p = Core.Next
                         {| Core.frontier :=
                              if Laws.core_fixes task
                              then (Core.verify_task task depth, depth + 1)
                                     :: rest
                              else rest;
                            Core.results := Core.results l ++ [res];
                            Core.log :=
                              Core.log l ++ [Core.CallExecute task depth];
                            Core.state := s1 |})).
Proof.
  unfold Core.iteration.
  destruct (Core.frontier l) as [| [task depth] rest]; [discriminate|].
  intros Hit. exists task, depth, rest. split; [reflexivity|].
  destruct (Nat.ltb_spec D depth) as [Hlt | Hge].
  - left. split; [exact Hlt|]. injection Hit as <-. reflexivity.
  - right.
    destruct (Core.execute E task (Core.state l)) as [[res | e] s1] eqn:Hex.
    + right. split; [exact Hge|]. exists res, s1. split; [reflexivity|].
      destruct (core_execute_ok task _ _ _ Hex) as [_ Hfix].
      rewrite <- Hfix.
      destruct (Core.signals_fixed res); injection Hit as <-; reflexivity.
    + left. split; [exact Hge|]. exists e, s1. split; [reflexivity|].
      injection Hit as <-. reflexivity.
Qed.

Lemma core_iteration_none (l : Core.Loop) :
  Core.iteration E D l = None <-> Core.frontier l = [].
Proof.
  unfold Core.iteration.
  destruct (Core.frontier l) as [| [task depth] rest].
  - split; reflexivity.
  - split; [| discriminate].
    destruct (D <? depth)%nat; [discriminate|].
    destruct (Core.execute E task (Core.state l)) as [[res | e] s1];
      [destruct (Core.signals_fixed res) |]; discriminate.
Qed.

Lemma core_iteration_recorded (l : Core.Loop) (p : Core.progress) :
  Core.iteration E D l = Some p ->
  Forall2 (Laws.core_recorded D) (Core.log l) (Core.results l) ->
  Laws.core_standing D p.
Proof.
  intros Hit Hinv.
  destruct (core_iteration_cases l p Hit)
    as (task & depth & rest & Hf
        & [[Hd ->] | [[Hd (e & s1 & Hex & ->)] | [Hd (res & s1 & Hex & ->)]]]);
    cbn [Laws.core_standing Core.log Core.results].
  - apply Forall2_app; [exact Hinv|].
    constructor; [| constructor]. cbn. auto.
  - exists (Core.log l), task, depth. auto.
  - apply Forall2_app; [exact Hinv|].
    destruct (core_execute_ok task _ _ _ Hex) as [(result & t & ->) _].
    constructor; [| constructor]. cbn. auto.
Qed.

Lemma core_drain_recorded (fuel : nat) :
  forall l p,
    Core.drain E D fuel l = Some p ->
    Forall2 (Laws.core_recorded D) (Core.log l) (Core.results l) ->
    Laws.core_standing D p.
Proof.
  induction fuel as [| fuel IH]; intros l p Hdr Hinv;
    cbn [Core.drain] in Hdr;
    destruct (Core.iteration E D l) as [[l1 | e l1] |] eqn:Hit.
  - discriminate.
  - injection Hdr as <-. apply (core_iteration_recorded l _ Hit Hinv).
  - injection Hdr as <-. exact Hinv.
  - apply (IH l1 p Hdr). apply (core_iteration_recorded l _ Hit Hinv).
  - injection Hdr as <-. apply (core_iteration_recorded l _ Hit Hinv).
  - injection Hdr as <-. exact Hinv.
Qed.

Lemma core_drain_frontier (fuel : nat) :
  forall l l',
    Core.drain E D fuel l = Some (Core.Next l') -> Core.frontier l' = [].
Proof.
  induction fuel as [| fuel IH]; intros l l' Hdr;
    cbn [Core.drain] in Hdr;
    destruct (Core.iteration E D l) as [[l1 | e l1] |] eqn:Hit;
    try discriminate.
  - injection Hdr as <-. apply core_iteration_none. exact Hit.
  - apply (IH l1 l' Hdr).
  - injection Hdr as <-. apply core_iteration_none. exact Hit.
Qed.
End CoreLoop.

(* ================================================================== *)
(** * The depth bound *)
(* ================================================================== *)

Section DepthBound.
Variable D : nat.

Lemma engine_recorded_within (evs : list Engine.event) (es : list entry) :
  Forall2 (Laws.engine_recorded D) evs es ->
  Forall (Laws.engine_within D) evs.
Proof.
  induction 1 as [| ev e evs es Hr _ IH]; constructor; [| exact IH].
  destruct ev, e; cbn in *; tauto.
Qed.

Lemma core_recorded_within (evs : list Core.event) (es : list entry) :
  Forall2 (Laws.core_recorded D) evs es ->
  Forall (Laws.core_within D) evs.
Proof.
  induction 1 as [| ev e evs es Hr _ IH]; constructor; [| exact IH].
  destruct ev, e; cbn in *; tauto.
Qed.

Lemma core_standing_within (p : Core.progress) :
  Laws.core_standing D p ->
  Forall (Laws.core_within D)
         (Core.log match p with Core.Next l => l | Core.Raised _ l => l end).
Proof.
  destruct p as [l | e l]; cbn [Laws.core_standing].
  - apply core_recorded_within.
  - intros (before & task & depth & -> & Hd & Hrec).
    apply Forall_app. split; [apply (core_recorded_within _ _ Hrec)|].
    constructor; [exact Hd | constructor].
Qed.
End DepthBound.

(** C1: under maximum depth [D], in [AlanCore.process] and in [HRM.run]
    alike, an iteration on a pair whose depth exceeds [D] appends the
    marker of its task to the results, removes the pair from the
    frontier and changes nothing else: [execute] is not called and no
    task is inserted.  Through a whole run, every call of [execute] is
    at a depth within [D], and the results match the log entry by entry:
    an execution result for each call, a marker for each skip (in
    [HRM.run] this holds up to the call whose exception ends the run). *)
Theorem depth_invariant (E : Env) (D : nat) :
  (forall l task depth rest,
      Engine.frontier l = (task, depth) :: rest ->
      D < depth ->
      Engine.iteration E D l
      = Some {| Engine.frontier := rest;
                Engine.results :=
                  Engine.results l
                  ++ [SkippedMarker (Engine.Task.description task)];
                Engine.log := Engine.log l ++ [Engine.Skip task depth];
                Engine.state := Engine.state l |})
  /\ (forall l task depth rest,
         Core.frontier l = (task, depth) :: rest ->
         D < depth ->
         Core.iteration E D l
         = Some (Core.Next
                   {| Core.frontier := rest;
                      Core.results :=
                        Core.results l
                        ++ [SkippedMarker (Core.Task.description task)];
                      Core.log := Core.log l ++ [Core.Skip task depth];
                      Core.state := Core.state l |}))
  /\ (forall fuel l l',
         Forall2 (Laws.engine_recorded D) (Engine.log l) (Engine.results l) ->
         Engine.drain E D fuel l = Some l' ->
         Forall2 (Laws.engine_recorded D) (Engine.log l') (Engine.results l')
         /\ Forall (Laws.engine_within D) (Engine.log l'))
  /\ (forall fuel raw_input s processed l,
         Engine.process_loop E D fuel raw_input s = Some (processed, l) ->
         Forall2 (Laws.engine_recorded D) (Engine.log l) (Engine.results l)
         /\ Forall (Laws.engine_within D) (Engine.log l))
  /\ (forall fuel l p,
         Forall2 (Laws.core_recorded D) (Core.log l) (Core.results l) ->
         Core.drain E D fuel l = Some p ->
         Laws.core_standing D p
         /\ Forall (Laws.core_within D)
                   (Core.log match p with
                             | Core.Next l' => l'
                             | Core.Raised _ l' => l'
                             end)).
Proof.
  split; [| split; [| split; [| split]]].
  - apply engine_iteration_skip.
  - apply core_iteration_skip.
  - intros fuel l l' Hinv Hdr.
    pose proof (engine_drain_recorded E D fuel l l' Hdr Hinv) as Hrec.
    split; [exact Hrec | apply (engine_recorded_within D _ _ Hrec)].
  - intros fuel raw_input s processed l. unfold Engine.process_loop.
    cbv zeta.
    destruct (Engine.write E "user_input" _ false s) as [item s0].
    destruct (Engine.plan E _ (Engine.world s0)) as [tasks w].
    destruct (Engine.drain E D fuel _) as [l1 |] eqn:Hdr; [| discriminate].
    destruct (Engine.write E "last_results" _ false _) as [item1 s1].
    intros H. injection H as _ <-. cbn [Engine.log Engine.results].
    assert (Hrec : Forall2 (Laws.engine_recorded D)
                           (Engine.log l1) (Engine.results l1)).
    { apply (engine_drain_recorded E D fuel _ l1 Hdr). constructor. }
    split; [exact Hrec | apply (engine_recorded_within D _ _ Hrec)].
  - intros fuel l p Hinv Hdr.
    pose proof (core_drain_recorded E D fuel l p Hdr Hinv) as Hst.
    split; [exact Hst | apply (core_standing_within D p Hst)].
Qed.

(** With maximum depth 0 the engine skips the three planned tasks; with
    maximum depth 1 [HRM.run] executes the three planned tasks and skips
    the "verify fix" that "apply fix" spawns at depth 2. *)
Lemma depth_invariant_witness :
  (exists processed l,
      Engine.process_loop Sample.env 0 3 "Create a new project" Engine.init
      = Some (processed, l)
      /\ Forall2 (Laws.engine_recorded 0) (Engine.log l) (Engine.results l)
      /\ Forall (Laws.engine_within 0) (Engine.log l)
      /\ map is_skipped (Engine.results l) = [true; true; true])
  /\ (exists l,
         Core.drain Sample.env 1 4 (Sample.core_start Sample.env Sample.repair_request)
         = Some (Core.Next l)
         /\ Laws.core_standing 1 (Core.Next l)
         /\ map is_skipped (Core.results l) = [false; false; false; true]).
Proof.
  destruct (depth_invariant Sample.env 0) as (_ & _ & _ & Hengine & _).
  destruct (depth_invariant Sample.env 1) as (_ & _ & _ & _ & Hcore).
  split.
  - eexists _, _. split; [vm_compute; reflexivity|].
    match goal with
    | |- context [Engine.log ?l] =>
        destruct (Hengine 3 "Create a new project" Engine.init
                          (Engine.preprocess "Create a new project") l)
          as [Hrec Hwithin]; [vm_compute; reflexivity|]
    end.
    split; [exact Hrec | split; [exact Hwithin | vm_compute; reflexivity]].
  - eexists. split; [vm_compute; reflexivity|]. split.
    + eapply (Hcore 4 (Sample.core_start Sample.env Sample.repair_request)).
      * constructor.
      * vm_compute. reflexivity.
    + vm_compute. reflexivity.
Defined.

(* ================================================================== *)
(** * Completion of a run *)
(* ================================================================== *)

Section EngineCompletion.
Variable E : Env.
Variable D : nat.

(** What is queued or logged stays so. *)
Lemma engine_iteration_keeps (l l' : Engine.Loop) p :
  Engine.iteration E D l = Some l' ->
  In p (map Laws.engine_pair (Engine.log l) ++ Engine.frontier l) ->
  In p (map Laws.engine_pair (Engine.log l') ++ Engine.frontier l').
Proof.
  intros Hit Hin.
  destruct (engine_iteration_cases E D l l' Hit)
    as (task & depth & rest & Hf & [Hd | [[Hd Hs] | [Hd Hs]]]).
  - rewrite (engine_iteration_skip E D l task depth rest Hf Hd) in Hit.
    injection Hit as Hl; subst l'. rewrite Hf in Hin.
    cbn [Engine.log Engine.frontier]. rewrite map_app, <- app_assoc.
    exact Hin.
  - rewrite (engine_iteration_plain E D l task depth rest Hf Hd Hs) in Hit.
    injection Hit as Hl; subst l'. rewrite Hf in Hin.
    cbn [Engine.log Engine.frontier]. rewrite map_app, <- app_assoc.
    exact Hin.
  - rewrite (engine_iteration_spawn E D l task depth rest Hf Hs) in Hit.
    injection Hit as Hl; subst l'. rewrite Hf in Hin.
    cbn [Engine.log Engine.frontier]. rewrite map_app, <- app_assoc.
    apply in_app_or in Hin as [Hin | [Hin | Hin]];
      apply in_or_app; [left; exact Hin | right; left; exact Hin |].
    right. right. right. right. exact Hin.
Qed.

(** Every pair queued at any moment is drained by the end. *)
Lemma engine_drain_covers (fuel : nat) :
  forall l l' p,
    Engine.drain E D fuel l = Some l' ->
    In p (map Laws.engine_pair (Engine.log l) ++ Engine.frontier l) ->
    In p (map Laws.engine_pair (Engine.log l')).
Proof.
  induction fuel as [| fuel IH]; intros l l' p Hdr Hin;
    cbn [Engine.drain] in Hdr;
    destruct (Engine.iteration E D l) as [l1 |] eqn:Hit;
    try discriminate.
  - injection Hdr as <-. apply engine_iteration_none in Hit.
    rewrite Hit, app_nil_r in Hin. exact Hin.
  - apply (IH l1 l' p Hdr). apply (engine_iteration_keeps l l1 p Hit Hin).
  - injection Hdr as <-. apply engine_iteration_none in Hit.
    rewrite Hit, app_nil_r in Hin. exact Hin.
Qed.

(** [AlanCore.process] completes: from some amount of fuel on, the
    loop is left with an empty frontier, every pair that was queued
    has its event, and every event has its entry in the results. *)
Lemma engine_process_completes (raw_input : string) (s : Engine.State) :
  exists fuel, forall extra,
    exists processed l,
      Engine.process_loop E D (fuel + extra) raw_input s
      = Some (processed, l)
      /\ Engine.frontier l = []
      /\ Forall2 (Laws.engine_recorded D) (Engine.log l) (Engine.results l).
Proof.
  unfold Engine.process_loop. cbv zeta.
  destruct (Engine.write E "user_input" _ false s) as [item s0].
  destruct (Engine.plan E _ (Engine.world s0)) as [tasks w].
  set (start := {| Engine.frontier := map (fun t => (t, 1)) tasks;
                   Engine.results := []; Engine.log := [];
                   Engine.state := {| Engine.world := w;
                                      Engine.memory := Engine.memory s0 |} |}).
  exists (Laws.engine_budget D (Engine.frontier start)). intros extra.
  destruct (engine_drain_terminates E D _ start (le_n _)) as [l1 Hdr].
  rewrite (engine_drain_more_fuel E D _ start l1 extra Hdr).
  destruct (Engine.write E "last_results" _ false _) as [item1 s1].
  eexists _, _. split; [reflexivity|]. cbn [Engine.frontier Engine.log
                                             Engine.results].
  split.
  - apply (engine_drain_frontier E D _ _ _ Hdr).
  - apply (engine_drain_recorded E D _ _ _ Hdr). constructor.
Qed.
End EngineCompletion.

Section CoreCompletion.
Variable E : Env.
Variable D : nat.

Lemma core_weight_pos (p : Core.Task.t * nat) : 1 <= Laws.core_weight D p.
Proof.
  unfold Laws.core_weight.
  destruct (D <? snd p)%nat; [lia|].
  destruct (Laws.core_fixes (fst p)); lia.
Qed.

Lemma core_iteration_budget (l l' : Core.Loop) :
  Core.iteration E D l = Some (Core.Next l') ->
  S (Laws.core_budget D (Core.frontier l'))
  = Laws.core_budget D (Core.frontier l).
Proof.
  intros Hit.
  destruct (core_iteration_cases E D l _ Hit)
    as (task & depth & rest & Hf
        & [[Hd Hp] | [[Hd (e & s1 & Hex & Hp)] | [Hd (res & s1 & Hex & Hp)]]]);
    try discriminate; injection Hp as ->; rewrite Hf;
    unfold Laws.core_budget; cbn [Core.frontier map list_sum fold_right].
  - unfold Laws.core_weight at 2. cbn [fst snd].
    apply Nat.ltb_lt in Hd. rewrite Hd. reflexivity.
  - unfold Laws.core_weight at 2. cbn [fst snd].
    apply Nat.ltb_ge in Hd. rewrite Hd.
    destruct (Laws.core_fixes task); [| reflexivity].
    cbn [map list_sum fold_right].
    unfold Laws.core_weight at 1. cbn [fst snd].
    destruct (D <? depth + 1)%nat; reflexivity.
Qed.

(** With fuel for the budget of the frontier, the loop ends: it is
    left, or an exception leaves it. *)
Lemma core_drain_terminates (fuel : nat) :
  forall l,
    Laws.core_budget D (Core.frontier l) <= fuel ->
    exists p, Core.drain E D fuel l = Some p.
Proof.
  induction fuel as [| fuel IH]; intros l Hb; cbn [Core.drain];
    destruct (Core.iteration E D l) as [[l1 | e l1] |] eqn:Hit;
    try (eexists; reflexivity).
  - apply core_iteration_budget in Hit. lia.
  - apply IH. apply core_iteration_budget in Hit. lia.
Qed.

Lemma core_drain_more_fuel (fuel : nat) :
  forall l p extra,
    Core.drain E D fuel l = Some p ->
    Core.drain E D (fuel + extra) l = Some p.
Proof.
  induction fuel as [| fuel IH]; intros l p extra Hdr.
  - cbn [Core.drain] in Hdr.
    destruct (Core.iteration E D l) as [[l1 | e l1] |] eqn:Hit;
      try discriminate;
      destruct (0 + extra); cbn [Core.drain]; rewrite Hit; exact Hdr.
  - cbn [Core.drain Nat.add] in *.
    destruct (Core.iteration E D l) as [[l1 | e l1] |]; try exact Hdr.
    apply IH. exact Hdr.
Qed.

(** When no hook raises, [execute] returns. *)
Lemma core_execute_returns (task : Core.Task.t) (s : Core.State) :
  Laws.hook_never_raises E ->
  exists res s1, Core.execute E task s = (Ok res, s1).
Proof.
  intros Hhook. unfold Core.execute, now_ts. cbv zeta.
  assert (Hd : exists result w2,
             Core.dispatch E (Core.Task.description task)
               {| uuid_calls := uuid_calls (Core.world s);
                  clock_calls := S (clock_calls (Core.world s));
                  llm_calls := llm_calls (Core.world s);
                  shell_calls := shell_calls (Core.world s) |}
             = (Ok result, w2)).
  { unfold Core.dispatch. cbv zeta.
    repeat match goal with
           | |- context [if ?c then _ else _] =>
               destruct c; [eexists _, _; reflexivity|]
           end.
    unfold Laws.hook_never_raises in Hhook.
    destruct (llm_call E) as [hook |]; [| eexists _, _; reflexivity].
    destruct (Hhook (llm_calls (Core.world s)) (Core.Task.description task))
      as [answer Ha].
    cbn [llm_calls]. rewrite Ha. eexists _, _; reflexivity. }
  destruct Hd as (result & w2 & ->).
  destruct (Core.write E "task_result" _ false _) as [item s3].
  eexists _, _. reflexivity.
Qed.

Lemma core_drain_returns (fuel : nat) :
  Laws.hook_never_raises E ->
  forall l p, Core.drain E D fuel l = Some p -> exists l', p = Core.Next l'.
Proof.
  intros Hhook.
  induction fuel as [| fuel IH]; intros l p Hdr; cbn [Core.drain] in Hdr;
    destruct (Core.iteration E D l) as [[l1 | e l1] |] eqn:Hit;
    try discriminate;
    try (injection Hdr as <-; eexists; reflexivity);
    try (apply (IH l1 p Hdr)).
  all: exfalso;
    destruct (core_iteration_cases E D l _ Hit)
      as (task & depth & rest & Hf
          & [[Hd Hp] | [[Hd (e' & s1 & Hex & Hp)]
                       | [Hd (res & s1 & Hex & Hp)]]]);
    try discriminate;
    destruct (core_execute_returns task (Core.state l) Hhook)
      as (res & s2 & Hok);
    rewrite Hok in Hex; discriminate.
Qed.

(** [HRM.run] completes when no hook raises. *)
Lemma core_run_completes (processed_input : pydict) (s : Core.State) :
  Laws.hook_never_raises E ->
  exists fuel, forall extra,
    exists results s',
      Core.run E D (fuel + extra) processed_input s = Some (Ok (results, s')).
Proof.
  intros Hhook. unfold Core.run. cbv zeta.
  destruct (Core.plan E processed_input (Core.world s)) as [tasks w].
  set (start := {| Core.frontier := map (fun t => (t, 1)) tasks;
                   Core.results := []; Core.log := [];
                   Core.state := {| Core.world := w;
                                    Core.memory := Core.memory s;
                                    Core.disk := Core.disk s |} |}).
  exists (Laws.core_budget D (Core.frontier start)). intros extra.
  destruct (core_drain_terminates _ start (le_n _)) as [p Hdr].
  destruct (core_drain_returns _ Hhook _ _ Hdr) as [l' ->].
  rewrite (core_drain_more_fuel _ start _ extra Hdr).
  destruct (Core.write E "last_results" _ false _) as [item1 s1].
  eexists _, _. reflexivity.
Qed.
End CoreCompletion.

(* ================================================================== *)
(** * Worker: failures of the outside capabilities *)
(* ================================================================== *)

Section WorkerFailures.
Variable E : Env.

(** [run_shell] returns a dictionary whatever the command does: the
    text under "stdout", or the message of the exception under
    "error". *)
Lemma run_shell_captures (cmd : string) (w : World) :
  let answer := fst (Core.run_shell E cmd w) in
  match check_output E (shell_calls w) cmd with
  | Raise e => answer = [("error", PStr (str_exn e))]
  | Ok out =>
      match decode_utf8 E out with
      | Raise e => answer = [("error", PStr (str_exn e))]
      | Ok text => answer = [("stdout", PStr text)]
      end
  end.
Proof.
  unfold Core.run_shell. cbv zeta.
  destruct (check_output E (shell_calls w) cmd) as [out | e];
    [destruct (decode_utf8 E out) |]; reflexivity.
Qed.

(** On a description no rule matches, what the hook raises leaves
    [execute]: no result is built and no "task_result" is written. *)
Lemma execute_propagates (hook : nat -> string -> outcome pyval)
      (task : Core.Task.t) (s : Core.State) (e : exn) :
  llm_call E = Some hook ->
  hook (llm_calls (Core.world s)) (Core.Task.description task) = Raise e ->
  Laws.core_unmatched (Core.Task.description task) = true ->
  fst (Core.execute E task s) = Raise e
  /\ Core.memory (snd (Core.execute E task s)) = Core.memory s.
Proof.
  intros Hhook Hraise Hun.
  unfold Core.execute, now_ts, Core.dispatch. cbv zeta.
  unfold Laws.core_unmatched in Hun. cbv zeta in Hun.
  repeat match goal with
         | |- context [if ?c then _ else _] =>
             destruct c; [cbn in Hun; discriminate Hun|]
         end.
  rewrite Hhook. cbn [llm_calls]. rewrite Hraise. split; reflexivity.
Qed.
End WorkerFailures.

(** C7, at the failing input: [Worker.execute] of the task "analyze"
    (which [Planner.decompose] emits and no rule of the worker matches)
    with a hook that raises.  The exception is the outcome of
    [execute]; no result with an "error" key is built, and the memory
    gets no "task_result". *)
Theorem execute_hook_exception_escapes :
  let task := {| Core.Task.id := "t-1"; Core.Task.description := "analyze";
                 Core.Task.depth := 1; Core.Task.priority := 5;
                 Core.Task.metadata := [] |} in
  fst (Core.execute Sample.env_raising_hook task (Core.init []))
  = Raise Sample.boom
  /\ Core.memory (snd (Core.execute Sample.env_raising_hook task (Core.init [])))
     = Core.memory (Core.init []).
Proof.
  cbv zeta. split; vm_compute; reflexivity.
Qed.

(** C6, at the failing input: [HRM.run] on a question, with a hook that
    raises.  The plan is the single task "analyze"; the hook is called
    for it, and its exception is the outcome of the run, whatever the
    fuel: no result list is returned. *)
Theorem run_hook_exception_ends_run (fuel : nat) :
  Core.run Sample.env_raising_hook Core.max_depth fuel Sample.status_request
           (Core.init [])
  = Some (Raise Sample.boom).
Proof.
  destruct fuel; vm_compute; reflexivity.
Qed.

(* ================================================================== *)
(** * The order of spawned children *)
(* ================================================================== *)

Section SpawnOrder.
Variable E : Env.
Variable D : nat.

Lemma engine_drain_step (fuel : nat) (l l1 l' : Engine.Loop) :
  Engine.iteration E D l = Some l1 ->
  Engine.drain E D fuel l = Some l' ->
  exists fuel', fuel = S fuel' /\ Engine.drain E D fuel' l1 = Some l'.
Proof.
  intros Hit Hdr.
  destruct fuel as [| fuel']; cbn [Engine.drain] in Hdr; rewrite Hit in Hdr;
    [discriminate|].
  exists fuel'. split; [reflexivity | exact Hdr].
Qed.

Lemma core_drain_step (fuel : nat) (l l1 : Core.Loop) (p : Core.progress) :
  Core.iteration E D l = Some (Core.Next l1) ->
  Core.drain E D fuel l = Some p ->
  exists fuel', fuel = S fuel' /\ Core.drain E D fuel' l1 = Some p.
Proof.
  intros Hit Hdr.
  destruct fuel as [| fuel']; cbn [Core.drain] in Hdr; rewrite Hit in Hdr;
    [discriminate|].
  exists fuel'. split; [reflexivity | exact Hdr].
Qed.

Lemma core_drain_appends (fuel : nat) :
  forall l l',
    Core.drain E D fuel l = Some (Core.Next l') ->
    exists later, Core.results l' = Core.results l ++ later.
Proof.
  induction fuel as [| fuel IH]; intros l l' Hdr; cbn [Core.drain] in Hdr;
    destruct (Core.iteration E D l) as [[l1 | e l1] |] eqn:Hit;
    try discriminate;
    try (injection Hdr as <-; exists []; rewrite app_nil_r; reflexivity).
  destruct (IH l1 l' Hdr) as [later Hlater].
  assert (Hone : exists e, Core.results l1 = Core.results l ++ [e]).
  { destruct (core_iteration_cases E D l _ Hit)
      as (task & depth & rest & Hf
          & [[Hd Hp] | [[Hd (e' & s1 & Hex & Hp)]
                       | [Hd (res & s1 & Hex & Hp)]]]);
      try discriminate; injection Hp as ->; eexists; reflexivity. }
  destruct Hone as [e He]. exists (e :: later).
  rewrite Hlater, He, <- app_assoc. reflexivity.
Qed.

(** The engine: a task that spawns is followed in the results by
    "create src folder", then by "create README", and only then by
    what the pairs queued behind it produce. *)
Lemma engine_spawn_order (fuel : nat) (l l' : Engine.Loop) task depth rest :
  Engine.frontier l = (task, depth) :: rest ->
  Engine.spawns D task depth = true ->
  Engine.drain E D fuel l = Some l' ->
  exists t0 i1 r1 t1 i2 r2 t2 mid fuel' later,
    Engine.frontier mid = rest
    /\ Engine.results mid
       = Engine.results l
         ++ [ExecutionResult (Engine.Task.id task)
                             (Engine.Task.description task)
                             (Engine.dispatch (Engine.Task.description task))
                             t0;
             ExecutionResult i1 "create src folder" r1 t1;
             ExecutionResult i2 "create README" r2 t2]
    /\ Engine.drain E D fuel' mid = Some l'
    /\ Engine.results l' = Engine.results mid ++ later.
Proof.
  intros Hf Hs Hdr.
  assert (Hlt : depth < D).
  { unfold Engine.spawns in Hs. apply andb_prop in Hs as [_ Hlt].
    apply Nat.ltb_lt in Hlt. exact Hlt. }
  pose proof (engine_iteration_spawn E D l task depth rest Hf Hs) as Hit1.
  cbv zeta in Hit1.
  destruct (engine_drain_step _ _ _ _ Hit1 Hdr) as (f1 & -> & Hdr1).
  match type of Hit1 with
  | context [(?c2, depth + 1) :: (?c1, depth + 1) :: rest] =>
      set (child2 := c2) in *; set (child1 := c1) in *
  end.
  match type of Hit1 with _ = Some ?x => set (l1 := x) in * end.
  assert (Hit2 : Engine.iteration E D l1 = _)
    by (apply (engine_iteration_plain E D l1 child2 (depth + 1)
                 ((child1, depth + 1) :: rest) eq_refl);
        [lia | reflexivity]).
  destruct (engine_drain_step _ _ _ _ Hit2 Hdr1) as (f2 & -> & Hdr2).
  match type of Hit2 with _ = Some ?x => set (l2 := x) in * end.
  assert (Hit3 : Engine.iteration E D l2 = _)
    by (apply (engine_iteration_plain E D l2 child1 (depth + 1) rest eq_refl);
        [lia | reflexivity]).
  destruct (engine_drain_step _ _ _ _ Hit3 Hdr2) as (f3 & -> & Hdr3).
  match type of Hit3 with _ = Some ?x => set (l3 := x) in * end.
  destruct (engine_drain_appends E D f3 l3 l' Hdr3) as [later Hlater].
  destruct (engine_execute_entry E task (Engine.state l)) as [t0 H0].
  destruct (engine_execute_entry E child2 (Engine.state l1)) as [t1 H1].
  destruct (engine_execute_entry E child1 (Engine.state l2)) as [t2 H2].
  exists t0, (Engine.Task.id child2),
    (Engine.dispatch (Engine.Task.description child2)), t1,
    (Engine.Task.id child1),
    (Engine.dispatch (Engine.Task.description child1)), t2, l3, f3, later.
  split; [reflexivity|]. split; [| split; [exact Hdr3 | exact Hlater]].
  subst l3. cbn [Engine.results]. rewrite H2.
  subst l2. cbn [Engine.results]. rewrite H1.
  subst l1. cbn [Engine.results]. rewrite H0.
  rewrite <- !app_assoc. reflexivity.
Qed.

(** [HRM.run]: a task whose result says "fixed" is followed in the
    results by its "verify fix", executed or skipped, and only then by
    what the pairs queued behind it produce. *)
Lemma core_spawn_order (fuel : nat) (l l' : Core.Loop) task depth rest
      res s1 :
  Core.frontier l = (task, depth) :: rest ->
  depth <= D ->
  Core.execute E task (Core.state l) = (Ok res, s1) ->
  Core.signals_fixed res = true ->
  Core.drain E D fuel l = Some (Core.Next l') ->
  exists child mid fuel' later,
    entry_description child = "verify fix"
    /\ is_skipped child = (D <? depth + 1)%nat
    /\ Core.frontier mid = rest
    /\ Core.results mid = Core.results l ++ [res; child]
    /\ Core.drain E D fuel' mid = Some (Core.Next l')
    /\ Core.results l' = Core.results mid ++ later.
Proof.
  intros Hf Hd Hex Hfix Hdr.
  destruct (core_execute_ok E task _ _ _ Hex) as [_ Hfixes].
  rewrite Hfix in Hfixes. symmetry in Hfixes.
  assert (Hit1 : Core.iteration E D l
                 = Some (Core.Next
                           {| Core.frontier :=
                                (Core.verify_task task depth, depth + 1)
                                  :: rest;
                              Core.results := Core.results l ++ [res];
                              Core.log :=
                                Core.log l ++ [Core.CallExecute task depth];
                              Core.state := s1 |})).
  { unfold Core.iteration. rewrite Hf.
    apply Nat.ltb_ge in Hd. rewrite Hd, Hex, Hfix. reflexivity. }
  destruct (core_drain_step _ _ _ _ Hit1 Hdr) as (f1 & -> & Hdr1).
  match type of Hit1 with _ = Some (Core.Next ?x) => set (l1 := x) in * end.
  set (v := Core.verify_task task depth) in *.
  destruct (Nat.ltb_spec D (depth + 1)) as [Hlt | Hge].
  - pose proof (core_iteration_skip E D l1 v (depth + 1) rest eq_refl Hlt)
      as Hit2.
    destruct (core_drain_step _ _ _ _ Hit2 Hdr1) as (f2 & -> & Hdr2).
    match type of Hit2 with _ = Some (Core.Next ?x) => set (l2 := x) in * end.
    destruct (core_drain_appends f2 l2 l' Hdr2) as [later Hlater].
    exists (SkippedMarker "verify fix"), l2, f2, later.
    repeat split; try reflexivity; try assumption.
    subst l2 l1. cbn [Core.results]. rewrite <- app_assoc. reflexivity.
  - destruct (Core.execute E v (Core.state l1)) as [[res' | e'] s2] eqn:Hex'.
    + destruct (core_execute_ok E v _ _ _ Hex') as [(result & t & Hres) Hfix'].
      assert (Hit2 : Core.iteration E D l1
                     = Some (Core.Next
                               {| Core.frontier := rest;
                                  Core.results := Core.results l1 ++ [res'];
                                  Core.log :=
                                    Core.log l1
                                    ++ [Core.CallExecute v (depth + 1)];
                                  Core.state := s2 |})).
      { unfold Core.iteration. subst l1. cbn [Core.frontier Core.state] in *.
        apply Nat.ltb_ge in Hge. rewrite Hge, Hex', Hfix'. reflexivity. }
      destruct (core_drain_step _ _ _ _ Hit2 Hdr1) as (f2 & -> & Hdr2).
      match type of Hit2 with _ = Some (Core.Next ?x) => set (l2 := x) in * end.
      destruct (core_drain_appends f2 l2 l' Hdr2) as [later Hlater].
      exists res', l2, f2, later. rewrite Hres at 1 2.
      repeat split; try reflexivity; try assumption.
      subst l2 l1. cbn [Core.results]. rewrite <- app_assoc. reflexivity.
    + exfalso.
      assert (Hit2 : exists lr, Core.iteration E D l1 = Some (Core.Raised e' lr)).
      { unfold Core.iteration. subst l1. cbn [Core.frontier Core.state] in *.
        apply Nat.ltb_ge in Hge. rewrite Hge, Hex'. eexists. reflexivity. }
      destruct Hit2 as [lr Hit2].
      destruct f1; cbn [Core.drain] in Hdr1; rewrite Hit2 in Hdr1;
        discriminate.
Qed.
End SpawnOrder.




(* ================================================================== *)
(** * Dictionaries *)
(* ================================================================== *)

Section DictFacts.
Context {V : Type}.

Lemma dict_get_set_same (k : string) (v : V) (d : list (string * V)) :
  dict_get k (dict_set k v d) = Some v.
Proof.
  induction d as [| [k' v'] d IH]; cbn.
  - rewrite String.eqb_refl. reflexivity.
  - destruct (String.eqb k k') eqn:Hk; cbn.
    + rewrite String.eqb_refl. reflexivity.
    + rewrite Hk. exact IH.
Qed.

Lemma dict_get_set_other (k k' : string) (v : V) (d : list (string * V)) :
  k <> k' -> dict_get k (dict_set k' v d) = dict_get k d.
Proof.
  intros Hne.
  assert (Hkk : String.eqb k k' = false) by (apply String.eqb_neq; exact Hne).
  induction d as [| [k0 v0] d IH]; cbn.
  - rewrite Hkk. reflexivity.
  - destruct (String.eqb k' k0) eqn:Hk0; cbn.
    + apply String.eqb_eq in Hk0. subst k0. rewrite Hkk. reflexivity.
    + destruct (String.eqb k k0); [reflexivity | exact IH].
Qed.

(** A new key goes last. *)
Lemma dict_set_fresh (k : string) (v : V) (d : list (string * V)) :
  ~ In k (dict_keys d) -> dict_set k v d = d ++ [(k, v)].
Proof.
  induction d as [| [k' v'] d IH]; cbn; intros Hnot; [reflexivity|].
  destruct (String.eqb k k') eqn:Hk.
  - apply String.eqb_eq in Hk. subst k'. exfalso. apply Hnot. left. reflexivity.
  - rewrite IH; [reflexivity|]. intros Hin. apply Hnot. right. exact Hin.
Qed.

(** The keys of a dictionary never repeat. *)
Lemma dict_set_keys_nodup (k : string) (v : V) (d : list (string * V)) :
  NoDup (dict_keys d) -> NoDup (dict_keys (dict_set k v d)).
Proof.
  unfold dict_keys.
  induction d as [| [k' v'] d IH]; cbn; intros Hnd.
  - constructor; [intros [] | constructor].
  - inversion Hnd as [| ? ? Hnot Hnd']; subst.
    destruct (String.eqb k k') eqn:Hk; cbn.
    + apply String.eqb_eq in Hk. subst k'. constructor; assumption.
    + constructor; [| apply IH; exact Hnd'].
      intros Hin. apply Hnot.
      clear IH Hnd Hnd' Hnot.
      induction d as [| [k0 v0] d IHd]; cbn in *.
      * destruct Hin as [Hin | []]. subst k'.
        rewrite String.eqb_refl in Hk. discriminate.
      * destruct (String.eqb k k0) eqn:Hk0; cbn in *.
        -- apply String.eqb_eq in Hk0. subst k0.
           destruct Hin as [Hin | Hin]; [| right; exact Hin].
           subst k'. rewrite String.eqb_refl in Hk. discriminate.
        -- destruct Hin as [Hin | Hin]; [left; exact Hin | right; auto].
Qed.

(** Assigning pairs with distinct new keys, in order, appends them. *)
Lemma dict_build_fresh (l acc : list (string * V)) :
  NoDup (dict_keys (acc ++ l)) ->
  fold_left (fun d kv => dict_set (fst kv) (snd kv) d) l acc = acc ++ l.
Proof.
  revert acc. induction l as [| [k v] l IH]; intros acc Hnd; cbn.
  - rewrite app_nil_r. reflexivity.
  - rewrite dict_set_fresh.
    + rewrite IH; rewrite <- app_assoc; [reflexivity | exact Hnd].
    + unfold dict_keys in *. rewrite map_app in Hnd.
      apply NoDup_remove_2 in Hnd. intros Hin. apply Hnd.
      apply in_or_app. left. exact Hin.
Qed.
End DictFacts.

(* ================================================================== *)
(** * Memory: persistence of the long-term partition *)
(* ================================================================== *)

Section JsonValues.

Lemma distinct_nodup (l : list string) : Laws.distinct l = true -> NoDup l.
Proof.
  induction l as [| x l IH]; cbn; intros H; [constructor|].
  apply andb_true_iff in H as [Hx Hl]. constructor; [| auto].
  intros Hin. apply negb_true_iff in Hx.
  assert (Hex : existsb (String.eqb x) l = true).
  { apply existsb_exists. exists x. split; [exact Hin | apply String.eqb_refl]. }
  rewrite Hex in Hx. discriminate.
Qed.

Lemma all_ok_cons {A B : Type} (f : A -> outcome B) (x : A) (l : list A) :
  all_ok f (x :: l)
  = match f x with
    | Raise e => Raise e
    | Ok y => match all_ok f l with
              | Raise e => Raise e
              | Ok ys => Ok (y :: ys)
              end
    end.
Proof. reflexivity. Qed.

Lemma json_of_list (l : list pyval) :
  json_of (PList l)
  = match all_ok json_of l with
    | Raise e => Raise e
    | Ok js => Ok (JArray js)
    end.
Proof. reflexivity. Qed.

Lemma json_of_tuple (l : list pyval) : json_of (PTuple l) = json_of (PList l).
Proof. reflexivity. Qed.

Lemma json_of_dict (d : list (string * pyval)) :
  json_of (PDict d)
  = match all_ok Laws.json_member d with
    | Raise e => Raise e
    | Ok members => Ok (JObject members)
    end.
Proof. reflexivity. Qed.

Lemma py_of_object (members : list (string * json)) :
  py_of (JObject members)
  = PDict (fold_left (fun acc (kv : string * json) =>
                        let (k, x) := kv in dict_set k (py_of x) acc)
                     members []).
Proof. reflexivity. Qed.

(** Reading back the members of an encoded dictionary whose keys are
    new gives the dictionary. *)
Lemma py_of_members (d : list (string * pyval)) :
  forall (members : list (string * json)) (acc : list (string * pyval)),
    Forall2 (fun (kv : string * pyval) (m : string * json) =>
               fst m = fst kv /\ py_of (snd m) = snd kv) d members ->
    NoDup (dict_keys (acc ++ d)) ->
    fold_left (fun acc (kv : string * json) =>
                 let (k, x) := kv in dict_set k (py_of x) acc)
              members acc
    = acc ++ d.
Proof.
  induction d as [| [k x] d IH]; intros members acc Hall Hnd;
    inversion Hall as [| ? [k' j] ? ? [Hk Hj] Hrest]; subst; cbn [fold_left].
  - rewrite app_nil_r. reflexivity.
  - cbn [fst snd] in Hk, Hj. subst k'. rewrite Hj.
    rewrite dict_set_fresh.
    + rewrite (IH _ _ Hrest); rewrite <- app_assoc; [reflexivity | exact Hnd].
    + unfold dict_keys in *. rewrite map_app in Hnd.
      apply NoDup_remove_2 in Hnd. intros Hin. apply Hnd.
      apply in_or_app. left. exact Hin.
Qed.

(** A JSON-native value is written, and read back as it was. *)
Lemma json_round_trip (v : pyval) :
  Laws.json_native v = true ->
  exists j, json_of v = Ok j /\ py_of j = v.
Proof.
  induction v as [| b | q | s | l IH | d IH | l IH | name truth | z]
    using Laws.pyval_induction; intros Hn; try discriminate Hn.
  - exists JNull. split; reflexivity.
  - exists (JBool b). split; reflexivity.
  - exists (JNumber q). split; reflexivity.
  - exists (JString s). split; reflexivity.
  - assert (Hl : exists js, all_ok json_of l = Ok js /\ map py_of js = l).
    { cbn [Laws.json_native] in Hn.
      induction IH as [| x l Hx _ IHl]; [exists []; split; reflexivity|].
      cbn [forallb] in Hn. apply andb_true_iff in Hn as [Hnx Hnl].
      destruct (Hx Hnx) as (j & Hj & Hback).
      destruct (IHl Hnl) as (js & Hjs & Hbacks).
      exists (j :: js). rewrite all_ok_cons, Hj, Hjs. cbn [map].
      rewrite Hback, Hbacks. split; reflexivity. }
    destruct Hl as (js & Hjs & Hback).
    exists (JArray js). rewrite json_of_list, Hjs. cbn [py_of].
    rewrite Hback. split; reflexivity.
  - cbn [Laws.json_native] in Hn. apply andb_true_iff in Hn as [Hkeys Hn].
    apply distinct_nodup in Hkeys.
    assert (Hd : exists members,
               all_ok Laws.json_member d = Ok members
               /\ Forall2 (fun (kv : string * pyval) (m : string * json) =>
                             fst m = fst kv /\ py_of (snd m) = snd kv)
                          d members).
    { clear Hkeys.
      induction IH as [| [k x] d Hx _ IHd];
        [exists []; split; [reflexivity | constructor]|].
      cbn [forallb] in Hn. apply andb_true_iff in Hn as [Hnx Hnd].
      cbn [snd] in Hx. destruct (Hx Hnx) as (j & Hj & Hback).
      destruct (IHd Hnd) as (members & Hmembers & Hall).
      exists ((k, j) :: members). rewrite all_ok_cons.
      unfold Laws.json_member at 1. rewrite Hj, Hmembers.
      split; [reflexivity|]. constructor; [| exact Hall].
      split; [reflexivity | exact Hback]. }
    destruct Hd as (members & Hmembers & Hall).
    exists (JObject members). rewrite json_of_dict, Hmembers.
    split; [reflexivity|].
    rewrite py_of_object, (py_of_members d members [] Hall Hkeys).
    reflexivity.
  - exists (JInteger z). split; reflexivity.
Qed.

Lemma json_image_native (v : pyval) :
  Laws.json_native v = true ->
  json_of v = Ok (Laws.json_image v) /\ py_of (Laws.json_image v) = v.
Proof.
  intros Hn. destruct (json_round_trip v Hn) as (j & Hj & Hback).
  unfold Laws.json_image. rewrite Hj. split; [reflexivity | exact Hback].
Qed.
End JsonValues.

Section Persistence.
Variable E : Env.

Lemma json_dump_dicts (l : list Core.MemoryItem.t) :
  Laws.native_items l ->
  Core.json_dump (map Laws.as_dict_entry l) = Ok (map Laws.as_json_entry l).
Proof.
  induction 1 as [| i l Hi _ IH]; cbn [map Core.json_dump Laws.as_dict_entry];
    [reflexivity|].
  destruct (json_image_native _ Hi) as [Hj _]. rewrite Hj.
  fold (Laws.as_dict_entry). change (map (fun i0 => Laws.as_dict_entry i0) l)
    with (map Laws.as_dict_entry l).
  rewrite IH. reflexivity.
Qed.

Lemma keys_as_dict (l : list Core.MemoryItem.t) :
  dict_keys (map Laws.as_dict_entry l) = map Core.MemoryItem.id l.
Proof. unfold dict_keys. rewrite map_map. reflexivity. Qed.

Lemma keys_as_json (l : list Core.MemoryItem.t) :
  dict_keys (map Laws.as_json_entry l) = map Core.MemoryItem.id l.
Proof. unfold dict_keys. rewrite map_map. reflexivity. Qed.

Lemma load_items_objects (l : list Core.MemoryItem.t) :
  forall acc,
    Laws.native_items l ->
    NoDup (dict_keys acc ++ map Core.MemoryItem.id l) ->
    Core.load_items (map Laws.as_json_entry l) acc
    = acc ++ map Laws.as_object_entry l.
Proof.
  induction l as [| i l IH]; intros acc Hnat Hnd;
    cbn [map Core.load_items Laws.as_json_entry].
  - rewrite app_nil_r. reflexivity.
  - inversion Hnat as [| ? ? Hi Hrest]; subst.
    destruct (json_image_native _ Hi) as [_ Hback]. rewrite Hback.
    assert (Heta : {| Core.MemoryItem.id := Core.MemoryItem.id i;
                      Core.MemoryItem.ts := Core.MemoryItem.ts i;
                      Core.MemoryItem.kind := Core.MemoryItem.kind i;
                      Core.MemoryItem.content := Core.MemoryItem.content i |}
                   = i) by (destruct i; reflexivity).
    rewrite Heta. rewrite dict_set_fresh.
    + change (map (fun i0 => Laws.as_json_entry i0) l)
        with (map Laws.as_json_entry l).
      rewrite (IH _ Hrest); [rewrite <- app_assoc; reflexivity|].
      unfold dict_keys in *. rewrite map_app, <- app_assoc. exact Hnd.
    + cbn [map] in Hnd. apply NoDup_remove_2 in Hnd. intros Hin. apply Hnd.
      apply in_or_app. left. exact Hin.
Qed.

(** Long-term writes with identifiers that are new append to the
    dictionary, in order, and leave the path alone. *)
Lemma core_writes_long (calls : list (string * pyval)) :
  forall (s : Core.State) (acc : list Core.MemoryItem.t),
    Core.long (Core.memory s) = map Laws.as_dict_entry acc ->
    NoDup (map Core.MemoryItem.id acc
           ++ map (uuid4 E) (seq (uuid_calls (Core.world s)) (length calls))) ->
    Core.long (Core.memory (snd (Calls.core_writes E true calls s)))
    = map Laws.as_dict_entry (acc ++ fst (Calls.core_writes E true calls s))
    /\ map Core.MemoryItem.id (fst (Calls.core_writes E true calls s))
       = map (uuid4 E) (seq (uuid_calls (Core.world s)) (length calls))
    /\ Core.long_term_path (Core.memory (snd (Calls.core_writes E true calls s)))
       = Core.long_term_path (Core.memory s).
Proof.
  induction calls as [| [k c] calls IH]; intros s acc Hlong Hnd;
    cbn [Calls.core_writes fst snd length seq map].
  - rewrite app_nil_r. auto.
  - destruct (Core.write E k c true s) as [item s1] eqn:Hw.
    unfold Core.write, fresh_uuid, now_ts in Hw. cbn in Hw.
    injection Hw as Hitem Hs1.
    assert (Hid : Core.MemoryItem.id item = uuid4 E (uuid_calls (Core.world s)))
      by (rewrite <- Hitem; reflexivity).
    assert (Hlong1 : Core.long (Core.memory s1)
                     = map Laws.as_dict_entry (acc ++ [item])).
    { rewrite <- Hs1. cbn [Core.long Core.memory]. rewrite Hlong.
      rewrite dict_set_fresh.
      - rewrite map_app. cbn. unfold Laws.as_dict_entry at 3.
        rewrite <- Hitem. reflexivity.
      - rewrite keys_as_dict. cbn [map seq length] in Hnd.
        apply NoDup_remove_2 in Hnd. intros Hin. apply Hnd.
        apply in_or_app. left. exact Hin. }
    assert (Hcalls1 : uuid_calls (Core.world s1) = S (uuid_calls (Core.world s)))
      by (rewrite <- Hs1; reflexivity).
    assert (Hpath1 : Core.long_term_path (Core.memory s1)
                     = Core.long_term_path (Core.memory s))
      by (rewrite <- Hs1; reflexivity).
    specialize (IH s1 (acc ++ [item]) Hlong1).
    rewrite Hcalls1 in IH.
    assert (Hnd1 : NoDup (map Core.MemoryItem.id (acc ++ [item])
                          ++ map (uuid4 E)
                                 (seq (S (uuid_calls (Core.world s)))
                                      (length calls)))).
    { rewrite map_app, <- app_assoc. cbn [map app]. rewrite Hid. exact Hnd. }
    destruct (IH Hnd1) as (IH1 & IH2 & IH3).
    destruct (Calls.core_writes E true calls s1) as [items s2].
    cbn [fst snd map] in *.
    rewrite IH1, <- app_assoc, IH2, IH3, Hid, Hpath1. auto.
Qed.

(** The contents of the items written are those of the calls. *)
Lemma core_writes_contents (b : bool) (calls : list (string * pyval)) :
  forall s : Core.State,
    map (fun i => (Core.MemoryItem.kind i, Core.MemoryItem.content i))
        (fst (Calls.core_writes E b calls s))
    = calls.
Proof.
  induction calls as [| [k c] calls IH]; intros s;
    cbn [Calls.core_writes fst map]; [reflexivity|].
  destruct (Core.write E k c b s) as [item s1] eqn:Hw.
  assert (Hitem : Core.MemoryItem.kind item = k
                  /\ Core.MemoryItem.content item = c).
  { unfold Core.write, fresh_uuid, now_ts in Hw. cbn in Hw.
    destruct b; injection Hw as Hitem _; rewrite <- Hitem; split; reflexivity. }
  destruct Hitem as [Hk Hc].
  specialize (IH s1). destruct (Calls.core_writes E b calls s1) as [items s2].
  cbn [fst map] in *. rewrite IH, Hk, Hc. reflexivity.
Qed.
End Persistence.




(* ================================================================== *)
(** * Memory: retrieval in [alan_core] *)
(* ================================================================== *)

Section CoreRetrieve.
Variable E : Env.

(** One [MemoryItem] object in the pool is enough for the scan to
    raise: the loop has no way out before the end of the pool. *)
Lemma scan_raises_on_object (q : string) (pool : list Core.stored) :
  forall acc,
    Exists Laws.is_object pool ->
    Core.scan E q pool acc = Raise Core.AttributeError_get.
Proof.
  induction pool as [| x pool IH]; intros acc Hex.
  - inversion Hex.
  - destruct x as [i | i]; cbn [Core.scan]; [| reflexivity].
    assert (Hrest : Exists Laws.is_object pool)
      by (inversion Hex as [? ? Hx | ? ? Hx]; subst; [destruct Hx | exact Hx]).
    destruct (contains q _ || contains q _); apply IH; exact Hrest.
Qed.

(** On dictionaries the scan returns, in pool order, those whose
    lower-cased content or whose kind holds [q]. *)
Lemma scan_dicts (q : string) (pool : list Core.stored) :
  forall acc,
    Forall Laws.is_dict pool ->
    Core.scan E q pool acc
    = Ok (acc
          ++ filter (fun x =>
                       contains q (lower (str E (Core.MemoryItem.content
                                                   (Core.stored_item x))))
                       || contains q (Core.MemoryItem.kind (Core.stored_item x)))
                    pool).
Proof.
  induction pool as [| x pool IH]; intros acc Hall; cbn [Core.scan filter].
  - rewrite app_nil_r. reflexivity.
  - inversion Hall as [| ? ? Hx Hrest]; subst.
    destruct x as [i | i]; [| destruct Hx]. cbn [Core.stored_item].
    destruct (contains q _ || contains q _).
    + rewrite (IH _ Hrest), <- app_assoc. reflexivity.
    + apply (IH _ Hrest).
Qed.

Lemma dict_set_values_forall {V : Type} (P : V -> Prop) (k : string) (v : V)
      (d : list (string * V)) :
  P v -> Forall P (dict_values d) -> Forall P (dict_values (dict_set k v d)).
Proof.
  unfold dict_values. intros Hv.
  induction d as [| [k' v'] d IH]; cbn; intros Hall.
  - constructor; [exact Hv | constructor].
  - inversion Hall; subst.
    destruct (String.eqb k k'); cbn; constructor; auto.
Qed.

(** What [__init__] loads are objects. *)
Lemma load_items_are_objects (data : list (string * Core.json_entry)) :
  forall acc,
    Forall Laws.is_object (dict_values acc) ->
    Forall Laws.is_object (dict_values (Core.load_items data acc)).
Proof.
  induction data as [| [k [fields |]] data IH]; intros acc Hall;
    cbn [Core.load_items]; try exact Hall.
  apply IH. apply dict_set_values_forall; [exact I | exact Hall].
Qed.

Lemma memory_init_objects (path : string) (d : Core.Disk) :
  Forall Laws.is_object (dict_values (Core.long (Core.Memory_init path d))).
Proof.
  unfold Core.Memory_init. cbn [Core.long].
  destruct (dict_get path d) as [[entries |] |]; try constructor.
  apply load_items_are_objects. constructor.
Qed.
End CoreRetrieve.

(** C10, at the failing input: a persistence file with one item, a
    memory constructed on it, and a query.  The long-term partition
    holds the item as a [MemoryItem] object, and [retrieve] raises the
    [AttributeError] of [i.get] on it instead of returning. *)
Theorem retrieve_after_load_raises :
  let m := Core.memory (Core.init Sample.saved_disk) in
  Core.long m = [("k1", Core.AsObject Sample.saved_item)]
  /\ Core.retrieve Sample.env (Some "milk") 10 m
     = Raise Core.AttributeError_get.
Proof.
  cbv zeta. split; vm_compute; reflexivity.
Qed.

(* ================================================================== *)
(** * Memory: the scored retrieval of the engine *)
(* ================================================================== *)

Section SortFacts.
Context {A : Type}.

Lemma insert_desc_perm (x : Q * A) (l : list (Q * A)) :
  Permutation (Engine.insert_desc x l) (x :: l).
Proof.
  induction l as [| y l IH]; cbn; [reflexivity|].
  destruct (Qle_bool (fst y) (fst x)); [reflexivity|].
  rewrite IH. apply perm_swap.
Qed.

Lemma sort_desc_perm (l : list (Q * A)) : Permutation (Engine.sort_desc l) l.
Proof.
  induction l as [| x l IH]; cbn; [reflexivity|].
  rewrite insert_desc_perm. constructor. exact IH.
Qed.

Lemma insert_desc_sorted (x : Q * A) (l : list (Q * A)) :
  StronglySorted Laws.key_desc l ->
  StronglySorted Laws.key_desc (Engine.insert_desc x l).
Proof.
  induction l as [| y l IH]; intros Hs; cbn.
  - constructor; constructor.
  - apply StronglySorted_inv in Hs as [Hs Hall].
    destruct (Qle_bool (fst y) (fst x)) eqn:Hle.
    + apply Qle_bool_iff in Hle.
      constructor; [constructor; assumption|].
      constructor; [exact Hle|].
      rewrite Forall_forall in *. intros z Hz. specialize (Hall z Hz).
      unfold Laws.key_desc in *. apply (Qle_trans _ (fst y)); assumption.
    + constructor; [apply IH; exact Hs|].
      assert (Hlt : (fst x < fst y)%Q).
      { apply Qnot_le_lt. intros Hc. apply Qle_bool_iff in Hc.
        rewrite Hc in Hle. discriminate. }
      rewrite Forall_forall in *. intros z Hz.
      apply (Permutation_in _ (insert_desc_perm x l)) in Hz.
      destruct Hz as [<- | Hz]; [| apply Hall; exact Hz].
      unfold Laws.key_desc. apply Qlt_le_weak. exact Hlt.
Qed.

Lemma sort_desc_sorted (l : list (Q * A)) :
  StronglySorted Laws.key_desc (Engine.sort_desc l).
Proof.
  induction l as [| x l IH]; cbn; [constructor|].
  apply insert_desc_sorted. exact IH.
Qed.

(** Insertion does not reorder the elements of one key. *)
Lemma insert_desc_with_key (k : Q) (x : Q * A) (l : list (Q * A)) :
  Laws.with_key k (Engine.insert_desc x l) = Laws.with_key k (x :: l).
Proof.
  unfold Laws.with_key.
  induction l as [| y l IH]; cbn [Engine.insert_desc]; [reflexivity|].
  destruct (Qle_bool (fst y) (fst x)) eqn:Hle; [reflexivity|].
  cbn [filter] in *. rewrite IH.
  destruct (Qeq_bool (fst x) k) eqn:Hx; [| reflexivity].
  destruct (Qeq_bool (fst y) k) eqn:Hy; [| reflexivity].
  exfalso. apply Qeq_bool_iff in Hx, Hy.
  assert (Hc : Qle_bool (fst y) (fst x) = true).
  { apply Qle_bool_iff. rewrite Hx, Hy. apply Qle_refl. }
  rewrite Hc in Hle. discriminate.
Qed.

(** The sort is stable. *)
Lemma sort_desc_stable (k : Q) (l : list (Q * A)) :
  Laws.with_key k (Engine.sort_desc l) = Laws.with_key k l.
Proof.
  induction l as [| x l IH]; cbn [Engine.sort_desc]; [reflexivity|].
  rewrite insert_desc_with_key. unfold Laws.with_key in *. cbn [filter].
  rewrite IH. reflexivity.
Qed.

Lemma sorted_after (l1 l2 : list (Q * A)) (x : Q * A) :
  StronglySorted Laws.key_desc (l1 ++ x :: l2) ->
  Forall (Laws.key_desc x) l2.
Proof.
  induction l1 as [| y l1 IH]; cbn; intros Hs;
    apply StronglySorted_inv in Hs as [Hs Hall]; [exact Hall | auto].
Qed.

(** In a sorted list, an element of greater key stands before. *)
Lemma sorted_greater_before (sorted l1 l2 : list (Q * A)) (a b : Q * A) :
  StronglySorted Laws.key_desc sorted ->
  In a sorted ->
  (fst b < fst a)%Q ->
  sorted = l1 ++ b :: l2 ->
  In a l1.
Proof.
  intros Hs Hin Hlt ->.
  apply in_app_or in Hin as [Hin | [Hin | Hin]]; [exact Hin | |].
  - subst a. exfalso. apply (Qlt_irrefl _ Hlt).
  - exfalso. pose proof (sorted_after _ _ _ Hs) as Hall.
    rewrite Forall_forall in Hall. specialize (Hall a Hin).
    unfold Laws.key_desc in Hall.
    apply (Qlt_irrefl (fst a)). apply (Qle_lt_trans _ (fst b)); assumption.
Qed.
End SortFacts.

Section EngineRetrieve.
Variable E : Env.

(** The score is the float sum of the keyword bonus, the recency term
    and the static score of the item, in this order. *)
Lemma score_formula (query : string) (now : Q) (item : Engine.MemoryItem.t) :
  Engine.score E query now item
  = fround E (fround E (Laws.bonus E query item
                        + Laws.recency E now (Engine.MemoryItem.timestamp item))
              + Engine.MemoryItem.score item)%Q.
Proof. reflexivity. Qed.

Lemma keyed_items (query : string) (l : list Engine.MemoryItem.t) :
  forall n, map snd (Engine.keyed E query n l) = l.
Proof.
  induction l as [| x l IH]; intros n; cbn; [reflexivity|].
  rewrite IH. reflexivity.
Qed.

(** The key of the [i]-th candidate is its score at the [i]-th reading
    of the clock. *)
Lemma keyed_nth (query : string) (l : list Engine.MemoryItem.t) :
  forall n i,
    nth_error (Engine.keyed E query n l) i
    = option_map (fun item => (Engine.score E query (clock E (n + i)) item, item))
                 (nth_error l i).
Proof.
  induction l as [| x l IH]; intros n i; destruct i as [| i]; cbn;
    try reflexivity.
  - rewrite Nat.add_0_r. reflexivity.
  - rewrite IH. rewrite Nat.add_succ_r. reflexivity.
Qed.

Lemma engine_retrieve_found (query : string) (limit : Z) (s : Engine.State) :
  (0 <= limit)%Z ->
  fst (Engine.retrieve E query limit s)
  = firstn (Z.to_nat limit)
           (map snd
                (Engine.sort_desc
                   (Engine.keyed E query (clock_calls (Engine.world s))
                      (Engine.short_term (Engine.memory s)
                       ++ dict_values (Engine.long_term (Engine.memory s)))))).
Proof.
  intros Hl. unfold Engine.retrieve, slice_to. cbn [fst].
  apply Z.leb_le in Hl. rewrite Hl. reflexivity.
Qed.

Hypothesis Hround : Laws.float_rounding E.

Lemma fround_le (x y : Q) : (x <= y)%Q -> (fround E x <= fround E y)%Q.
Proof. destruct Hround as [Hmono _]. apply Hmono. Qed.

Lemma fround_compat (x y : Q) : (x == y)%Q -> (fround E x == fround E y)%Q.
Proof.
  intros Heq. apply Qle_antisym; apply fround_le; rewrite Heq; apply Qle_refl.
Qed.

Lemma fround_0 : (fround E 0 == 0)%Q.
Proof. destruct Hround as (_ & H & _). exact H. Qed.

Lemma fround_1 : (fround E 1 == 1)%Q.
Proof. destruct Hround as (_ & _ & H & _). exact H. Qed.

Lemma fround_3600 : (fround E 3600 == 3600)%Q.
Proof. destruct Hround as (_ & _ & _ & H). exact H. Qed.

Lemma hours_le (x y : Q) : (x <= y)%Q -> (x / 3600 <= y / 3600)%Q.
Proof.
  intros H. unfold Qdiv. apply Qmult_le_compat_r; [exact H | discriminate].
Qed.

(** The age in hours, as computed, grows with the time of reading. *)
Lemma age_le (now later written : Q) :
  (now <= later)%Q ->
  (fround E (fround E (now - written) / 3600)
   <= fround E (fround E (later - written) / 3600))%Q.
Proof.
  intros H. apply fround_le, hours_le, fround_le. lra.
Qed.

Lemma recency_nonneg (now written : Q) : (0 <= Laws.recency E now written)%Q.
Proof. unfold Laws.recency. apply Q.le_max_l. Qed.

(** The recency term does not grow with the time of reading. *)
Lemma recency_decreases (now later written : Q) :
  (now <= later)%Q ->
  (Laws.recency E later written <= Laws.recency E now written)%Q.
Proof.
  intros H. unfold Laws.recency.
  apply Q.max_le_compat; [apply Qle_refl|].
  apply fround_le. pose proof (age_le now later written H). lra.
Qed.

Lemma age_at_write (written : Q) :
  (fround E (fround E (written - written) / 3600) == 0)%Q.
Proof.
  assert (H1 : (fround E (written - written) == 0)%Q).
  { rewrite (fround_compat (written - written) 0); [apply fround_0 | ring]. }
  rewrite (fround_compat (fround E (written - written) / 3600) 0);
    [apply fround_0|].
  rewrite H1. reflexivity.
Qed.

(** The recency term is 1 at the time of writing. *)
Lemma recency_at_write (written : Q) :
  (Laws.recency E written written == 1)%Q.
Proof.
  unfold Laws.recency.
  assert (H : (fround E (1 - fround E (fround E (written - written) / 3600))
               == 1)%Q).
  { rewrite (fround_compat _ 1); [apply fround_1|].
    rewrite age_at_write. ring. }
  rewrite H. apply Q.max_r. discriminate.
Qed.

(** From the time of writing on it is at most 1. *)
Lemma recency_at_most_one (now written : Q) :
  (written <= now)%Q -> (Laws.recency E now written <= 1)%Q.
Proof.
  intros H. rewrite <- (recency_at_write written).
  apply recency_decreases. exact H.
Qed.

(** It is 0 from one hour on. *)
Lemma recency_clamped (now written : Q) :
  (written + 3600 <= now)%Q -> (Laws.recency E now written == 0)%Q.
Proof.
  intros H. unfold Laws.recency. apply Q.max_l.
  rewrite <- fround_0. apply fround_le.
  assert (H1 : (3600 <= fround E (now - written))%Q).
  { rewrite <- fround_3600. apply fround_le. lra. }
  assert (H2 : (1 <= fround E (fround E (now - written) / 3600))%Q).
  { rewrite <- fround_1. apply fround_le.
    apply Qle_shift_div_l; [reflexivity|]. lra. }
  lra.
Qed.

(** Where its three operations are exact, it is linear in the age. *)
Lemma recency_linear (now written : Q) :
  (written <= now)%Q -> (now <= written + 3600)%Q ->
  (fround E (now - written) == now - written)%Q ->
  (fround E ((now - written) / 3600) == (now - written) / 3600)%Q ->
  (fround E (1 - (now - written) / 3600) == 1 - (now - written) / 3600)%Q ->
  (Laws.recency E now written == 1 - (now - written) / 3600)%Q.
Proof.
  intros H1 H2 Hsub Hdiv Hone. unfold Laws.recency.
  assert (Hage : (fround E (fround E (now - written) / 3600)
                  == (now - written) / 3600)%Q).
  { rewrite (fround_compat _ ((now - written) / 3600)); [exact Hdiv|].
    rewrite Hsub. reflexivity. }
  assert (Hterm : (fround E (1 - fround E (fround E (now - written) / 3600))
                   == 1 - (now - written) / 3600)%Q).
  { rewrite (fround_compat _ (1 - (now - written) / 3600)); [exact Hone|].
    rewrite Hage. reflexivity. }
  rewrite Hterm. apply Q.max_r.
  assert (H : ((now - written) / 3600 <= 1)%Q).
  { apply Qle_shift_div_r; [reflexivity|]. lra. }
  lra.
Qed.

(** The bonus never lowers a key. *)
Lemma bonus_ranks (query : string) (now_a now_b : Q)
      (a b : Engine.MemoryItem.t) :
  Laws.matches E query a = true ->
  Laws.matches E query b = false ->
  (Laws.recency E now_a (Engine.MemoryItem.timestamp a)
   == Laws.recency E now_b (Engine.MemoryItem.timestamp b))%Q ->
  (Engine.MemoryItem.score a == Engine.MemoryItem.score b)%Q ->
  (Engine.score E query now_b b <= Engine.score E query now_a a)%Q.
Proof.
  intros Ha Hb Hrec Hsc. rewrite !score_formula. unfold Laws.bonus.
  rewrite Ha, Hb.
  assert (H10 : (0 <= fround E (0 + 10))%Q).
  { rewrite <- fround_0 at 1. apply fround_le. discriminate. }
  apply fround_le.
  assert (Hsum : (fround E (0 + Laws.recency E now_b
                                   (Engine.MemoryItem.timestamp b))
                  <= fround E (fround E (0 + 10)
                               + Laws.recency E now_a
                                   (Engine.MemoryItem.timestamp a)))%Q).
  { apply fround_le. lra. }
  lra.
Qed.
End EngineRetrieve.

(** The sample environment computes exactly. *)
Lemma sample_rounding : Laws.float_rounding Sample.env.
Proof.
  unfold Laws.float_rounding. cbn [fround Sample.env].
  split; [intros x y H; exact H|]. repeat split; reflexivity.
Qed.




(* ================================================================== *)
(** * Further properties of the memory of [alan_core] *)
(* ================================================================== *)

Section CoreMemoryMore.
Variable E : Env.

Lemma json_dump_raises_on_object (long : list (string * Core.stored)) :
  Exists Laws.is_object (dict_values long) ->
  exists e, Core.json_dump long = Raise e.
Proof.
  unfold dict_values.
  induction long as [| [k x] long IH]; cbn; intros Hex.
  - inversion Hex.
  - destruct x as [i | i]; [| eexists; reflexivity].
    assert (Hrest : Exists Laws.is_object (map snd long))
      by (inversion Hex as [? ? Hx | ? ? Hx]; subst; [destruct Hx | exact Hx]).
    destruct (IH Hrest) as [e ->].
    destruct (json_of (Core.MemoryItem.content i)); eexists; reflexivity.
Qed.

Lemma objects_not_empty (l : list Core.stored) :
  Forall Laws.is_object l -> l <> [] -> Exists Laws.is_object l.
Proof.
  destruct l as [| x l]; intros Hall Hne; [contradiction|].
  inversion Hall; subst. left. assumption.
Qed.

(** X1: Without a query, [retrieve] returns the slice of the pool whatever
    the pool holds; with a query, one loaded object anywhere in the pool
    makes it raise, whatever the limit. *)
Theorem core_retrieve_query_and_objects (limit : Z) (m : Core.Memory) :
  let pool := Core.short m ++ dict_values (Core.long m) in
  Core.retrieve E None limit m = Ok (slice_to limit pool)
  /\ Core.retrieve E (Some "") limit m = Ok (slice_to limit pool)
  /\ (forall q,
         q <> "" ->
         Exists Laws.is_object pool ->
         Core.retrieve E (Some q) limit m = Raise Core.AttributeError_get).
Proof.
  cbv zeta. split; [reflexivity|]. split; [reflexivity|].
  intros q Hq Hex. unfold Core.retrieve. cbv zeta.
  apply String.eqb_neq in Hq. rewrite Hq.
  rewrite (scan_raises_on_object E (lower q) _ [] Hex). reflexivity.
Qed.

(** X2: A memory constructed on a file from which at least one item loads
    answers every query with the [AttributeError]. *)
Theorem core_retrieve_after_load (path : string) (d : Core.Disk)
        (q : string) (limit : Z) :
  q <> "" ->
  Core.long (Core.Memory_init path d) <> [] ->
  Core.retrieve E (Some q) limit (Core.Memory_init path d)
  = Raise Core.AttributeError_get.
Proof.
  intros Hq Hne. unfold Core.retrieve. cbv zeta.
  apply String.eqb_neq in Hq. rewrite Hq.
  rewrite (scan_raises_on_object E (lower q) _ []); [reflexivity|].
  cbn [Core.short Core.Memory_init app].
  apply objects_not_empty.
  - apply memory_init_objects.
  - unfold dict_values. intros Hnil. apply map_eq_nil in Hnil.
    apply Hne. exact Hnil.
Qed.

(** X3: A long-term write into a memory that holds a loaded object, under
    an identifier that is new: [json.dump] raises inside [_flush], the
    file is left without a document, and a memory constructed on it
    afterwards is empty. *)
Theorem core_flush_after_load_loses_file (kind : string) (content : pyval)
        (s : Core.State) :
  Exists Laws.is_object (dict_values (Core.long (Core.memory s))) ->
  ~ In (uuid4 E (uuid_calls (Core.world s)))
       (dict_keys (Core.long (Core.memory s))) ->
  let s' := snd (Core.write E kind content true s) in
  let path := Core.long_term_path (Core.memory s) in
  dict_get path (Core.disk s') = Some Core.Malformed
  /\ Core.long (Core.Memory_init path (Core.disk s')) = [].
Proof.
  intros Hex Hfresh. cbv zeta.
  unfold Core.write, fresh_uuid, now_ts. cbn.
  unfold Core._flush. cbn [Core.long Core.long_term_path].
  rewrite (dict_set_fresh _ _ _ Hfresh).
  destruct (json_dump_raises_on_object
              (Core.long (Core.memory s)
               ++ [(uuid4 E (uuid_calls (Core.world s)),
                    Core.AsDict
                      {| Core.MemoryItem.id := uuid4 E (uuid_calls (Core.world s));
                         Core.MemoryItem.ts := clock E (clock_calls (Core.world s));
                         Core.MemoryItem.kind := kind;
                         Core.MemoryItem.content := content |})]))
    as [e He].
  { unfold dict_values in *. rewrite map_app. apply Exists_app. left.
    exact Hex. }
  rewrite He. unfold Core.Memory_init. rewrite dict_get_set_same.
  split; reflexivity.
Qed.
End CoreMemoryMore.

(** The sample file with one saved item: every query raises, and one
    long-term write loses the file. *)
Lemma core_retrieve_after_load_witness :
  Core.retrieve Sample.env (Some "milk") 10
                (Core.Memory_init "alan_memory.json" Sample.saved_disk)
  = Raise Core.AttributeError_get.
Proof.
  apply (core_retrieve_after_load Sample.env "alan_memory.json"
                                  Sample.saved_disk "milk" 10%Z).
  - discriminate.
  - vm_compute. discriminate.
Defined.

Lemma core_retrieve_query_and_objects_witness :
  Core.retrieve Sample.env (Some "MILK") 0
                (Core.Memory_init "alan_memory.json" Sample.saved_disk)
  = Raise Core.AttributeError_get.
Proof.
  apply (core_retrieve_query_and_objects
           Sample.env 0%Z
           (Core.Memory_init "alan_memory.json" Sample.saved_disk)).
  - discriminate.
  - vm_compute. left. exact I.
Defined.

Lemma core_flush_after_load_loses_file_witness :
  let s' := snd (Core.write Sample.env "note" (PStr "buy eggs") true
                            (Core.init Sample.saved_disk)) in
  dict_get "alan_memory.json" (Core.disk s') = Some Core.Malformed
  /\ Core.long (Core.Memory_init "alan_memory.json" (Core.disk s')) = [].
Proof.
  apply (core_flush_after_load_loses_file
           Sample.env "note" (PStr "buy eggs") (Core.init Sample.saved_disk)).
  - vm_compute. left. exact I.
  - vm_compute. intros [H | []]. discriminate H.
Defined.

(* ================================================================== *)
(** * Further properties of the memory of the engine *)
(* ================================================================== *)

(** X4: A long-term write files the new item under its identifier: looking
    the identifier up returns the item, every other identifier keeps
    what it had, the short-term partition is untouched, and the item is
    among the values that [retrieve] takes as candidates. *)
Theorem engine_long_term_write_lookup (E : Env) (kind : string)
        (content : pyval) (s : Engine.State) :
  let item := fst (Engine.write E kind content true s) in
  let m' := Engine.memory (snd (Engine.write E kind content true s)) in
  dict_get (Engine.MemoryItem.id item) (Engine.long_term m') = Some item
  /\ (forall k,
         k <> Engine.MemoryItem.id item ->
         dict_get k (Engine.long_term m')
         = dict_get k (Engine.long_term (Engine.memory s)))
  /\ Engine.short_term m' = Engine.short_term (Engine.memory s)
  /\ In item (dict_values (Engine.long_term m'))
  /\ Engine.MemoryItem.kind item = kind
  /\ Engine.MemoryItem.content item = content.
Proof.
  cbv zeta. unfold Engine.write, fresh_uuid, now_ts. cbn.
  split; [apply dict_get_set_same|].
  split; [intros k Hk; apply dict_get_set_other; exact Hk|].
  split; [reflexivity|]. split; [| split; reflexivity].
  generalize (Engine.long_term (Engine.memory s)).
  intros d. unfold dict_values.
  induction d as [| [k v] d IH]; cbn; [left; reflexivity|].
  destruct (String.eqb _ k); cbn; [left; reflexivity | right; exact IH].
Qed.

(* ================================================================== *)
(** * The outline of a run *)
(* ================================================================== *)

Section EngineOutline.
Variable E : Env.
Variable D : nat.

Lemma engine_execute_view (task : Engine.Task.t) (s : Engine.State) :
  Laws.entry_view (fst (Engine.execute E task s))
  = (Engine.Task.description task, false).
Proof.
  destruct (engine_execute_entry E task s) as [t ->]. reflexivity.
Qed.

(** The views of what the loop appends depend on the maximum depth and
    on the descriptions and depths of the frontier alone: not on the
    memory, the clock or the identifiers. *)
Lemma engine_drain_outline (fuel : nat) :
  forall l : Engine.Loop,
    match Laws.engine_outline D fuel (map Laws.engine_queued (Engine.frontier l)) with
    | Some views =>
        exists l',
          Engine.drain E D fuel l = Some l'
          /\ map Laws.entry_view (Engine.results l')
             = map Laws.entry_view (Engine.results l) ++ views
    | None => Engine.drain E D fuel l = None
    end.
Proof.
  induction fuel as [| fuel IH]; intros l;
    destruct (Engine.frontier l) as [| [task depth] rest] eqn:Hf;
    cbn [map Laws.engine_outline Laws.engine_queued fst snd].
  - exists l. split; [| rewrite app_nil_r; reflexivity].
    cbn [Engine.drain]. apply (engine_iteration_none E D) in Hf.
    rewrite Hf. reflexivity.
  - cbn [Engine.drain].
    destruct (Engine.iteration E D l) eqn:Hit; [reflexivity|].
    apply engine_iteration_none in Hit. rewrite Hit in Hf. discriminate.
  - exists l. split; [| rewrite app_nil_r; reflexivity].
    cbn [Engine.drain]. apply (engine_iteration_none E D) in Hf.
    rewrite Hf. reflexivity.
  - cbn [Engine.drain].
    destruct (Nat.ltb_spec D depth) as [Hlt | Hge].
    + rewrite (engine_iteration_skip E D l task depth rest Hf Hlt).
      match goal with |- context [Engine.drain E D fuel ?l1] =>
        specialize (IH l1); cbn [Engine.frontier Engine.results] in IH end.
      destruct (Laws.engine_outline D fuel (map Laws.engine_queued rest))
        as [views |]; cbn [option_map]; [| exact IH].
      destruct IH as (l' & Hdr & Hv). exists l'. split; [exact Hdr|].
      rewrite Hv, map_app, <- app_assoc. reflexivity.
    + fold (Engine.spawns D task depth).
      destruct (Engine.spawns D task depth) eqn:Hs.
      * rewrite (engine_iteration_spawn E D l task depth rest Hf Hs).
        match goal with |- context [Engine.drain E D fuel ?l1] =>
          specialize (IH l1);
          cbn [Engine.frontier Engine.results map Laws.engine_queued fst snd
               Engine.new_task fresh_uuid Engine.Task.description] in IH
        end.
        destruct (Laws.engine_outline D fuel _) as [views |];
          cbn [option_map]; [| exact IH].
        destruct IH as (l' & Hdr & Hv). exists l'. split; [exact Hdr|].
        rewrite Hv, map_app, <- app_assoc. cbn [map app].
        rewrite engine_execute_view. reflexivity.
      * rewrite (engine_iteration_plain E D l task depth rest Hf Hge Hs).
        match goal with |- context [Engine.drain E D fuel ?l1] =>
          specialize (IH l1); cbn [Engine.frontier Engine.results] in IH end.
        destruct (Laws.engine_outline D fuel (map Laws.engine_queued rest))
          as [views |]; cbn [option_map]; [| exact IH].
        destruct IH as (l' & Hdr & Hv). exists l'. split; [exact Hdr|].
        rewrite Hv, map_app, <- app_assoc. cbn [map app].
        rewrite engine_execute_view. reflexivity.
Qed.
End EngineOutline.

Lemma engine_outline_create (D : nat) :
  Laws.engine_outline D 5 [("scaffold project structure", 1);
                           ("create core modules", 1);
                           ("write basic tests", 1)]
  = Some (map (fun d => (d, (D <? 1)%nat))
              (if (1 <? D)%nat then
                 ["scaffold project structure"; "create src folder";
                  "create README"; "create core modules"; "write basic tests"]
               else
                 ["scaffold project structure"; "create core modules";
                  "write basic tests"])).
Proof. destruct D as [| [| D]]; reflexivity. Qed.

Lemma engine_outline_debug (D : nat) :
  Laws.engine_outline D 5 [("reproduce issue", 1); ("apply fix", 1);
                           ("write regression test", 1)]
  = Some (map (fun d => (d, (D <? 1)%nat))
              ["reproduce issue"; "apply fix"; "write regression test"]).
Proof. destruct D as [| [| D]]; reflexivity. Qed.

Lemma engine_outline_default (D : nat) :
  Laws.engine_outline D 5 [("analyze", 1); ("respond", 1)]
  = Some (map (fun d => (d, (D <? 1)%nat)) ["analyze"; "respond"]).
Proof. destruct D as [| [| D]]; reflexivity. Qed.

Lemma engine_process_views (E : Env) (D : nat) (raw_input : string)
        (s : Engine.State) :
  let text := strip raw_input in
  let desc := lower ("Handle intent=" ++ Engine._detect_intent text
                     ++ ": " ++ text)%string in
  exists processed l,
    Engine.process_loop E D 5 raw_input s = Some (processed, l)
    /\ map Laws.entry_view (Engine.results l)
       = map (fun d => (d, (D <? 1)%nat))
             (if contains "create" desc || contains "build" desc then
                if (1 <? D)%nat then
                  ["scaffold project structure"; "create src folder";
                   "create README"; "create core modules"; "write basic tests"]
                else
                  ["scaffold project structure"; "create core modules";
                   "write basic tests"]
              else if contains "debug" desc || contains "fix" desc then
                ["reproduce issue"; "apply fix"; "write regression test"]
              else ["analyze"; "respond"]).
Proof.
  cbv zeta. unfold Engine.process_loop. cbv zeta.
  destruct (Engine.write E "user_input" _ false s) as [item s0].
  unfold Engine.plan, Engine.preprocess. cbv zeta.
  change (dict_get_default "intent" _ _)
    with (PStr (Engine._detect_intent (strip raw_input))).
  change (dict_get_default "text" _ _) with (PStr (strip raw_input)).
  cbn [str].
  unfold Engine.new_task at 1. unfold fresh_uuid at 1. cbv zeta.
  unfold Engine.decompose. cbn [Engine.Task.description]. cbv zeta.
  set (desc := lower _).
  destruct (contains "create" desc || contains "build" desc);
    [| destruct (contains "debug" desc || contains "fix" desc)];
    unfold Engine.new_task, fresh_uuid; cbn [map fst snd];
    match goal with
    | |- context [Engine.drain E D 5 ?start] =>
        pose proof (engine_drain_outline E D 5 start) as Hout;
        cbn [Engine.frontier map Laws.engine_queued fst snd
             Engine.Task.description Engine.results app] in Hout
    end;
    first [ rewrite engine_outline_create in Hout
          | rewrite engine_outline_debug in Hout
          | rewrite engine_outline_default in Hout ];
    destruct Hout as (l' & -> & Hv);
    destruct (Engine.write E "last_results" _ false _) as [item1 s1];
    eexists _, _; (split; [reflexivity|]);
    cbn [Engine.results]; exact Hv.
Qed.


(** X5: What [AlanCore.process] records, for every input and every maximum
    depth: the loop is left within five iterations, and the descriptions
    recorded are those of the rule that the lower-cased root description
    matches ("create"/"build" first, then "debug"/"fix", else the
    default), with the two children of the scaffold task right after it
    when the maximum depth exceeds 1.  Entries are skipped markers
    exactly when the maximum depth is 0. *)
Theorem engine_process_outline (E : Env) (D : nat) (raw_input : string)
        (s : Engine.State) :
  let text := strip raw_input in
  let desc := lower ("Handle intent=" ++ Engine._detect_intent text
                     ++ ": " ++ text)%string in
  exists processed l,
    Engine.process_loop E D 5 raw_input s = Some (processed, l)
    /\ map Laws.entry_view (Engine.results l)
       = map (fun d => (d, (D <? 1)%nat))
             (if contains "create" desc || contains "build" desc then
                if (1 <? D)%nat then
                  ["scaffold project structure"; "create src folder";
                   "create README"; "create core modules"; "write basic tests"]
                else
                  ["scaffold project structure"; "create core modules";
                   "write basic tests"]
              else if contains "debug" desc || contains "fix" desc then
                ["reproduce issue"; "apply fix"; "write regression test"]
              else ["analyze"; "respond"]).
Proof. apply engine_process_views. Qed.

Lemma engine_process_outline_witness :
  exists processed l,
    Engine.process_loop Sample.env Engine.max_depth 5 "Debug why build fails"
                        Engine.init
    = Some (processed, l)
    /\ map Laws.entry_view (Engine.results l)
       = [("scaffold project structure", false); ("create src folder", false);
          ("create README", false); ("create core modules", false);
          ("write basic tests", false)].
Proof.
  destruct (engine_process_outline Sample.env Engine.max_depth
                                   "Debug why build fails" Engine.init)
    as (processed & l & Hrun & Hviews).
  exists processed, l. split; [exact Hrun|]. rewrite Hviews.
  vm_compute. reflexivity.
Defined.

Section CoreOutline.
Variable E : Env.
Variable D : nat.
Hypothesis Hhook : Laws.hook_never_raises E.

Lemma core_iteration_ok (l : Core.Loop) task depth rest res s1 :
  Core.frontier l = (task, depth) :: rest ->
  depth <= D ->
  Core.execute E task (Core.state l) = (Ok res, s1) ->
  Core.iteration E D l
  = Some (Core.Next
            {| Core.frontier :=
                 if Laws.core_fixing (Core.Task.description task)
                 then (Core.verify_task task depth, depth + 1) :: rest
                 else rest;
               Core.results := Core.results l ++ [res];
               Core.log := Core.log l ++ [Core.CallExecute task depth];
               Core.state := s1 |}).
Proof.
  intros Hf Hd Hex. unfold Core.iteration. rewrite Hf.
  apply Nat.ltb_ge in Hd. rewrite Hd, Hex.
  destruct (core_execute_ok E task _ _ _ Hex) as [_ Hfix].
  change (Laws.core_fixing (Core.Task.description task))
    with (Laws.core_fixes task).
  rewrite <- Hfix. destruct (Core.signals_fixed res); reflexivity.
Qed.

(** As long as no hook raises, the views of what the loop of [HRM.run]
    appends depend on the maximum depth and on the descriptions and
    depths of the frontier alone. *)
Lemma core_drain_outline (fuel : nat) :
  forall l : Core.Loop,
    match Laws.core_outline D fuel (map Laws.core_queued (Core.frontier l)) with
    | Some views =>
        exists l',
          Core.drain E D fuel l = Some (Core.Next l')
          /\ map Laws.entry_view (Core.results l')
             = map Laws.entry_view (Core.results l) ++ views
    | None => Core.drain E D fuel l = None
    end.
Proof.
  induction fuel as [| fuel IH]; intros l;
    destruct (Core.frontier l) as [| [task depth] rest] eqn:Hf;
    cbn [map Laws.core_outline Laws.core_queued fst snd].
  - exists l. split; [| rewrite app_nil_r; reflexivity].
    cbn [Core.drain]. apply (core_iteration_none E D) in Hf.
    rewrite Hf. reflexivity.
  - cbn [Core.drain].
    destruct (Nat.ltb_spec D depth) as [Hlt | Hge].
    + rewrite (core_iteration_skip E D l task depth rest Hf Hlt). reflexivity.
    + destruct (core_execute_returns E task (Core.state l) Hhook)
        as (res & s1 & Hex).
      rewrite (core_iteration_ok l task depth rest res s1 Hf Hge Hex).
      reflexivity.
  - exists l. split; [| rewrite app_nil_r; reflexivity].
    cbn [Core.drain]. apply (core_iteration_none E D) in Hf.
    rewrite Hf. reflexivity.
  - cbn [Core.drain].
    destruct (Nat.ltb_spec D depth) as [Hlt | Hge].
    + rewrite (core_iteration_skip E D l task depth rest Hf Hlt).
      match goal with |- context [Core.drain E D fuel ?l1] =>
        specialize (IH l1); cbn [Core.frontier Core.results] in IH end.
      destruct (Laws.core_outline D fuel (map Laws.core_queued rest))
        as [views |]; cbn [option_map]; [| exact IH].
      destruct IH as (l' & Hdr & Hv). exists l'. split; [exact Hdr|].
      rewrite Hv, map_app, <- app_assoc. reflexivity.
    + destruct (core_execute_returns E task (Core.state l) Hhook)
        as (res & s1 & Hex).
      rewrite (core_iteration_ok l task depth rest res s1 Hf Hge Hex).
      destruct (core_execute_ok E task _ _ _ Hex) as [(result & t & Hres) _].
      match goal with |- context [Core.drain E D fuel ?l1] =>
        specialize (IH l1); cbn [Core.frontier Core.results] in IH end.
      destruct (Laws.core_fixing (Core.Task.description task));
        cbn [map Laws.core_queued fst snd Core.verify_task
             Core.Task.description] in IH;
        destruct (Laws.core_outline D fuel _) as [views |];
        cbn [option_map]; try exact IH;
        destruct IH as (l' & Hdr & Hv); exists l'; (split; [exact Hdr|]);
        rewrite Hv, map_app, <- app_assoc; cbn [map app];
        rewrite Hres; reflexivity.
Qed.
End CoreOutline.

Lemma core_outline_create (D : nat) :
  Laws.core_outline D 4 [("scaffold project", 1); ("create core modules", 1);
                         ("write tests", 1)]
  = Some (map (fun d => (d, (D <? 1)%nat))
              ["scaffold project"; "create core modules"; "write tests"]).
Proof. destruct D as [| [| D]]; reflexivity. Qed.

Lemma core_outline_debug (D : nat) :
  Laws.core_outline D 4 [("collect logs", 1); ("reproduce", 1);
                         ("apply fix", 1)]
  = Some (match D with
          | 0 => [("collect logs", true); ("reproduce", true);
                  ("apply fix", true)]
          | S D' => [("collect logs", false); ("reproduce", false);
                     ("apply fix", false); ("verify fix", (D <? 2)%nat)]
          end).
Proof. destruct D as [| [| D]]; reflexivity. Qed.

Lemma core_outline_default (D : nat) :
  Laws.core_outline D 4 [("analyze", 1)] = Some [("analyze", (D <? 1)%nat)].
Proof. destruct D as [| [| D]]; reflexivity. Qed.

Lemma core_run_views (E : Env) (D : nat) (processed_input : pydict)
        (s : Core.State) :
  Laws.hook_never_raises E ->
  let intent := dict_get_default "intent" (PStr "general") processed_input in
  let text := dict_get_default "text" (PStr "") processed_input in
  let desc := lower (str E intent ++ ": " ++ str E text)%string in
  exists results s',
    Core.run E D 4 processed_input s = Some (Ok (results, s'))
    /\ map Laws.entry_view results
       = if contains "create" desc || contains "build" desc then
           map (fun d => (d, (D <? 1)%nat))
               ["scaffold project"; "create core modules"; "write tests"]
         else if contains "debug" desc || contains "fix" desc then
           match D with
           | 0 => [("collect logs", true); ("reproduce", true);
                   ("apply fix", true)]
           | S D' => [("collect logs", false); ("reproduce", false);
                      ("apply fix", false); ("verify fix", (D <? 2)%nat)]
           end
         else [("analyze", (D <? 1)%nat)].
Proof.
  intros Hhook. cbv zeta. unfold Core.run, Core.plan. cbv zeta.
  unfold Core.new_task at 1. unfold fresh_uuid at 1. cbv zeta.
  unfold Core.decompose. cbn [Core.Task.description]. cbv zeta.
  set (desc := lower _).
  destruct (contains "create" desc || contains "build" desc);
    [| destruct (contains "debug" desc || contains "fix" desc)];
    unfold Core.new_task, fresh_uuid; cbn [map fst snd];
    match goal with
    | |- context [Core.drain E D 4 ?start] =>
        pose proof (core_drain_outline E D Hhook 4 start) as Hout;
        cbn [Core.frontier map Laws.core_queued fst snd
             Core.Task.description Core.results app] in Hout
    end;
    first [ rewrite core_outline_create in Hout
          | rewrite core_outline_debug in Hout
          | rewrite core_outline_default in Hout ];
    destruct Hout as (l' & -> & Hv);
    destruct (Core.write E "last_results" _ false _) as [item1 s1];
    eexists _, _; (split; [reflexivity|]); exact Hv.
Qed.




(* ================================================================== *)
(** * The callers *)
(* ================================================================== *)

Section Callers.
Variable E : Env.
Variable D : nat.

Lemma engine_process_returns (raw : string) (s : Engine.State) :
  exists out s', Engine.process E D 5 raw s = Some (out, s').
Proof.
  unfold Engine.process.
  destruct (engine_process_views E D raw s) as (processed & l & -> & _).
  eexists _, _. reflexivity.
Qed.

(** The loop, up to the line that ends it, does what [Laws.session]
    does, and writes a prompt and the text for every line. *)
Lemma repl_loop_exit (pre : list string) (q : string) (post : list string) :
  Forall (fun line => Runtime.is_exit (strip line) = false) pre ->
  Runtime.is_exit (strip q) = true ->
  forall s out,
  exists texts s',
    Laws.session E D pre s = Some (texts, s')
    /\ length texts = length pre
    /\ Runtime.repl_loop E D (pre ++ q :: post) s out
       = Some (Ok tt,
               out ++ flat_map (fun text => [">> "; text]) texts ++ [">> "],
               s').
Proof.
  intros Hpre Hq.
  induction Hpre as [| line pre Hline _ IH]; intros s out;
    cbn [app Runtime.repl_loop Laws.session].
  - rewrite Hq. exists [], s. split; [reflexivity|]. split; reflexivity.
  - rewrite Hline.
    destruct (engine_process_returns (strip line) s) as (text & s1 & ->).
    destruct (IH s1 (out ++ [">> "; text])) as (texts & s' & H1 & Hlen & H2).
    exists (text :: texts), s'. rewrite H1, H2. cbn [length flat_map].
    split; [reflexivity|]. split; [rewrite Hlen; reflexivity|].
    rewrite <- !app_assoc. reflexivity.
Qed.

Lemma repl_loop_eof (lines : list string) :
  Forall (fun line => Runtime.is_exit (strip line) = false) lines ->
  forall s out,
  exists texts s',
    Laws.session E D lines s = Some (texts, s')
    /\ length texts = length lines
    /\ Runtime.repl_loop E D lines s out
       = Some (Raise Runtime.EOFError,
               out ++ flat_map (fun text => [">> "; text]) texts ++ [">> "],
               s').
Proof.
  intros Hlines.
  induction Hlines as [| line lines Hline _ IH]; intros s out;
    cbn [Runtime.repl_loop Laws.session].
  - exists [], s. split; [reflexivity|]. split; reflexivity.
  - rewrite Hline.
    destruct (engine_process_returns (strip line) s) as (text & s1 & ->).
    destruct (IH s1 (out ++ [">> "; text])) as (texts & s' & H1 & Hlen & H2).
    exists (text :: texts), s'. rewrite H1, H2. cbn [length flat_map].
    split; [reflexivity|]. split; [rewrite Hlen; reflexivity|].
    rewrite <- !app_assoc. reflexivity.
Qed.
End Callers.

(** X7: On ASCII input, [repl] stops at the first line that, stripped and
    lower-cased, is "exit" or "quit".  The lines before it are each
    given to [core.process] once, stripped, in order, every call
    starting from the state the one before left; the output holds the
    banner, then a prompt and the text [process] returned for every one
    of these lines, then the prompt of the exit line; the state is the
    one the last call left.  What follows the exit line is never read:
    none of this depends on it. *)
Theorem repl_stops_at_exit (E : Env) (D : nat) (pre : list string)
        (q : string) (post : list string) (s : Engine.State) :
  Forall (fun line => is_ascii line = true) (pre ++ [q]) ->
  Forall (fun line => Runtime.is_exit (strip line) = false) pre ->
  Runtime.is_exit (strip q) = true ->
  exists texts s',
    Laws.session E D pre s = Some (texts, s')
    /\ length texts = length pre
    /\ Runtime.repl E D (pre ++ q :: post) s
       = Some (Ok tt, Laws.transcript texts, s').
Proof.
  intros _ Hpre Hq. unfold Runtime.repl, Laws.transcript.
  destruct (repl_loop_exit E D pre q post Hpre Hq s [Runtime.banner])
    as (texts & s' & H1 & Hlen & H2).
  exists texts, s'. split; [exact H1|]. split; [exact Hlen|]. exact H2.
Qed.

Lemma repl_stops_at_exit_witness :
  exists texts s',
    Laws.session Sample.env 2 ["What's up?"] Engine.init = Some (texts, s')
    /\ length texts = 1
    /\ Runtime.repl Sample.env 2 ["What's up?"; "  QUIT "; "Create x"]
                    Engine.init
       = Some (Ok tt, Laws.transcript texts, s').
Proof.
  apply (repl_stops_at_exit Sample.env 2 ["What's up?"] "  QUIT "
                            ["Create x"] Engine.init).
  - repeat constructor.
  - repeat constructor.
  - reflexivity.
Defined.

(** X8: On ASCII input that ends without an exit line, [repl] has given
    every line to [core.process] once, stripped, in order, and written
    the banner, a prompt and the returned text for every line, and the
    prompt of the read that failed, when the [EOFError] of [input]
    leaves it. *)
Theorem repl_ends_with_eof (E : Env) (D : nat) (lines : list string)
        (s : Engine.State) :
  Forall (fun line => is_ascii line = true) lines ->
  Forall (fun line => Runtime.is_exit (strip line) = false) lines ->
  exists texts s',
    Laws.session E D lines s = Some (texts, s')
    /\ length texts = length lines
    /\ Runtime.repl E D lines s
       = Some (Raise Runtime.EOFError, Laws.transcript texts, s').
Proof.
  intros _ Hlines. unfold Runtime.repl, Laws.transcript.
  destruct (repl_loop_eof E D lines Hlines s [Runtime.banner])
    as (texts & s' & H1 & Hlen & H2).
  exists texts, s'. split; [exact H1|]. split; [exact Hlen|]. exact H2.
Qed.

Lemma repl_ends_with_eof_witness :
  exists texts s',
    Laws.session Sample.env 2 ["exit now"] Engine.init = Some (texts, s')
    /\ length texts = 1
    /\ Runtime.repl Sample.env 2 ["exit now"] Engine.init
       = Some (Raise Runtime.EOFError, Laws.transcript texts, s').
Proof.
  apply (repl_ends_with_eof Sample.env 2 ["exit now"] Engine.init).
  - repeat constructor.
  - repeat constructor.
Defined.

(** X9: The endpoint on a JSON object whose "text" is a string [t] (or is
    missing: then [t] is empty), when no hook raises: the response
    repeats [t] as "input", and its results are those of [HRM.run] on
    the description "general: t"; the intent never takes part in the
    choice of the rule. *)
Theorem endpoint_outline (E : Env) (D : nat) (d : pydict) (t : string)
        (s : Core.State) :
  Laws.hook_never_raises E ->
  dict_get_default "text" (PStr "") d = PStr t ->
  let desc := lower ("general: " ++ t)%string in
  exists results s',
    Backend.alan_endpoint E D (PDict d) s
    = Some (Ok [("input", PStr t);
                ("results",
                 PList (map (fun e => PDict (entry_dict e)) results))],
            s')
    /\ map Laws.entry_view results
       = if contains "create" desc || contains "build" desc then
           map (fun x => (x, (D <? 1)%nat))
               ["scaffold project"; "create core modules"; "write tests"]
         else if contains "debug" desc || contains "fix" desc then
           match D with
           | 0 => [("collect logs", true); ("reproduce", true);
                   ("apply fix", true)]
           | S D' => [("collect logs", false); ("reproduce", false);
                      ("apply fix", false); ("verify fix", (D <? 2)%nat)]
           end
         else [("analyze", (D <? 1)%nat)].
Proof.
  intros Hhook Htext. cbv zeta. unfold Backend.alan_endpoint. cbv zeta.
  assert (Hdata : (if truthy (PDict d) then PDict d else PDict []) = PDict d)
    by (destruct d; reflexivity).
  rewrite Hdata, Htext.
  destruct (core_run_views
              (Backend.without_hook E) D
              [("text", PStr t); ("intent", PStr "general");
               ("tokens", PList (map PStr (split t)))] s I)
    as (results & s' & Hrun & Hviews).
  rewrite Hrun. exists results, s'. split; [reflexivity|]. exact Hviews.
Qed.

Lemma endpoint_outline_witness :
  exists results s',
    Backend.alan_endpoint Sample.env Core.max_depth
                          (PDict [("text", PStr "Fix login")]) (Core.init [])
    = Some (Ok [("input", PStr "Fix login");
                ("results",
                 PList (map (fun e => PDict (entry_dict e)) results))],
            s')
    /\ map Laws.entry_view results
       = [("collect logs", false); ("reproduce", false); ("apply fix", false);
          ("verify fix", false)].
Proof.
  destruct (endpoint_outline Sample.env Core.max_depth
                             [("text", PStr "Fix login")] "Fix login"
                             (Core.init []))
    as (results & s' & Hrun & Hviews).
  - exact I.
  - reflexivity.
  - exists results, s'. split; [exact Hrun|]. rewrite Hviews.
    vm_compute. reflexivity.
Defined.

(** X10: On a request that carries JSON, the endpoint rejects, without
    touching the [HRM], a body that is truthy and not an object, with
    the [AttributeError] of [.get] on a value of its type, and an
    object whose "text" is not a string, with the [AttributeError] of
    [.split] on a value of its type; a falsy body ([null], [false], [0],
    the empty string, array or object) is treated as the empty
    object. *)
Theorem endpoint_rejects_non_strings (E : Env) (D : nat) (s : Core.State) :
  (forall body,
      Laws.json_native body = true ->
      truthy body = true ->
      (forall d, body <> PDict d) ->
      Backend.alan_endpoint E D body s
      = Some (Raise (Backend.AttributeError (Backend.type_name body) "get"),
              s))
  /\ (forall d text,
         Laws.json_native (PDict d) = true ->
         dict_get_default "text" (PStr "") d = text ->
         (forall t, text <> PStr t) ->
         Backend.alan_endpoint E D (PDict d) s
         = Some (Raise (Backend.AttributeError (Backend.type_name text)
                                               "split"),
                 s))
  /\ (forall body,
         Laws.json_native body = true ->
         truthy body = false ->
         Backend.alan_endpoint E D body s
         = Backend.alan_endpoint E D (PDict []) s).
Proof.
  split; [| split].
  - intros body _ Htruthy Hnot. unfold Backend.alan_endpoint. cbv zeta.
    rewrite Htruthy.
    destruct body as [| b | q | str | l | d | l | name truth | z];
      try reflexivity.
    exfalso. apply (Hnot d). reflexivity.
  - intros d text _ Htext Hnot. unfold Backend.alan_endpoint. cbv zeta.
    assert (Hdata : (if truthy (PDict d) then PDict d else PDict []) = PDict d)
      by (destruct d; reflexivity).
    rewrite Hdata, Htext.
    destruct text as [| b | q | str | l | d' | l | name truth | z];
      try reflexivity.
    exfalso. apply (Hnot str). reflexivity.
  - intros body _ Hfalsy. unfold Backend.alan_endpoint. cbv zeta.
    rewrite Hfalsy. reflexivity.
Qed.

Lemma endpoint_rejects_non_strings_witness :
  Backend.alan_endpoint Sample.env Core.max_depth
                        (PDict [("text", PInt 5)]) (Core.init [])
  = Some (Raise {| exn_class := "AttributeError";
                   exn_msg := "'int' object has no attribute 'split'" |},
          Core.init [])
  /\ Backend.alan_endpoint Sample.env Core.max_depth
                           (PList [PStr "Fix login"]) (Core.init [])
     = Some (Raise {| exn_class := "AttributeError";
                      exn_msg := "'list' object has no attribute 'get'" |},
             Core.init []).
Proof.
  destruct (endpoint_rejects_non_strings Sample.env Core.max_depth
                                         (Core.init []))
    as (Hbody & Htext & _).
  split.
  - apply (Htext [("text", PInt 5)] (PInt 5)).
    + reflexivity.
    + reflexivity.
    + intros t H. discriminate H.
  - apply (Hbody (PList [PStr "Fix login"])).
    + reflexivity.
    + reflexivity.
    + intros d H. discriminate H.
Defined.

(* ================================================================== *)
(** * Keywords and rules *)
(* ================================================================== *)

Section StringFacts.

Lemma lower_app (a b : string) :
  lower (a ++ b)%string = (lower a ++ lower b)%string.
Proof. induction a as [| c a IH]; cbn; [reflexivity | rewrite IH; reflexivity]. Qed.

Lemma startswith_app (needle a b : string) :
  startswith needle a = true -> startswith needle (a ++ b)%string = true.
Proof.
  revert a. induction needle as [| c needle IH]; intros a H; [reflexivity|].
  destruct a as [| c' a]; cbn in *; [discriminate|].
  apply andb_prop in H as [Hc Hrest]. rewrite Hc, (IH a Hrest). reflexivity.
Qed.

Lemma contains_unfold (needle hay : string) :
  contains needle hay
  = startswith needle hay
    || match hay with
       | EmptyString => false
       | String _ hay' => contains needle hay'
       end.
Proof. destruct hay; reflexivity. Qed.

(** A substring of the tail, or of the head, is a substring of the
    whole. *)
Lemma contains_app_r (needle a b : string) :
  contains needle b = true -> contains needle (a ++ b)%string = true.
Proof.
  intros H. induction a as [| c a IH]; [exact H|].
  cbn [String.append]. rewrite contains_unfold, IH. apply orb_true_r.
Qed.

Lemma contains_app_l (needle a b : string) :
  contains needle a = true -> contains needle (a ++ b)%string = true.
Proof.
  induction a as [| c a IH]; intros H.
  - rewrite contains_unfold in H. rewrite orb_false_r in H.
    destruct needle; [| discriminate H].
    destruct b; reflexivity.
  - rewrite contains_unfold in H. cbn [String.append].
    rewrite contains_unfold.
    apply orb_prop in H as [H | H].
    + pose proof (startswith_app _ (String c a) b H) as Hs.
      cbn [String.append] in Hs. rewrite Hs. reflexivity.
    + rewrite (IH H). apply orb_true_r.
Qed.
End StringFacts.

(** X11: The first rule wins in both planners: when the lower-cased text of
    the input holds "create" or "build", the plan is the scaffold plan,
    whatever the intent and whatever else the text holds ("debug" and
    "fix" included). *)
Theorem keyword_in_text_selects_scaffold (E : Env) (processed_input : pydict)
        (w : World) :
  let text := str E (dict_get_default "text" (PStr "") processed_input) in
  contains "create" (lower text) || contains "build" (lower text) = true ->
  map Engine.Task.description (fst (Engine.plan E processed_input w))
  = ["scaffold project structure"; "create core modules"; "write basic tests"]
  /\ map Core.Task.description (fst (Core.plan E processed_input w))
     = ["scaffold project"; "create core modules"; "write tests"].
Proof.
  cbv zeta. intros Hkey.
  set (text := str E (dict_get_default "text" (PStr "") processed_input)) in *.
  assert (Hany : forall prefix,
             contains "create" (lower (prefix ++ text)%string)
             || contains "build" (lower (prefix ++ text)%string) = true).
  { intros prefix. rewrite lower_app.
    apply orb_prop in Hkey as [H | H].
    - rewrite (contains_app_r _ _ _ H). reflexivity.
    - rewrite (contains_app_r _ _ _ H). apply orb_true_r. }
  split.
  - unfold Engine.plan, Engine.new_task at 1, fresh_uuid at 1. cbv zeta.
    unfold Engine.decompose. cbn [Engine.Task.description].
    fold text.
    replace ("Handle intent="
             ++ str E (dict_get_default "intent" (PStr "general")
                                        processed_input)
             ++ ": " ++ text)%string
      with (("Handle intent="
             ++ str E (dict_get_default "intent" (PStr "general")
                                        processed_input)
             ++ ": ") ++ text)%string.
    + rewrite Hany. reflexivity.
    + cbn [String.append]. f_equal. f_equal. f_equal. f_equal. f_equal.
      f_equal. f_equal. f_equal. f_equal. f_equal. f_equal. f_equal.
      f_equal. f_equal.
      generalize (str E (dict_get_default "intent" (PStr "general")
                                          processed_input)).
      intros i. induction i as [| c i IH]; cbn; [reflexivity|].
      rewrite IH. reflexivity.
  - unfold Core.plan, Core.new_task at 1, fresh_uuid at 1. cbv zeta.
    unfold Core.decompose. cbn [Core.Task.description].
    fold text.
    replace (str E (dict_get_default "intent" (PStr "general")
                                     processed_input)
             ++ ": " ++ text)%string
      with ((str E (dict_get_default "intent" (PStr "general")
                                     processed_input)
             ++ ": ") ++ text)%string.
    + rewrite Hany. reflexivity.
    + generalize (str E (dict_get_default "intent" (PStr "general")
                                          processed_input)).
      intros i. induction i as [| c i IH]; cbn; [reflexivity|].
      rewrite IH. reflexivity.
Qed.

(** "Debug why build fails": the intent is "debug", the plan is the
    scaffold plan. *)
Lemma keyword_in_text_selects_scaffold_witness :
  dict_get "intent" (Engine.preprocess "Debug why build fails")
  = Some (PStr "debug")
  /\ map Engine.Task.description
         (fst (Engine.plan Sample.env
                           (Engine.preprocess "Debug why build fails") world0))
     = ["scaffold project structure"; "create core modules";
        "write basic tests"].
Proof.
  split; [reflexivity|].
  apply (keyword_in_text_selects_scaffold
           Sample.env (Engine.preprocess "Debug why build fails") world0).
  reflexivity.
Defined.

(** X12: The planners and the tables of the workers.  In the engine, of the
    tasks that [Planner.decompose] can emit, "write regression test" is
    the only one that no rule of [Worker.execute] matches: its result is
    the echo.  In [alan_core], "analyze" is the only planned task for
    which the hook is called. *)
Theorem planned_tasks_and_worker_rules (E : Env) :
  (forall (task t : Engine.Task.t) (w : World),
      In t (fst (Engine.decompose E task w)) ->
      (Engine.dispatch (Engine.Task.description t)
       = [("echo", PStr (Engine.Task.description t))]
       <-> Engine.Task.description t = "write regression test"))
  /\ (forall (hook : nat -> string -> outcome pyval)
             (task t : Core.Task.t) (w w' : World),
         llm_call E = Some hook ->
         In t (fst (Core.decompose E task w)) ->
         (llm_calls (snd (Core.dispatch E (Core.Task.description t) w'))
          = S (llm_calls w')
          <-> Core.Task.description t = "analyze")).
Proof.
  split.
  - intros task t w Hin.
    apply (in_map Engine.Task.description) in Hin.
    pose proof (engine_decompose_cases E task w) as Hc. cbv zeta in Hc.
    destruct Hc as [Hc | [Hc | Hc]]; rewrite Hc in Hin; cbn in Hin;
      repeat (destruct Hin as [Hin | Hin];
              [rewrite <- Hin; cbn; split; intros H;
               first [discriminate H | reflexivity] |]);
      destruct Hin.
  - intros hook task t w w' Hhook Hin.
    apply (in_map Core.Task.description) in Hin.
    pose proof (core_decompose_cases E task w) as Hc. cbv zeta in Hc.
    destruct Hc as [Hc | [Hc | Hc]]; rewrite Hc in Hin; cbn in Hin;
      repeat (destruct Hin as [Hin | Hin];
              [rewrite <- Hin; unfold Core.dispatch; cbn;
               try rewrite Hhook;
               try (destruct (hook (llm_calls w') "analyze"));
               cbn; split; intros H;
               first [discriminate H | reflexivity
                     | exfalso; apply (n_Sn _ H)] |]);
      destruct Hin.
Qed.

Lemma planned_tasks_and_worker_rules_witness :
  llm_calls (snd (Core.dispatch Sample.env_raising_hook "analyze" world0)) = 1.
Proof.
  destruct (planned_tasks_and_worker_rules Sample.env_raising_hook)
    as [_ Hcore].
  apply (Hcore (fun _ _ => Raise Sample.boom)
               {| Core.Task.id := "r"; Core.Task.description := "status?";
                  Core.Task.depth := 0; Core.Task.priority := 1;
                  Core.Task.metadata := [] |}
               {| Core.Task.id := "id-0"; Core.Task.description := "analyze";
                  Core.Task.depth := 1; Core.Task.priority := 5;
                  Core.Task.metadata := [] |}
               world0 world0).
  - reflexivity.
  - vm_compute. left. reflexivity.
  - reflexivity.
Defined.

(* ================================================================== *)
(** * What a run leaves of the memory *)
(* ================================================================== *)

Section RunsAndMemory.
Variable E : Env.
Variable D : nat.

Lemma engine_kept_refl (s : Engine.State) : Laws.engine_kept s s.
Proof. split; auto. Qed.

Lemma engine_kept_trans (s1 s2 s3 : Engine.State) :
  Laws.engine_kept s1 s2 -> Laws.engine_kept s2 s3 -> Laws.engine_kept s1 s3.
Proof.
  intros [H1 H2] [H3 H4]. split; [congruence | auto].
Qed.

Lemma engine_write_kept (k : string) (c : pyval) (s : Engine.State) :
  Laws.engine_kept s (snd (Engine.write E k c false s)).
Proof.
  split.
  - unfold Engine.write, fresh_uuid, now_ts. reflexivity.
  - intros Hb. pose proof (engine_write_short E k c s Hb) as Hw.
    destruct (Engine.write E k c false s) as [item s']. cbn [snd].
    rewrite Hw, lastn_length. lia.
Qed.

Lemma engine_execute_kept (task : Engine.Task.t) (s : Engine.State) :
  Laws.engine_kept s (snd (Engine.execute E task s)).
Proof.
  unfold Engine.execute, now_ts. cbv zeta.
  match goal with
  | |- context [Engine.write E ?k ?c false ?s0] =>
      pose proof (engine_write_kept k c s0) as Hw;
      destruct (Engine.write E k c false s0) as [item s2]
  end.
  cbn [snd] in *. destruct Hw as [H1 H2]. split; cbn; auto.
Qed.

Lemma engine_iteration_kept (l l' : Engine.Loop) :
  Engine.iteration E D l = Some l' ->
  Laws.engine_kept (Engine.state l) (Engine.state l').
Proof.
  intros Hit.
  destruct (engine_iteration_cases E D l l' Hit)
    as (task & depth & rest & Hf & [Hd | [[Hd Hs] | [Hd Hs]]]).
  - rewrite (engine_iteration_skip E D l task depth rest Hf Hd) in Hit.
    injection Hit as Hl; subst l'. apply engine_kept_refl.
  - pose proof (engine_execute_kept task (Engine.state l)) as Hk.
    rewrite (engine_iteration_plain E D l task depth rest Hf Hd Hs) in Hit.
    apply (f_equal (option_map Engine.state)) in Hit. cbn [option_map] in Hit.
    injection Hit as Hl. cbn [Engine.state] in Hl. rewrite <- Hl. exact Hk.
  - pose proof (engine_execute_kept task (Engine.state l)) as Hk.
    rewrite (engine_iteration_spawn E D l task depth rest Hf Hs) in Hit.
    apply (f_equal (option_map Engine.state)) in Hit. cbn [option_map] in Hit.
    injection Hit as Hl. cbn [Engine.state] in Hl. rewrite <- Hl.
    destruct Hk as [H1 H2]. split; cbn; auto.
Qed.

Lemma engine_drain_kept (fuel : nat) :
  forall l l',
    Engine.drain E D fuel l = Some l' ->
    Laws.engine_kept (Engine.state l) (Engine.state l').
Proof.
  induction fuel as [| fuel IH]; intros l l' Hdr; cbn [Engine.drain] in Hdr;
    destruct (Engine.iteration E D l) as [l1 |] eqn:Hit;
    try discriminate;
    try (injection Hdr as <-; apply engine_kept_refl).
  apply (engine_kept_trans _ (Engine.state l1)).
  - apply (engine_iteration_kept l l1 Hit).
  - apply (IH l1 l' Hdr).
Qed.

Lemma core_kept_refl (s : Core.State) : Laws.core_kept s s.
Proof. repeat split; auto. Qed.

Lemma core_kept_trans (s1 s2 s3 : Core.State) :
  Laws.core_kept s1 s2 -> Laws.core_kept s2 s3 -> Laws.core_kept s1 s3.
Proof.
  intros (H1 & H2 & H3 & H4) (H5 & H6 & H7 & H8).
  repeat split; [congruence | congruence | congruence | auto].
Qed.

Lemma core_write_kept (k : string) (c : pyval) (s : Core.State) :
  Laws.core_kept s (snd (Core.write E k c false s)).
Proof.
  unfold Laws.core_kept.
  split; [| split; [| split]];
    try (unfold Core.write, fresh_uuid, now_ts; reflexivity).
  intros Hb. pose proof (core_write_short E k c s Hb) as Hw.
  destruct (Core.write E k c false s) as [item s']. cbn [snd].
  rewrite Hw, lastn_length. lia.
Qed.

Lemma core_execute_kept (task : Core.Task.t) (s : Core.State) :
  Laws.core_kept s (snd (Core.execute E task s)).
Proof.
  unfold Core.execute, now_ts. cbv zeta.
  destruct (Core.dispatch E (Core.Task.description task) _)
    as [[result | e] w2]; cbn [snd].
  - match goal with
    | |- context [Core.write E ?k ?c false ?s0] =>
        pose proof (core_write_kept k c s0) as Hw;
        destruct (Core.write E k c false s0) as [item s2]
    end.
    cbn [snd] in *. destruct Hw as (H1 & H2 & H3 & H4).
    repeat split; cbn; auto.
  - repeat split; auto.
Qed.

Lemma core_iteration_kept (l : Core.Loop) (p : Core.progress) :
  Core.iteration E D l = Some p ->
  Laws.core_kept (Core.state l) (Core.state (Laws.core_last p)).
Proof.
  intros Hit.
  destruct (core_iteration_cases E D l p Hit)
    as (task & depth & rest & Hf
        & [[Hd ->] | [[Hd (e & s1 & Hex & ->)] | [Hd (res & s1 & Hex & ->)]]]);
    cbn [Laws.core_last Core.state].
  - apply core_kept_refl.
  - pose proof (core_execute_kept task (Core.state l)) as Hk.
    rewrite Hex in Hk. exact Hk.
  - pose proof (core_execute_kept task (Core.state l)) as Hk.
    rewrite Hex in Hk. exact Hk.
Qed.

Lemma core_drain_kept (fuel : nat) :
  forall l p,
    Core.drain E D fuel l = Some p ->
    Laws.core_kept (Core.state l) (Core.state (Laws.core_last p)).
Proof.
  induction fuel as [| fuel IH]; intros l p Hdr; cbn [Core.drain] in Hdr;
    destruct (Core.iteration E D l) as [[l1 | e l1] |] eqn:Hit;
    try discriminate;
    try (injection Hdr as <-; apply core_kept_refl);
    try (injection Hdr as <-; apply (core_iteration_kept l _ Hit)).
  apply (core_kept_trans _ (Core.state l1)).
  - apply (core_iteration_kept l _ Hit).
  - apply (IH l1 p Hdr).
Qed.
End RunsAndMemory.

(** X17: A run never writes to long-term memory.  [AlanCore.process] leaves
    the long-term partition as it was and the short-term partition
    within its bound of 100.  The loop of [HRM.run], also when an
    exception ends it, and the run itself leave the long-term partition,
    the path and every file as they were and the short-term partition
    within its bound of 200. *)
Theorem runs_keep_long_term_memory (E : Env) (D : nat) :
  (forall fuel raw_input s out s',
      Engine.process E D fuel raw_input s = Some (out, s') ->
      Laws.engine_kept s s')
  /\ (forall fuel l p,
         Core.drain E D fuel l = Some p ->
         Laws.core_kept (Core.state l) (Core.state (Laws.core_last p)))
  /\ (forall fuel processed_input s results s',
         Core.run E D fuel processed_input s = Some (Ok (results, s')) ->
         Laws.core_kept s s').
Proof.
  split; [| split].
  - intros fuel raw_input s out s'. unfold Engine.process, Engine.process_loop.
    cbv zeta.
    pose proof (engine_write_kept E "user_input"
                  (PDict (Engine.preprocess raw_input)) s) as H0.
    destruct (Engine.write E "user_input" _ false s) as [item s0].
    cbn [snd] in H0.
    destruct (Engine.plan E _ (Engine.world s0)) as [tasks w].
    destruct (Engine.drain E D fuel _) as [l1 |] eqn:Hdr; [| discriminate].
    apply engine_drain_kept in Hdr. cbn [Engine.state] in Hdr.
    match goal with
    | |- context [Engine.write E ?k ?c false ?s1] =>
        pose proof (engine_write_kept E k c s1) as H2;
        destruct (Engine.write E k c false s1) as [item1 s2]
    end.
    cbn [snd] in H2. intros H. injection H as _ <-. cbn [Engine.state].
    apply (engine_kept_trans _ s0); [exact H0|].
    apply (engine_kept_trans _ (Engine.state l1)); [| exact H2].
    destruct Hdr as [H3 H4]. split; cbn in *; auto.
  - intros fuel l p. apply core_drain_kept.
  - intros fuel processed_input s results s'. unfold Core.run. cbv zeta.
    destruct (Core.plan E processed_input (Core.world s)) as [tasks w].
    destruct (Core.drain E D fuel _) as [[l1 | e l1] |] eqn:Hdr;
      try discriminate.
    apply core_drain_kept in Hdr. cbn [Core.state Laws.core_last] in Hdr.
    match goal with
    | |- context [Core.write E ?k ?c false ?s1] =>
        pose proof (core_write_kept E k c s1) as H2;
        destruct (Core.write E k c false s1) as [item1 s2]
    end.
    cbn [snd] in H2. intros H. injection H as _ <-.
    apply (core_kept_trans _ (Core.state l1)); [| exact H2].
    destruct Hdr as (H3 & H4 & H5 & H6). repeat split; cbn in *; auto.
Qed.

Lemma runs_keep_long_term_memory_witness :
  exists out s',
    Engine.process Sample.env 2 5 "Create a new project" Engine.init
    = Some (out, s')
    /\ Laws.engine_kept Engine.init s'.
Proof.
  destruct (runs_keep_long_term_memory Sample.env 2) as [Hengine _].
  eexists _, _. split; [vm_compute; reflexivity|].
  apply (Hengine 5 "Create a new project" Engine.init "").
  vm_compute. reflexivity.
Defined.

(* ================================================================== *)
(** * Retrieval after writes *)
(* ================================================================== *)



Section CoreWriteRetrieve.
Variable E : Env.

Lemma dict_set_value_in {V : Type} (k : string) (v : V)
      (d : list (string * V)) :
  In v (dict_values (dict_set k v d)).
Proof.
  unfold dict_values.
  induction d as [| [k' v'] d IH]; cbn; [left; reflexivity|].
  destruct (String.eqb k k'); cbn; [left; reflexivity | right; exact IH].
Qed.

Lemma dict_set_length {V : Type} (k : string) (v : V)
      (d : list (string * V)) :
  length (dict_set k v d) <= S (length d).
Proof.
  induction d as [| [k' v'] d IH]; cbn; [lia|].
  destruct (String.eqb k k'); cbn; lia.
Qed.

Lemma core_write_pool (kind : string) (content : pyval) (b : bool)
      (s : Core.State) :
  let item := fst (Core.write E kind content b s) in
  let m := Core.memory s in
  let m' := Core.memory (snd (Core.write E kind content b s)) in
  Core.MemoryItem.kind item = kind
  /\ Core.MemoryItem.content item = content
  /\ In (Core.AsDict item) (Core.short m' ++ dict_values (Core.long m'))
  /\ length (Core.short m' ++ dict_values (Core.long m'))
     <= S (length (Core.short m ++ dict_values (Core.long m)))
  /\ (Forall Laws.is_dict (Core.short m ++ dict_values (Core.long m)) ->
      Forall Laws.is_dict (Core.short m' ++ dict_values (Core.long m'))).
Proof.
  cbv zeta. unfold Core.write, fresh_uuid, now_ts.
  destruct b; cbn [fst snd Core.memory Core.short Core.long
                   Core.MemoryItem.kind Core.MemoryItem.content
                   Core.MemoryItem.id].
  - split; [reflexivity|]. split; [reflexivity|].
    split; [apply in_or_app; right; apply dict_set_value_in|].
    split.
    + rewrite !length_app. unfold dict_values. rewrite !length_map.
      match goal with
      | |- context [dict_set ?k ?v ?d] => pose proof (dict_set_length k v d)
      end.
      lia.
    + intros Hall. apply Forall_app in Hall as [Hs Hl].
      apply Forall_app. split; [exact Hs|].
      apply dict_set_values_forall; [exact I | exact Hl].
  - split; [reflexivity|]. split; [reflexivity|].
    set (x := Core.AsDict _).
    assert (Hbounded :
              forall l : list Core.stored,
                In x (if (200 <? length (l ++ [x]))%nat
                      then pop0 (l ++ [x]) else l ++ [x])
                /\ length (if (200 <? length (l ++ [x]))%nat
                           then pop0 (l ++ [x]) else l ++ [x])
                   <= S (length l)
                /\ (Forall Laws.is_dict l ->
                    Forall Laws.is_dict
                           (if (200 <? length (l ++ [x]))%nat
                            then pop0 (l ++ [x]) else l ++ [x]))).
    { intros l. destruct (200 <? length (l ++ [x]))%nat eqn:Hlen.
      - apply Nat.ltb_lt in Hlen. rewrite length_app in Hlen. cbn in Hlen.
        destruct l as [| y l]; [cbn in Hlen; lia|].
        cbn [app pop0 tl]. split; [apply in_or_app; right; left; reflexivity|].
        split; [rewrite length_app; cbn; lia|].
        intros Hall. inversion Hall; subst.
        apply Forall_app. split; [assumption|]. repeat constructor.
      - split; [apply in_or_app; right; left; reflexivity|].
        split; [rewrite length_app; cbn; lia|].
        intros Hall. apply Forall_app. split; [assumption|].
        repeat constructor. }
    destruct (Hbounded (Core.short (Core.memory s))) as (Hin & Hlen & Hall).
    match type of Hlen with length ?t <= _ => set (bounded := t) in * end.
    split; [apply in_or_app; left; exact Hin|].
    split; [rewrite !length_app; lia|].
    intros Hpool. apply Forall_app in Hpool as [Hs Hl].
    apply Forall_app. split; [apply Hall; exact Hs | exact Hl].
Qed.
End CoreWriteRetrieve.



(** X14: The loop of [AlanCore.process] on any frontier: with fuel for the
    budget of the frontier it is left with an empty frontier; every
    pair that was queued or already logged has its event in the final
    log, and every event has its entry in the results. *)
Theorem engine_loop_completes (E : Env) (D : nat) (l : Engine.Loop) :
  Forall2 (Laws.engine_recorded D) (Engine.log l) (Engine.results l) ->
  exists l',
    Engine.drain E D (Laws.engine_budget D (Engine.frontier l)) l = Some l'
    /\ Engine.frontier l' = []
    /\ Forall2 (Laws.engine_recorded D) (Engine.log l') (Engine.results l')
    /\ (forall p,
           In p (map Laws.engine_pair (Engine.log l) ++ Engine.frontier l) ->
           In p (map Laws.engine_pair (Engine.log l'))).
Proof.
  intros Hinv.
  destruct (engine_drain_terminates E D _ l (le_n _)) as [l' Hdr].
  exists l'. split; [exact Hdr|].
  split; [apply (engine_drain_frontier E D _ _ _ Hdr)|].
  split; [apply (engine_drain_recorded E D _ _ _ Hdr Hinv)|].
  intros p Hp. apply (engine_drain_covers E D _ _ _ p Hdr Hp).
Qed.

Lemma engine_loop_completes_witness :
  exists l',
    Engine.drain Sample.env 2
                 (Laws.engine_budget 2 (Engine.frontier Sample.engine_queue))
                 Sample.engine_queue
    = Some l'
    /\ Engine.frontier l' = [].
Proof.
  destruct (engine_loop_completes Sample.env 2 Sample.engine_queue)
    as (l' & Hdr & Hf & _).
  - constructor.
  - exists l'. split; [exact Hdr | exact Hf].
Defined.

(** X13: [Worker.run_shell] never raises: it returns a dictionary with the
    single key "stdout", holding the decoded output, when the command
    and the decoding succeed, and with the single key "error", holding
    the message of the exception, when either fails; it counts as one
    call of the shell and nothing else. *)
Theorem run_shell_always_answers (E : Env) (cmd : string) (w : World) :
  let answer := fst (Core.run_shell E cmd w) in
  let w' := snd (Core.run_shell E cmd w) in
  ((exists text, answer = [("stdout", PStr text)]
                 /\ exists out, check_output E (shell_calls w) cmd = Ok out
                                /\ decode_utf8 E out = Ok text)
   \/ (exists e, answer = [("error", PStr (str_exn e))]
                 /\ (check_output E (shell_calls w) cmd = Raise e
                     \/ exists out, check_output E (shell_calls w) cmd = Ok out
                                    /\ decode_utf8 E out = Raise e)))
  /\ shell_calls w' = S (shell_calls w)
  /\ uuid_calls w' = uuid_calls w
  /\ clock_calls w' = clock_calls w
  /\ llm_calls w' = llm_calls w.
Proof.
  cbv zeta. unfold Core.run_shell.
  destruct (check_output E (shell_calls w) cmd) as [out | e].
  - destruct (decode_utf8 E out) as [text | e] eqn:Hdec; cbn;
      (split; [| auto]).
    + left. exists text. split; [reflexivity|]. exists out. auto.
    + right. exists e. split; [reflexivity|]. right. exists out. auto.
  - cbn. split; [| auto]. right. exists e. split; [reflexivity|]. left.
    reflexivity.
Qed.

(* ================================================================== *)
(** * More on the two loops *)
(* ================================================================== *)

Section EngineNeverSkips.
Variable E : Env.
Variable D : nat.

Lemma engine_iteration_within (l l' : Engine.Loop) :
  Forall (fun p => snd p <= D) (Engine.frontier l) ->
  Engine.iteration E D l = Some l' ->
  Forall (fun p => snd p <= D) (Engine.frontier l')
  /\ exists e,
      Engine.results l' = Engine.results l ++ [e] /\ is_skipped e = false.
Proof.
  intros Hall Hit.
  destruct (engine_iteration_cases E D l l' Hit)
    as (task & depth & rest & Hf & [Hd | [[Hd Hs] | [Hd Hs]]]);
    rewrite Hf in Hall; inversion Hall as [| ? ? Hhead Hrest]; subst;
    cbn [snd] in Hhead.
  - lia.
  - rewrite (engine_iteration_plain E D l task depth rest Hf Hd Hs) in Hit.
    apply (f_equal (option_map
                      (fun x => (Engine.frontier x, Engine.results x)))) in Hit.
    cbn [option_map Engine.frontier Engine.results] in Hit.
    injection Hit as Hfr Hres. rewrite <- Hfr, <- Hres.
    split; [exact Hrest|]. eexists. split; [reflexivity|].
    reflexivity.
  - rewrite (engine_iteration_spawn E D l task depth rest Hf Hs) in Hit.
    apply (f_equal (option_map
                      (fun x => (Engine.frontier x, Engine.results x)))) in Hit.
    cbn [option_map Engine.frontier Engine.results] in Hit.
    injection Hit as Hfr Hres. rewrite <- Hfr, <- Hres.
    split.
    + constructor; [cbn [snd]; lia|]. constructor; [cbn [snd]; lia|].
      exact Hrest.
    + eexists. split; [reflexivity|]. reflexivity.
Qed.

Lemma engine_drain_within (fuel : nat) :
  forall l l',
    Forall (fun p => snd p <= D) (Engine.frontier l) ->
    Engine.drain E D fuel l = Some l' ->
    exists more,
      Engine.results l' = Engine.results l ++ more
      /\ Forall (fun e => is_skipped e = false) more.
Proof.
  induction fuel as [| fuel IH]; intros l l' Hall Hdr;
    cbn [Engine.drain] in Hdr;
    destruct (Engine.iteration E D l) as [l1 |] eqn:Hit;
    try discriminate;
    try (injection Hdr as <-; exists []; rewrite app_nil_r;
         split; [reflexivity | constructor]).
  destruct (engine_iteration_within l l1 Hall Hit)
    as (Hall1 & e & Hres & Hskip).
  destruct (IH l1 l' Hall1 Hdr) as (more & Hmore & Hnone).
  exists (e :: more). split.
  - rewrite Hmore, Hres, <- app_assoc. reflexivity.
  - constructor; assumption.
Qed.
End EngineNeverSkips.

(** X18: In [AlanCore.process], children are spawned only below the
    maximum depth, so the loop never queues a pair beyond it: from a
    frontier whose depths are all within the maximum depth, every entry
    that the loop appends is an execution result, none a skipped
    marker.  (The loop of [HRM.run] has no such property: it queues
    "verify fix" one level below a task at the maximum depth.) *)
Theorem engine_loop_never_skips (E : Env) (D fuel : nat)
        (l l' : Engine.Loop) :
  Forall (fun p => snd p <= D) (Engine.frontier l) ->
  Engine.drain E D fuel l = Some l' ->
  exists more,
    Engine.results l' = Engine.results l ++ more
    /\ Forall (fun e => is_skipped e = false) more.
Proof. apply engine_drain_within. Qed.

Lemma engine_loop_never_skips_witness :
  exists l',
    Engine.drain Sample.env 2 4 Sample.engine_queue = Some l'
    /\ exists more,
        Engine.results l' = Engine.results Sample.engine_queue ++ more
        /\ Forall (fun e => is_skipped e = false) more.
Proof.
  eexists. split; [vm_compute; reflexivity|].
  apply (engine_loop_never_skips Sample.env 2 4 Sample.engine_queue _).
  - repeat constructor.
  - vm_compute. reflexivity.
Defined.


